(** * Config_Manager: the resolution pipeline, embedded and verified

    A shallow embedding of [config_manager/utils.py], [config_manager/env.py],
    [config_manager/validators.py] and [config_manager/core.py].

    - Python dictionaries are association lists in insertion order with
      Python's assignment semantics ([dict_set]: an existing key keeps its
      position, a new key is appended).  A well-formed dictionary has no
      repeated key at any level ([wf_dict]).
    - In-place mutation of a nested dictionary reached from its parent is
      rendered by rebuilding the parent around the updated child.
    - Exceptions are values of [exn], carried by the result type [res].
    - The process environment [os.environ] and the file system are
      snapshots passed to every operation that reads them.
    - Strings are strings of ASCII characters; [Py] holds the built-ins of
      Python the sources call on them.  A float is a binary64 value.
    - [Heap] models the same values as mutable objects behind addresses,
      for the statements about mutation and sharing. *)

From Stdlib Require Import List String Ascii ZArith Bool Arith Lia.
Import ListNotations.
Open Scope string_scope.
Open Scope list_scope.

(** ** Exceptions *)

Inductive exn : Type :=
| KeyError
| TypeError
| ValueError (msg : string)
| FileNotFoundError (path : string)
| ConfigValidationError (errors : list string).

Inductive res (A : Type) : Type :=
| Ok (a : A)
| Raise (e : exn).
Arguments Ok {A} a.
Arguments Raise {A} e.

Definition bind {A B : Type} (m : res A) (k : A -> res B) : res B :=
  match m with
  | Ok a => k a
  | Raise e => Raise e
  end.

Notation "x <- m ;; k" := (bind m (fun x => k))
  (at level 61, m at next level, right associativity).

(** [try: body except (KeyError, TypeError): handler] *)
Definition except_key_type {A : Type} (body : res A) (handler : res A) : res A :=
  match body with
  | Raise KeyError => handler
  | Raise TypeError => handler
  | other => other
  end.

(** ** Python built-ins on (ASCII) strings *)

Module Py.

Definition code (c : ascii) : nat := nat_of_ascii c.

Definition is_upper (c : ascii) : bool := (65 <=? code c)%nat && (code c <=? 90)%nat.

Definition is_digit (c : ascii) : bool := (48 <=? code c)%nat && (code c <=? 57)%nat.

(** [str.isspace] on one ASCII character: tab, line feed, vertical tab, form
    feed, carriage return, the four separators 0x1c-0x1f, and space. *)
Definition is_space (c : ascii) : bool :=
  ((9 <=? code c)%nat && (code c <=? 13)%nat) || ((28 <=? code c)%nat && (code c <=? 32)%nat).

Definition lower_char (c : ascii) : ascii :=
  if is_upper c then ascii_of_nat (code c + 32) else c.

(** [s.lower()] *)
Fixpoint lower (s : string) : string :=
  match s with
  | EmptyString => EmptyString
  | String c s' => String (lower_char c) (lower s')
  end.

Fixpoint lstrip (s : string) : string :=
  match s with
  | EmptyString => EmptyString
  | String c s' => if is_space c then lstrip s' else s
  end.

Fixpoint rstrip (s : string) : string :=
  match s with
  | EmptyString => EmptyString
  | String c s' =>
      match rstrip s' with
      | EmptyString => if is_space c then EmptyString else String c EmptyString
      | r => String c r
      end
  end.

(** [s.strip()] *)
Definition strip (s : string) : string := rstrip (lstrip s).

(** [c in s] for a one-character [c] *)
Fixpoint contains_char (c : ascii) (s : string) : bool :=
  match s with
  | EmptyString => false
  | String d s' => Ascii.eqb c d || contains_char c s'
  end.

(** [s.startswith(p)] *)
Definition startswith (s p : string) : bool := String.prefix p s.

(** [s[n:]] *)
Fixpoint drop (n : nat) (s : string) : string :=
  match n, s with
  | O, _ => s
  | S _, EmptyString => EmptyString
  | S n', String _ s' => drop n' s'
  end.

(** [s.replace(old, new)] for one-character [old] and [new] *)
Fixpoint replace_char (old new : ascii) (s : string) : string :=
  match s with
  | EmptyString => EmptyString
  | String c s' =>
      String (if Ascii.eqb c old then new else c) (replace_char old new s')
  end.

(** [x in (a, b, ...)] for strings *)
Fixpoint str_in (x : string) (l : list string) : bool :=
  match l with
  | [] => false
  | y :: l' => String.eqb x y || str_in x l'
  end.

(** The scan of [s.split(sep)] for a non-empty [sep]: [cur] is the piece
    being collected, [skip] the number of characters of a separator
    occurrence still to pass over.  Occurrences are taken leftmost first and
    do not overlap. *)
Fixpoint split_from (sep : string) (skip : nat) (cur : string) (s : string)
  : list string :=
  match s with
  | EmptyString => [cur]
  | String c s' =>
      match skip with
      | S k => split_from sep k cur s'
      | O =>
          if String.prefix sep s
          then cur :: split_from sep (String.length sep - 1) EmptyString s'
          else split_from sep 0 (cur ++ String c EmptyString) s'
      end
  end.

(** [s.split(sep)]: an empty separator is a [ValueError]. *)
Definition split (s sep : string) : res (list string) :=
  match sep with
  | EmptyString => Raise (ValueError "empty separator")
  | _ => Ok (split_from sep 0 EmptyString s)
  end.

(** [sep.join(l)] *)
Fixpoint join (sep : string) (l : list string) : string :=
  match l with
  | [] => EmptyString
  | [x] => x
  | x :: l' => x ++ sep ++ join sep l'
  end.

(** The white space that [int()] and [float()] pass over around a number
    ([Py_ISSPACE]): tab, line feed, vertical tab, form feed, carriage return
    and space.  The separators 0x1c-0x1f, which [str.strip] removes, are not
    among them. *)
Definition is_number_space (c : ascii) : bool :=
  ((9 <=? code c)%nat && (code c <=? 13)%nat) || (code c =? 32)%nat.

Fixpoint number_lstrip (s : string) : string :=
  match s with
  | EmptyString => EmptyString
  | String c s' => if is_number_space c then number_lstrip s' else s
  end.

Fixpoint number_rstrip (s : string) : string :=
  match s with
  | EmptyString => EmptyString
  | String c s' =>
      match number_rstrip s' with
      | EmptyString =>
          if is_number_space c then EmptyString else String c EmptyString
      | r => String c r
      end
  end.

Definition number_strip (s : string) : string :=
  number_rstrip (number_lstrip s).

(** Underscores in a numeric literal stand only between two digits; they are
    dropped before the number is read. *)
Fixpoint drop_underscores (prev : option ascii) (s : string) : option string :=
  match s with
  | EmptyString =>
      match prev with
      | Some "_"%char => None
      | _ => Some EmptyString
      end
  | String c s' =>
      if Ascii.eqb c "_"
      then match prev with
           | Some p => if is_digit p then drop_underscores (Some c) s' else None
           | None => None
           end
      else
        let ok := match prev with
                  | Some "_"%char => is_digit c
                  | _ => true
                  end in
        if ok
        then option_map (String c) (drop_underscores (Some c) s')
        else None
  end.

(** An optional sign: [(negative, rest)]. *)
Definition split_sign (s : string) : bool * string :=
  match s with
  | String "-" s' => (true, s')
  | String "+" s' => (false, s')
  | _ => (false, s)
  end.

Fixpoint all_digits (s : string) : bool :=
  match s with
  | EmptyString => true
  | String c s' => is_digit c && all_digits s'
  end.

Fixpoint digits_value (acc : Z) (s : string) : Z :=
  match s with
  | EmptyString => acc
  | String c s' => digits_value (10 * acc + Z.of_nat (code c - 48)) s'
  end.

Definition nonempty (s : string) : bool :=
  match s with
  | EmptyString => false
  | _ => true
  end.

(** [sys.int_max_str_digits] as the interpreter sets it: the largest number
    of digits that [int()] reads from a string. *)
Definition int_max_str_digits : nat := 4300.

(** A decimal integer literal (white space around it, an optional sign,
    digits with single underscores between them): its sign and its digits. *)
Definition int_literal (s : string) : option (bool * string) :=
  match drop_underscores None (number_strip s) with
  | None => None
  | Some t =>
      let '(neg, body) := split_sign t in
      if nonempty body && all_digits body then Some (neg, body) else None
  end.

(** An integer literal with more digits than [int()] reads. *)
Definition over_digit_limit (s : string) : bool :=
  match int_literal s with
  | Some (_, body) => (int_max_str_digits <? String.length body)%nat
  | None => false
  end.

(** [int(s)] for a string [s], base 10.  [None] is a [ValueError]: the
    string is not an integer literal, or it has more than
    [int_max_str_digits] digits. *)
Definition int (s : string) : option Z :=
  match int_literal s with
  | Some (neg, body) =>
      if (String.length body <=? int_max_str_digits)%nat
      then Some (if neg then (- digits_value 0 body)%Z else digits_value 0 body)
      else None
  | None => None
  end.

(** A Python float, an IEEE 754 binary64 value: an infinity, not-a-number,
    or [FFin neg m e], which is (-1)^neg * m * 2^e.  Zero has [m = 0] and
    [e = 0]; a normal number has 2^52 <= m < 2^53 and -1074 <= e <= 971; a
    subnormal number has 0 < m < 2^52 and e = -1074. *)
Inductive pyfloat : Type :=
| FInf (neg : bool)
| FNan
| FFin (neg : bool) (m : Z) (e : Z).

(** What a float literal denotes before rounding: [LDec neg m e] is
    (-1)^neg * m * 10^e. *)
Inductive literal : Type :=
| LInf (neg : bool)
| LNan
| LDec (neg : bool) (mantissa : Z) (exp10 : Z).

(** The longest prefix of digits and the rest. *)
Fixpoint span_digits (s : string) : string * string :=
  match s with
  | EmptyString => (EmptyString, EmptyString)
  | String c s' =>
      if is_digit c
      then let '(d, r) := span_digits s' in (String c d, r)
      else (EmptyString, s)
  end.

(** The exponent part of a decimal literal: empty, or [e]/[E], an optional
    sign and at least one digit, up to the end of the string. *)
Definition exponent (s : string) : option Z :=
  match s with
  | EmptyString => Some 0%Z
  | String c s' =>
      if Ascii.eqb (lower_char c) "e"
      then
        let '(neg, body) := split_sign s' in
        if nonempty body && all_digits body
        then Some (if neg then (- digits_value 0 body)%Z else digits_value 0 body)
        else None
      else None
  end.

(** The literals [float()] reads: surrounding white space, an optional sign,
    then [inf], [infinity] or [nan] in any case, or a decimal literal with at
    least one digit, an optional fraction and an optional exponent. *)
Definition float_literal (s : string) : option literal :=
  match drop_underscores None (number_strip s) with
  | None => None
  | Some t =>
      let '(neg, body) := split_sign t in
      let lb := lower body in
      if String.eqb lb "inf" || String.eqb lb "infinity" then Some (LInf neg)
      else if String.eqb lb "nan" then Some LNan
      else
        let '(ip, r1) := span_digits body in
        let '(fp, r2) :=
          match r1 with
          | String "." r => span_digits r
          | _ => (EmptyString, r1)
          end in
        if nonempty (ip ++ fp)
        then match exponent r2 with
             | Some e =>
                 Some (LDec neg (digits_value 0 (ip ++ fp))
                            (e - Z.of_nat (String.length fp)))
             | None => None
             end
        else None
  end.

(** The binary64 value nearest to the positive rational [num / den], ties
    going to the even significand: the quotient by the power of two that
    leaves 53 bits (fewer below the normal range), rounded on its
    remainder; an infinity beyond the largest finite value. *)
Definition round_binary64 (neg : bool) (num den : Z) : pyfloat :=
  let est := (Z.log2 num - Z.log2 den - 53)%Z in
  let quot :=
    if (0 <=? est)%Z then (num / (den * 2 ^ est))%Z
    else (num * 2 ^ (- est) / den)%Z in
  let e0 := if (2 ^ 53 <=? quot)%Z then (est + 1)%Z else est in
  let e := Z.max e0 (-1074) in
  let n := if (0 <=? e)%Z then num else (num * 2 ^ (- e))%Z in
  let d := if (0 <=? e)%Z then (den * 2 ^ e)%Z else den in
  let q := (n / d)%Z in
  let r := (n mod d)%Z in
  let m :=
    if (2 * r <? d)%Z then q
    else if (d <? 2 * r)%Z then (q + 1)%Z
    else if Z.even q then q else (q + 1)%Z in
  if (m =? 0)%Z then FFin neg 0 0
  else if (m =? 2 ^ 53)%Z
  then if (971 <? e + 1)%Z then FInf neg else FFin neg (2 ^ 52) (e + 1)
  else if (971 <? e)%Z then FInf neg else FFin neg m e.

(** The float of a literal. *)
Definition float_of_literal (l : literal) : pyfloat :=
  match l with
  | LInf neg => FInf neg
  | LNan => FNan
  | LDec neg mantissa exp10 =>
      if (mantissa =? 0)%Z then FFin neg 0 0
      else if (0 <=? exp10)%Z
      then round_binary64 neg (mantissa * 10 ^ exp10) 1
      else round_binary64 neg mantissa (10 ^ (- exp10))
  end.

(** [float(s)] for a string [s]; [None] is a [ValueError]. *)
Definition float (s : string) : option pyfloat :=
  option_map float_of_literal (float_literal s).

End Py.


(** ** Configuration values and dictionaries *)

#[local] Set Warnings "-register-all".
Inductive pyval : Type :=
| VNone
| VBool (b : bool)
| VInt (n : Z)
| VFloat (f : Py.pyfloat)
| VStr (s : string)
| VList (l : list pyval)
| VDict (d : list (string * pyval)).

Definition dict : Type := list (string * pyval).

(** [isinstance(v, dict)] *)
Definition is_dict (v : pyval) : bool :=
  match v with
  | VDict _ => true
  | _ => false
  end.

(** [d.get(k)] *)
Fixpoint dict_get {V : Type} (k : string) (d : list (string * V)) : option V :=
  match d with
  | [] => None
  | (k', v) :: d' => if String.eqb k k' then Some v else dict_get k d'
  end.

(** [k in d] *)
Definition dict_has {V : Type} (k : string) (d : list (string * V)) : bool :=
  match dict_get k d with
  | Some _ => true
  | None => false
  end.

(** [d[k]], a [KeyError] when [k] is missing *)
Definition dict_getitem {V : Type} (d : list (string * V)) (k : string) : res V :=
  match dict_get k d with
  | Some v => Ok v
  | None => Raise KeyError
  end.

(** [d[k] = v]: an existing key keeps its place, a new key goes last *)
Fixpoint dict_set {V : Type} (k : string) (v : V) (d : list (string * V))
  : list (string * V) :=
  match d with
  | [] => [(k, v)]
  | (k', v') :: d' =>
      if String.eqb k k' then (k', v) :: d' else (k', v') :: dict_set k v d'
  end.

(** [del d[k]] for a key that is present; [d.pop(k)] leaves the same *)
Fixpoint dict_del {V : Type} (k : string) (d : list (string * V))
  : list (string * V) :=
  match d with
  | [] => []
  | (k', v') :: d' =>
      if String.eqb k k' then d' else (k', v') :: dict_del k d'
  end.

(** [d.update(other)] *)
Definition dict_update (d other : dict) : dict :=
  fold_left (fun acc kv => dict_set (fst kv) (snd kv) acc) other d.

Definition dict_keys (d : dict) : list string := map fst d.

Fixpoint nodup_keys (l : list string) : bool :=
  match l with
  | [] => true
  | k :: l' => negb (Py.str_in k l') && nodup_keys l'
  end.

(** A well-formed dictionary: no key occurs twice, here and in every nested
    dictionary reached through dictionary values. *)
Fixpoint wf_value (v : pyval) : bool :=
  match v with
  | VDict d =>
      nodup_keys (map fst d)
      && (fix all (items : dict) : bool :=
            match items with
            | [] => true
            | (_, x) :: rest => wf_value x && all rest
            end) d
  | _ => true
  end.

Definition wf_dict (d : dict) : bool := wf_value (VDict d).

(** ** utils.py *)

(** The value stored at one key by [deep_merge]: [cur] is [result[key]] and
    [value] the overlay's value; two dictionaries merge, anything else is
    replaced by the overlay's value ([deepcopy] is the identity on values). *)
Fixpoint merge_value (cur : pyval) (value : pyval) {struct value} : pyval :=
  match cur, value with
  | VDict rd, VDict vd =>
      VDict
        ((fix loop (items : dict) (result : dict) {struct items} : dict :=
            match items with
            | [] => result
            | (key, value) :: rest =>
                loop rest
                  (dict_set key
                     (match dict_get key result with
                      | Some cur => merge_value cur value
                      | None => value
                      end) result)
            end) vd rd)
  | _, _ => value
  end.

(** One turn of the loop of [deep_merge]. *)
Definition merge_item (result : dict) (kv : string * pyval) : dict :=
  let '(key, value) := kv in
  dict_set key
    (match dict_get key result with
     | Some cur => merge_value cur value
     | None => value
     end) result.

(** [deep_merge(base, overlay)]: the loop over the items of the overlay,
    started from (a copy of) [base].  The recursive call of the source is
    [merge_value] on two dictionaries (lemma [merge_value_dict]). *)
Definition deep_merge (base overlay : dict) : dict :=
  fold_left merge_item overlay base.

(** The body of the [try] block of [get_nested_value]. *)
Fixpoint get_loop (default : pyval) (current_data : pyval) (keys : list string)
  : res pyval :=
  match keys with
  | [] => Ok current_data
  | key :: rest =>
      match current_data with
      | VDict d => x <- dict_getitem d key ;; get_loop default x rest
      | _ => Ok default
      end
  end.

(** [get_nested_value(data, key_path, default, separator)] *)
Definition get_nested_value (data : dict) (key_path : string) (default : pyval)
  (separator : string) : res pyval :=
  keys <- Py.split key_path separator ;;
  except_key_type (get_loop default (VDict data) keys) (Ok default).

(** The walk of [set_nested_value] over [keys]: every key but the last
    selects (or creates, or replaces by) a dictionary, the last one is
    assigned.  [Py.split] never returns the empty list. *)
Fixpoint set_path (current_data : dict) (keys : list string) (value : pyval)
  : dict :=
  match keys with
  | [] => current_data
  | [key] => dict_set key value current_data
  | key :: rest =>
      let child :=
        match dict_get key current_data with
        | Some (VDict c) => c
        | _ => []
        end in
      dict_set key (VDict (set_path child rest value)) current_data
  end.

(** [set_nested_value(data, key_path, value, separator)]: the dictionary
    [data] after the call. *)
Definition set_nested_value (data : dict) (key_path : string) (value : pyval)
  (separator : string) : res dict :=
  keys <- Py.split key_path separator ;;
  Ok (set_path data keys value).

(** The body of the [try] block of [has_nested_key]. *)
Fixpoint has_loop (current_data : pyval) (keys : list string) : res bool :=
  match keys with
  | [] => Ok true
  | key :: rest =>
      match current_data with
      | VDict d =>
          if dict_has key d
          then x <- dict_getitem d key ;; has_loop x rest
          else Ok false
      | _ => Ok false
      end
  end.

(** [has_nested_key(data, key_path, separator)] *)
Definition has_nested_key (data : dict) (key_path : string) (separator : string)
  : res bool :=
  keys <- Py.split key_path separator ;;
  except_key_type (has_loop (VDict data) keys) (Ok false).

(** [f"{prefix}{separator}{key}" if prefix else key] *)
Definition new_key (separator prefix key : string) : string :=
  match prefix with
  | EmptyString => key
  | _ => (prefix ++ separator ++ key)%string
  end.

(** [flatten_dict] on the dictionary inside [v]. *)
Fixpoint flatten_value (separator prefix : string) (v : pyval) {struct v} : dict :=
  match v with
  | VDict d =>
      (fix loop (items : dict) (result : dict) {struct items} : dict :=
         match items with
         | [] => result
         | (key, value) :: rest =>
             loop rest
               (match value with
                | VDict _ =>
                    dict_update result
                      (flatten_value separator (new_key separator prefix key) value)
                | _ => dict_set (new_key separator prefix key) value result
                end)
         end) d []
  | _ => []
  end.

(** One turn of the loop of [flatten_dict]. *)
Definition flatten_item (separator prefix : string) (result : dict)
  (kv : string * pyval) : dict :=
  let '(key, value) := kv in
  match value with
  | VDict _ =>
      dict_update result
        (flatten_value separator (new_key separator prefix key) value)
  | _ => dict_set (new_key separator prefix key) value result
  end.

(** [flatten_dict(data, separator, prefix)]: the loop of [flatten_item] over
    the items, started from the empty result (lemma [flatten_value_dict]). *)
Definition flatten_dict (data : dict) (separator prefix : string) : dict :=
  flatten_value separator prefix (VDict data).

(** [unflatten_dict(flat_data, separator)] *)
Definition unflatten_dict (flat_data : dict) (separator : string) : res dict :=
  fold_left
    (fun acc kv => result <- acc ;; set_nested_value result (fst kv) (snd kv) separator)
    flat_data (Ok []).

(** [filter_dict_by_prefix(data, prefix, remove_prefix, separator)] *)
Definition filter_dict_by_prefix (data : dict) (prefix : string)
  (remove_prefix : bool) (separator : string) : dict :=
  let prefix_with_sep : string := (prefix ++ separator)%string in
  fold_left
    (fun result kv =>
       let '(key, value) := kv in
       if Py.startswith key prefix_with_sep || String.eqb key prefix
       then
         let new_key :=
           if remove_prefix && Py.startswith key prefix_with_sep
           then Py.drop (String.length prefix_with_sep) key
           else key in
         dict_set new_key value result
       else result)
    data [].

(** ** env.py *)

Inductive Environment : Type :=
| DEVELOPMENT
| STAGING
| PRODUCTION
| TESTING.

(** [Environment.value], the canonical identifier *)
Definition env_value (e : Environment) : string :=
  match e with
  | DEVELOPMENT => "development"
  | STAGING => "staging"
  | PRODUCTION => "production"
  | TESTING => "testing"
  end.

Definition all_environments : list Environment :=
  [DEVELOPMENT; STAGING; PRODUCTION; TESTING].

(** [cls(s)]: the member whose value is [s] *)
Definition env_of_value (s : string) : option Environment :=
  find (fun e => String.eqb (env_value e) s) all_environments.

Definition env_map : list (string * Environment) :=
  [ ("dev", DEVELOPMENT); ("develop", DEVELOPMENT);
    ("development", DEVELOPMENT); ("local", DEVELOPMENT);
    ("stage", STAGING); ("staging", STAGING); ("preprod", STAGING);
    ("pre-production", STAGING);
    ("prod", PRODUCTION); ("production", PRODUCTION); ("live", PRODUCTION);
    ("test", TESTING); ("testing", TESTING); ("ci", TESTING) ].

(** [Environment.from_string(env_str)]; the message of the [ValueError] is
    cut after the name. *)
Definition from_string (env_str : string) : res Environment :=
  let normalized_env := Py.strip (Py.lower env_str) in
  match dict_get normalized_env env_map with
  | Some e => Ok e
  | None =>
      match env_of_value normalized_env with
      | Some e => Ok e
      | None => Raise (ValueError ("Unknown environment: " ++ env_str))
      end
  end.

(** [os.environ]: the variables of the process, in iteration order *)
Definition environ_t : Type := list (string * string).

(** [os.getenv(name, default)] *)
Definition getenv (environ : environ_t) (name default : string) : string :=
  match dict_get name environ with
  | Some v => v
  | None => default
  end.

(** The argument of [set_environment]: a string or a member of the
    enumeration. *)
Inductive env_arg : Type :=
| EnvStr (s : string)
| EnvEnum (e : Environment).

Module EnvironmentManager.

Record t : Type := mk {
  env_var_name : string;
  _current_env : option Environment;
  _env_overrides_cache : option dict
}.

(** [EnvironmentManager(env_var_name)] *)
Definition init (env_var_name : string) : t := mk env_var_name None None.

(** The property [current_environment]: the environment and the manager
    after the read (the first read is memoized). *)
Definition current_environment (environ : environ_t) (self : t)
  : Environment * t :=
  match _current_env self with
  | Some e => (e, self)
  | None =>
      let env_str := getenv environ (env_var_name self) "development" in
      let e :=
        match from_string env_str with
        | Ok e => e
        | Raise _ => DEVELOPMENT
        end in
      (e, mk (env_var_name self) (Some e) (_env_overrides_cache self))
  end.

(** [set_environment(environment)] *)
Definition set_environment (self : t) (environment : env_arg) : res t :=
  environment <-
    match environment with
    | EnvStr s => from_string s
    | EnvEnum e => Ok e
    end ;;
  Ok (mk (env_var_name self) (Some environment) None).

Definition true_words : list string := ["true"; "yes"; "1"; "on"; "enabled"].
Definition false_words : list string := ["false"; "no"; "0"; "off"; "disabled"].

(** [_convert_env_value(value)]; a [None] of [Py.int] or [Py.float] is the
    [ValueError] that the [try] block passes over. *)
Definition _convert_env_value (value : string) : pyval :=
  match value with
  | EmptyString => VStr ""
  | _ =>
      let lower_value := Py.lower value in
      if Py.str_in lower_value true_words then VBool true
      else if Py.str_in lower_value false_words then VBool false
      else
        let attempt :=
          if negb (Py.contains_char "." value)
             && negb (Py.contains_char "e" lower_value)
          then option_map VInt (Py.int value)
          else option_map VFloat (Py.float value) in
        match attempt with
        | Some converted => converted
        | None => VStr value
        end
  end.

(** The configuration key of a variable name: prefix removed, lower case,
    underscores turned into dots. *)
Definition config_key_of (prefix key : string) : string :=
  Py.replace_char "_" "." (Py.lower (Py.drop (String.length prefix) key)).

(** One turn of the loop of [get_env_overrides]. *)
Definition override_item (prefix : string) (acc : res dict)
  (kv : string * string) : res dict :=
  overrides <- acc ;;
  if Py.startswith (fst kv) prefix
  then set_nested_value overrides (config_key_of prefix (fst kv))
         (_convert_env_value (snd kv)) "."
  else Ok overrides.

(** The overrides computed from the variables, the cache left aside. *)
Definition compute_overrides (environ : environ_t) (prefix : string) : res dict :=
  fold_left (override_item prefix) environ (Ok []).

(** [get_env_overrides(prefix, cache)]: the overrides and the manager after
    the call. *)
Definition get_env_overrides (environ : environ_t) (self : t) (prefix : string)
  (cache : bool) : res (dict * t) :=
  match cache, _env_overrides_cache self with
  | true, Some cached => Ok (cached, self)
  | _, _ =>
      overrides <- compute_overrides environ prefix ;;
      Ok (overrides,
          if cache
          then mk (env_var_name self) (_current_env self) (Some overrides)
          else self)
  end.

(** [clear_cache()] *)
Definition clear_cache (self : t) : t :=
  mk (env_var_name self) (_current_env self) None.

(** [get_environment_config_key(base_key)] *)
Definition get_environment_config_key (environ : environ_t) (self : t)
  (base_key : string) : string * t :=
  let '(e, self') := current_environment environ self in
  ((env_value e ++ "." ++ base_key)%string, self').

(** [is_development()] *)
Definition is_development (environ : environ_t) (self : t) : bool * t :=
  let '(e, self') := current_environment environ self in
  (match e with DEVELOPMENT => true | _ => false end, self').

(** [is_production()] *)
Definition is_production (environ : environ_t) (self : t) : bool * t :=
  let '(e, self') := current_environment environ self in
  (match e with PRODUCTION => true | _ => false end, self').

(** [is_staging()] *)
Definition is_staging (environ : environ_t) (self : t) : bool * t :=
  let '(e, self') := current_environment environ self in
  (match e with STAGING => true | _ => false end, self').

(** [is_testing()] *)
Definition is_testing (environ : environ_t) (self : t) : bool * t :=
  let '(e, self') := current_environment environ self in
  (match e with TESTING => true | _ => false end, self').

End EnvironmentManager.

(** ** validators.py *)

Record ValidationRule : Type := mkRule {
  name : string;
  validator_func : pyval -> res bool;
  error_message : string;
  description : string;
  (** the attribute read by [getattr(r, 'required', False)] *)
  required : bool
}.

(** [ValidationRule.validate(value)]: an exception of the function counts as
    invalid. *)
Definition rule_validate (rule : ValidationRule) (value : pyval) : bool :=
  match validator_func rule value with
  | Ok b => b
  | Raise _ => false
  end.

(** The argument of [add_rule]: a rule or the name of a built-in rule. *)
Inductive rule_arg : Type :=
| RuleObj (r : ValidationRule)
| RuleName (n : string).

(** [is_not_empty] of [_register_built_in_rules] *)
Definition is_not_empty (value : pyval) : res bool :=
  match value with
  | VNone => Ok false
  | VStr s => Ok (Py.nonempty (Py.strip s))
  | VList l => Ok (negb (Nat.eqb (List.length l) 0))
  | VDict d => Ok (negb (Nat.eqb (List.length d) 0))
  | _ => Ok true
  end.

Module ConfigValidator.

Record t : Type := mk {
  rules : list (string * list ValidationRule);
  built_in_rules : list (string * ValidationRule)
}.

Section Validator.

(** [str(value)], as used by the f-string of an error message. *)
Variable py_str : pyval -> string.

(** The predicates of the built-in rules that rest on [urllib.parse],
    [int()] of an arbitrary value and [re]. *)
Variables is_valid_url is_valid_port is_valid_email : pyval -> res bool.

(** [_register_built_in_rules()]: the table [built_in_rules] *)
Definition _register_built_in_rules : list (string * ValidationRule) :=
  [ ("url",
     mkRule "url" is_valid_url "must be a valid URL with scheme and netloc"
       "Validates URLs (http://example.com)" false);
    ("port",
     mkRule "port" is_valid_port "must be a valid port number (1-65535)"
       "Validates network port numbers" false);
    ("email",
     mkRule "email" is_valid_email "must be a valid email address"
       "Validates email addresses" false);
    ("required",
     mkRule "required" is_not_empty "is required and cannot be empty"
       "Ensures value is not None or empty" true) ].

(** [ConfigValidator()] *)
Definition init : t := mk [] _register_built_in_rules.

(** [add_rule(key_path, rule)]; the message of the [ValueError] is cut
    before the list of available rules. *)
Definition add_rule (self : t) (key_path : string) (rule : rule_arg) : res t :=
  rule <-
    match rule with
    | RuleName n =>
        match dict_get n (built_in_rules self) with
        | Some r => Ok r
        | None => Raise (ValueError ("Unknown built-in rule '" ++ n ++ "'"))
        end
    | RuleObj r => Ok r
    end ;;
  let current :=
    match dict_get key_path (rules self) with
    | Some rs => rs
    | None => []
    end in
  Ok (mk (dict_set key_path (current ++ [rule]) (rules self))
         (built_in_rules self)).

(** [remove_rule(key_path, rule_name)] *)
Definition remove_rule (self : t) (key_path : string)
  (rule_name : option string) : t :=
  match dict_get key_path (rules self) with
  | None => self
  | Some rs =>
      match rule_name with
      | None => mk (dict_del key_path (rules self)) (built_in_rules self)
      | Some n =>
          let kept := filter (fun rule => negb (String.eqb (name rule) n)) rs in
          match kept with
          | [] => mk (dict_del key_path (rules self)) (built_in_rules self)
          | _ => mk (dict_set key_path kept (rules self)) (built_in_rules self)
          end
      end
  end.

(** The inner loop of [validate]: every failing rule appends a message. *)
Definition apply_rules (key_path : string) (value : pyval)
  (rules : list ValidationRule) (errors : list string) : list string :=
  fold_left
    (fun errors rule =>
       if negb (rule_validate rule value)
       then errors ++
            [(key_path ++ ": " ++ error_message rule
                ++ " (value: " ++ py_str value ++ ")")%string]
       else errors)
    rules errors.

(** One turn of the outer loop of [validate]. *)
Definition validate_entry (config_data : dict) (errors : res (list string))
  (entry : string * list ValidationRule) : res (list string) :=
  let '(key_path, rules) := entry in
  errors <- errors ;;
  value <- get_nested_value config_data key_path VNone "." ;;
  match value with
  | VNone =>
      let required_rules := filter required rules in
      match required_rules with
      | [] => Ok errors
      | _ => Ok (errors ++ [(key_path ++ ": Required key is missing")%string])
      end
  | _ => Ok (apply_rules key_path value rules errors)
  end.

(** [validate(config_data, raise_on_error)] *)
Definition validate (self : t) (config_data : dict) (raise_on_error : bool)
  : res (list string) :=
  errors <- fold_left (validate_entry config_data) (rules self) (Ok []) ;;
  match raise_on_error, errors with
  | true, _ :: _ => Raise (ConfigValidationError errors)
  | _, _ => Ok errors
  end.

(** [validate_key(key_path, config_data)] *)
Definition validate_key (self : t) (key_path : string) (config_data : dict)
  : res (list string) :=
  match dict_get key_path (rules self) with
  | None => Ok []
  | Some rules =>
      value <- get_nested_value config_data key_path VNone "." ;;
      match value with
      | VNone =>
          match filter required rules with
          | [] => Ok []
          | _ => Ok [(key_path ++ ": Required key is missing")%string]
          end
      | _ => Ok (apply_rules key_path value rules [])
      end
  end.

(** [get_rules_for_key(key_path)] *)
Definition get_rules_for_key (self : t) (key_path : string)
  : list ValidationRule :=
  match dict_get key_path (rules self) with
  | Some rs => rs
  | None => []
  end.

(** [list_all_rules()] *)
Definition list_all_rules (self : t) : list (string * list string) :=
  map (fun entry => (fst entry, map name (snd entry))) (rules self).

(** [create_custom_rule(name, validator_func, error_message, description)];
    a rule built this way has no [required] attribute. *)
Definition create_custom_rule (name : string)
  (validator_func : pyval -> res bool) (error_message description : string)
  : ValidationRule :=
  mkRule name validator_func error_message description false.

End Validator.

End ConfigValidator.

(** ** core.py *)

(** What [load_file] finds at a path: no file, an extension without a loader,
    a loader that fails, or the dictionary the loader returns. *)
Inductive file_status : Type :=
| Missing
| Unsupported (extension : string)
| Broken (msg : string)
| Parsed (file_data : dict).

Definition file_system : Type := string -> file_status.

Module ConfigManager.

Record t : Type := mk {
  config_data : dict;
  env_manager : EnvironmentManager.t;
  validator : ConfigValidator.t;
  loaded_files : list string;
  _resolved_cache : option dict
}.

Definition with_data (self : t) (d : dict) : t :=
  mk d (env_manager self) (validator self) (loaded_files self)
    (_resolved_cache self).

Definition with_env (self : t) (m : EnvironmentManager.t) : t :=
  mk (config_data self) m (validator self) (loaded_files self)
    (_resolved_cache self).

Definition with_validator (self : t) (v : ConfigValidator.t) : t :=
  mk (config_data self) (env_manager self) v (loaded_files self)
    (_resolved_cache self).

Definition with_files (self : t) (l : list string) : t :=
  mk (config_data self) (env_manager self) (validator self) l
    (_resolved_cache self).

Definition with_cache (self : t) (c : option dict) : t :=
  mk (config_data self) (env_manager self) (validator self)
    (loaded_files self) c.

Section Manager.

Variable py_str : pyval -> string.
Variables is_valid_url is_valid_port is_valid_email : pyval -> res bool.

(** [ConfigManager(env_var_name)] *)
Definition init (env_var_name : string) : t :=
  mk [] (EnvironmentManager.init env_var_name)
    (ConfigValidator.init is_valid_url is_valid_port is_valid_email) [] None.

(** [load_file(file_path)]; the messages of the errors are cut before the
    list of supported formats. *)
Definition load_file (fs : file_system) (self : t) (file_path : string)
  : res t :=
  match fs file_path with
  | Missing => Raise (FileNotFoundError file_path)
  | Unsupported extension =>
      Raise (ValueError ("Unsupported file format: " ++ extension))
  | Broken msg =>
      Raise (ValueError ("Error loading configuration from " ++ file_path
                           ++ ": " ++ msg))
  | Parsed file_data =>
      Ok (with_cache
            (with_files (with_data self (deep_merge (config_data self) file_data))
               (loaded_files self ++ [file_path]))
            None)
  end.

(** [load_dict(config_dict)] *)
Definition load_dict (self : t) (config_dict : dict) : t :=
  with_cache (with_data self (deep_merge (config_data self) config_dict)) None.

(** [set_environment(environment)] *)
Definition set_environment (self : t) (environment : env_arg) : res t :=
  m <- EnvironmentManager.set_environment (env_manager self) environment ;;
  Ok (with_cache (with_env self m) None).

(** [apply_env_overrides(prefix)] *)
Definition apply_env_overrides (environ : environ_t) (self : t)
  (prefix : string) : res t :=
  r <- EnvironmentManager.get_env_overrides environ (env_manager self) prefix true ;;
  let '(overrides, m) := r in
  let self := with_env self m in
  match overrides with
  | [] => Ok self
  | _ =>
      Ok (with_cache
            (with_data self (deep_merge (config_data self) overrides)) None)
  end.

(** [get(key_path, default)]: the value and the manager after the call (the
    environment may have been read for the first time). *)
Definition get (environ : environ_t) (self : t) (key_path : string)
  (default : pyval) : res (pyval * t) :=
  let '(env_key, m) :=
    EnvironmentManager.get_environment_config_key environ (env_manager self)
      key_path in
  let self := with_env self m in
  env_value <- get_nested_value (config_data self) env_key VNone "." ;;
  match env_value with
  | VNone =>
      v <- get_nested_value (config_data self) key_path default "." ;;
      Ok (v, self)
  | _ => Ok (env_value, self)
  end.

(** [set(key_path, value)] *)
Definition set (self : t) (key_path : string) (value : pyval) : res t :=
  d <- set_nested_value (config_data self) key_path value "." ;;
  Ok (with_cache (with_data self d) None).

(** [has(key_path)] *)
Definition has (environ : environ_t) (self : t) (key_path : string)
  : res (bool * t) :=
  let '(env_key, m) :=
    EnvironmentManager.get_environment_config_key environ (env_manager self)
      key_path in
  let self := with_env self m in
  b <- has_nested_key (config_data self) env_key "." ;;
  if b then Ok (true, self)
  else
    b' <- has_nested_key (config_data self) key_path "." ;;
    Ok (b', self).

(** [x[key]] on an arbitrary value with a string key: only a dictionary can
    be indexed that way. *)
Definition getitem (current_data : pyval) (key : string) : res pyval :=
  match current_data with
  | VDict d => dict_getitem d key
  | _ => Raise TypeError
  end.

(** [sub in s] on strings *)
Fixpoint is_substring (sub s : string) : bool :=
  String.prefix sub s
  || match s with
     | EmptyString => false
     | String _ s' => is_substring sub s'
     end.

(** The [try] block of [delete] from [current_data] on: [Ok (Some v)] when
    the key was found and deleted, [v] being [current_data] afterwards;
    [Ok None] when the last key is not in its parent. *)
Fixpoint delete_walk (current_data : pyval) (keys : list string)
  : res (option pyval) :=
  match keys with
  | [] => Ok None
  | [key] =>
      match current_data with
      | VDict d =>
          if dict_has key d then Ok (Some (VDict (dict_del key d))) else Ok None
      | VStr s => if is_substring key s then Raise TypeError else Ok None
      | VList l =>
          if existsb (fun x => match x with
                               | VStr s => String.eqb s key
                               | _ => false
                               end) l
          then Raise TypeError
          else Ok None
      | _ => Raise TypeError
      end
  | key :: rest =>
      child <- getitem current_data key ;;
      r <- delete_walk child rest ;;
      match r, current_data with
      | Some child', VDict d => Ok (Some (VDict (dict_set key child' d)))
      | _, _ => Ok None
      end
  end.

(** [delete(key_path)] *)
Definition delete (self : t) (key_path : string) : res t :=
  keys <- Py.split key_path "." ;;
  match except_key_type (delete_walk (VDict (config_data self)) keys) (Ok None) with
  | Ok (Some (VDict d)) => Ok (with_cache (with_data self d) None)
  | Ok _ => Ok self
  | Raise e => Raise e
  end.

(** [update(updates)] *)
Definition update (self : t) (updates : dict) : res t :=
  fold_left
    (fun acc kv => self <- acc ;; set self (fst kv) (snd kv))
    updates (Ok self).

(** The resolution of a raw tree under an environment, as computed by
    [get_resolved_config] when no cached result is used. *)
Definition resolve (config_data : dict) (e : Environment) : dict :=
  let resolved := config_data in
  let env_key := env_value e in
  if dict_has env_key resolved
  then
    match dict_get env_key resolved with
    | Some (VDict env_config) => deep_merge (dict_del env_key resolved) env_config
    | _ => dict_del env_key resolved
    end
  else resolved.

(** [get_resolved_config(use_cache)] *)
Definition get_resolved_config (environ : environ_t) (self : t)
  (use_cache : bool) : dict * t :=
  match use_cache, _resolved_cache self with
  | true, Some cached => (cached, self)
  | _, _ =>
      let '(e, m) :=
        EnvironmentManager.current_environment environ (env_manager self) in
      let self := with_env self m in
      let resolved := resolve (config_data self) e in
      (resolved, if use_cache then with_cache self (Some resolved) else self)
  end.

(** [validate(raise_on_error)]: the outcome and the manager after the call *)
Definition validate (environ : environ_t) (self : t) (raise_on_error : bool)
  : res (list string) * t :=
  let '(resolved_config, self) := get_resolved_config environ self true in
  (ConfigValidator.validate py_str (validator self) resolved_config raise_on_error,
   self).

(** [add_validation_rule(key_path, rule)] *)
Definition add_validation_rule (self : t) (key_path : string) (rule : rule_arg)
  : res t :=
  v <- ConfigValidator.add_rule (validator self) key_path rule ;;
  Ok (with_validator self v).

(** [remove_validation_rule(key_path, rule_name)] *)
Definition remove_validation_rule (self : t) (key_path : string)
  (rule_name : option string) : t :=
  with_validator self (ConfigValidator.remove_rule (validator self) key_path rule_name).

(** [to_dict(resolved)] *)
Definition to_dict (environ : environ_t) (self : t) (resolved : bool)
  : dict * t :=
  if resolved then get_resolved_config environ self true
  else (config_data self, self).

(** [clear()] *)
Definition clear (self : t) : t :=
  with_cache (with_files (with_data self []) []) None.

(** [reload()]: a file that no longer exists is passed over; a file that
    fails to load ends the reload with its exception, the manager keeping
    what was loaded until then. *)
Definition reload (fs : file_system) (self : t) : res unit * t :=
  let files_to_reload := loaded_files self in
  fold_left
    (fun acc file_path =>
       match acc with
       | (Ok _, self) =>
           match fs file_path with
           | Missing => (Ok tt, self)
           | _ =>
               match load_file fs self file_path with
               | Ok self' => (Ok tt, self')
               | Raise e => (Raise e, self)
               end
           end
       | failed => failed
       end)
    files_to_reload (Ok tt, clear self).

(** [_iter_items(data, prefix)] of [items]: the pairs the generator yields,
    in order. *)
Fixpoint _iter_items (prefix : string) (v : pyval) {struct v}
  : list (string * pyval) :=
  match v with
  | VDict d =>
      (fix loop (items : dict) : list (string * pyval) :=
         match items with
         | [] => []
         | (key, value) :: rest =>
             match value with
             | VDict _ => _iter_items (new_key "." prefix key) value
             | _ => [(new_key "." prefix key, value)]
             end ++ loop rest
         end) d
  | _ => []
  end.

(** [items(resolved)] *)
Definition items (environ : environ_t) (self : t) (resolved : bool)
  : list (string * pyval) * t :=
  let '(config, self) :=
    if resolved then get_resolved_config environ self true
    else (config_data self, self) in
  (_iter_items "" (VDict config), self).

(** [keys(resolved)] *)
Definition keys (environ : environ_t) (self : t) (resolved : bool)
  : list string * t :=
  let '(config, self) :=
    if resolved then get_resolved_config environ self true
    else (config_data self, self) in
  (map fst (flatten_dict config "." ""), self).

(** [config[key]] *)
Definition __getitem__ (environ : environ_t) (self : t) (key : string)
  : res (pyval * t) :=
  r <- get environ self key VNone ;;
  let '(value, self) := r in
  match value with
  | VNone =>
      h <- has environ self key ;;
      let '(present, self) := h in
      if negb present then Raise KeyError else Ok (value, self)
  | _ => Ok (value, self)
  end.

(** [config[key] = value] *)
Definition __setitem__ (self : t) (key : string) (value : pyval) : res t :=
  set self key value.


(** [key in config] *)
Definition __contains__ (environ : environ_t) (self : t) (key : string)
  : res (bool * t) :=
  has environ self key.

(** [len(config)] *)
Definition __len__ (environ : environ_t) (self : t) : nat * t :=
  let '(resolved, self) := get_resolved_config environ self true in
  (List.length resolved, self).

(** [iter(config)]: the top-level keys of the resolved configuration *)
Definition __iter__ (environ : environ_t) (self : t) : list string * t :=
  let '(resolved, self) := get_resolved_config environ self true in
  (map fst resolved, self).

End Manager.

End ConfigManager.

(** ** Sequences of operations on a manager *)

(** The calls a client can make on a [ConfigManager].  A call that reads the
    process environment or the file system carries the snapshot it sees. *)
Inductive op : Type :=
| OpLoadFile (fs : file_system) (file_path : string)
| OpLoadDict (config_dict : dict)
| OpSetEnvironment (environment : env_arg)
| OpApplyEnvOverrides (environ : environ_t) (prefix : string)
| OpGet (environ : environ_t) (key_path : string) (default : pyval)
| OpSet (key_path : string) (value : pyval)
| OpHas (environ : environ_t) (key_path : string)
| OpDelete (key_path : string)
| OpUpdate (updates : dict)
| OpGetResolvedConfig (environ : environ_t) (use_cache : bool)
| OpValidate (environ : environ_t) (raise_on_error : bool)
| OpAddValidationRule (key_path : string) (rule : rule_arg)
| OpRemoveValidationRule (key_path : string) (rule_name : option string)
| OpToDict (environ : environ_t) (resolved : bool)
| OpReload (fs : file_system)
| OpClear.

(** The manager after a call that either returns the updated manager or
    raises before it has changed anything. *)
Definition after {A : Type} (proj : A -> ConfigManager.t) (r : res A)
  (self : ConfigManager.t) : ConfigManager.t :=
  match r with
  | Ok a => proj a
  | Raise _ => self
  end.

(** The manager after one call, whether it returned or raised. *)
Definition run (py_str : pyval -> string) (o : op) (self : ConfigManager.t)
  : ConfigManager.t :=
  match o with
  | OpLoadFile fs file_path =>
      after id (ConfigManager.load_file fs self file_path) self
  | OpLoadDict config_dict => ConfigManager.load_dict self config_dict
  | OpSetEnvironment environment =>
      after id (ConfigManager.set_environment self environment) self
  | OpApplyEnvOverrides environ prefix =>
      after id (ConfigManager.apply_env_overrides environ self prefix) self
  | OpGet environ key_path default =>
      after snd (ConfigManager.get environ self key_path default) self
  | OpSet key_path value => after id (ConfigManager.set self key_path value) self
  | OpHas environ key_path =>
      after snd (ConfigManager.has environ self key_path) self
  | OpDelete key_path => after id (ConfigManager.delete self key_path) self
  | OpUpdate updates => after id (ConfigManager.update self updates) self
  | OpGetResolvedConfig environ use_cache =>
      snd (ConfigManager.get_resolved_config environ self use_cache)
  | OpValidate environ raise_on_error =>
      snd (ConfigManager.validate py_str environ self raise_on_error)
  | OpAddValidationRule key_path rule =>
      after id (ConfigManager.add_validation_rule self key_path rule) self
  | OpRemoveValidationRule key_path rule_name =>
      ConfigManager.remove_validation_rule self key_path rule_name
  | OpToDict environ resolved =>
      snd (ConfigManager.to_dict environ self resolved)
  | OpReload fs => snd (ConfigManager.reload fs self)
  | OpClear => ConfigManager.clear self
  end.

Definition run_all (py_str : pyval -> string) (ops : list op)
  (self : ConfigManager.t) : ConfigManager.t :=
  fold_left (fun self o => run py_str o self) ops self.

(** ** Values on a heap

    Python dictionaries and lists are mutable objects reached by reference.
    To state that a function leaves its arguments untouched and shares
    nothing with them, the same data is modelled on a heap of objects:
    scalars are immediate, a list or a dictionary is an address.  An
    address is a position in the heap; allocation appends. *)

Module Heap.

Definition addr : Type := nat.

Inductive hval : Type :=
| HNone
| HBool (b : bool)
| HInt (n : Z)
| HFloat (f : Py.pyfloat)
| HStr (s : string)
| HRef (a : addr).

Inductive obj : Type :=
| ODict (items : list (string * hval))
| OList (items : list hval).

Definition heap : Type := list obj.

(** The object at an address, if the address is in use. *)
Definition read (h : heap) (a : addr) : option obj := nth_error h a.

(** The items of a dictionary object against the items of a tree: same keys
    in the same order, values related by [R]. *)
Fixpoint items_rel (R : hval -> pyval -> Prop) (items : list (string * hval))
  (d : dict) {struct d} : Prop :=
  match d, items with
  | [], [] => True
  | (k', t) :: d', (k, x) :: items' => k = k' /\ R x t /\ items_rel R items' d'
  | _, _ => False
  end.

(** The same for the elements of a list. *)
Fixpoint elems_rel (R : hval -> pyval -> Prop) (items : list hval)
  (l : list pyval) {struct l} : Prop :=
  match l, items with
  | [], [] => True
  | t :: l', x :: items' => R x t /\ elems_rel R items' l'
  | _, _ => False
  end.

(** [reprs ok h v t]: in the heap [h] the value [v] represents the tree [t],
    and every object met on the way has an address accepted by [ok]. *)
Fixpoint reprs (ok : addr -> Prop) (h : heap) (v : hval) (t : pyval)
  {struct t} : Prop :=
  match t with
  | VNone => v = HNone
  | VBool b => v = HBool b
  | VInt n => v = HInt n
  | VFloat f => v = HFloat f
  | VStr s => v = HStr s
  | VList l =>
      exists a items,
        v = HRef a /\ ok a /\ read h a = Some (OList items)
        /\ elems_rel (reprs ok h) items l
  | VDict d =>
      exists a items,
        v = HRef a /\ ok a /\ read h a = Some (ODict items)
        /\ items_rel (reprs ok h) items d
  end.


(** [h[a] = o] for an address in use *)
Fixpoint write (h : heap) (a : addr) (o : obj) : heap :=
  match h, a with
  | [], _ => []
  | _ :: h', O => o :: h'
  | x :: h', S a' => x :: write h' a' o
  end.

(** A new object, placed after those in use. *)
Definition alloc (h : heap) (o : obj) : heap * addr :=
  (h ++ [o], List.length h).

(** [isinstance(v, dict)] *)
Definition is_dict_at (h : heap) (v : hval) : bool :=
  match v with
  | HRef a =>
      match read h a with
      | Some (ODict _) => true
      | _ => false
      end
  | _ => false
  end.

Section Copy.

Variable copy : heap -> hval -> option (heap * hval).

Fixpoint copy_elems (h : heap) (l : list hval) : option (heap * list hval) :=
  match l with
  | [] => Some (h, [])
  | x :: l' =>
      match copy h x with
      | Some (h1, x') =>
          match copy_elems h1 l' with
          | Some (h2, l'') => Some (h2, x' :: l'')
          | None => None
          end
      | None => None
      end
  end.

Fixpoint copy_items (h : heap) (items : list (string * hval))
  : option (heap * list (string * hval)) :=
  match items with
  | [] => Some (h, [])
  | (k, x) :: items' =>
      match copy h x with
      | Some (h1, x') =>
          match copy_items h1 items' with
          | Some (h2, items'') => Some (h2, (k, x') :: items'')
          | None => None
          end
      | None => None
      end
  end.

End Copy.

(** [copy.deepcopy(v)] on data without cycles: scalars are themselves, a
    list or a dictionary is rebuilt from copies of its contents.  [fuel]
    bounds the depth of the recursion; [None] stands for running out of it
    or for following an address not in use. *)
Fixpoint deepcopy (fuel : nat) (h : heap) (v : hval) : option (heap * hval) :=
  match v with
  | HRef a =>
      match fuel with
      | O => None
      | S fuel' =>
          match read h a with
          | Some (ODict items) =>
              match copy_items (deepcopy fuel') h items with
              | Some (h', items') =>
                  let '(h'', a') := alloc h' (ODict items') in
                  Some (h'', HRef a')
              | None => None
              end
          | Some (OList items) =>
              match copy_elems (deepcopy fuel') h items with
              | Some (h', items') =>
                  let '(h'', a') := alloc h' (OList items') in
                  Some (h'', HRef a')
              | None => None
              end
          | None => None
          end
      end
  | _ => Some (h, v)
  end.

Section MergeLoop.

Variable merge : heap -> addr -> addr -> option (heap * addr).
Variable copy : heap -> hval -> option (heap * hval).
Variable result : addr.

(** The value [deep_merge] stores at [key]: the merge of [result[key]] and
    [value] when both are dictionaries, a copy of [value] otherwise. *)
Definition new_value (h : heap) (ritems : list (string * hval))
  (key : string) (value : hval) : option (heap * hval) :=
  match dict_get key ritems with
  | Some cur =>
      if is_dict_at h cur && is_dict_at h value
      then
        match cur, value with
        | HRef rk, HRef vk =>
            match merge h rk vk with
            | Some (h', m) => Some (h', HRef m)
            | None => None
            end
        | _, _ => None
        end
      else copy h value
  | None => copy h value
  end.

(** The loop of [deep_merge] over the items of the overlay: each turn
    evaluates the new value, then assigns it in the dictionary at
    [result]. *)
Fixpoint merge_loop (h : heap) (items : list (string * hval)) : option heap :=
  match items with
  | [] => Some h
  | (key, value) :: rest =>
      match read h result with
      | Some (ODict ritems) =>
          match new_value h ritems key value with
          | Some (h', x) =>
              match read h' result with
              | Some (ODict ritems') =>
                  merge_loop (write h' result (ODict (dict_set key x ritems')))
                    rest
              | _ => None
              end
          | None => None
          end
      | _ => None
      end
  end.

End MergeLoop.

(** [deep_merge(base, overlay)] on the heap: the heap after the call and the
    address of the returned dictionary. *)
Fixpoint deep_merge (fuel : nat) (h : heap) (base overlay : addr)
  : option (heap * addr) :=
  match fuel with
  | O => None
  | S fuel' =>
      match deepcopy fuel' h (HRef base), read h overlay with
      | Some (h1, HRef result), Some (ODict oitems) =>
          match merge_loop (deep_merge fuel') (deepcopy fuel') result h1 oitems with
          | Some h2 => Some (h2, result)
          | None => None
          end
      | _, _ => None
      end
  end.

(** The loop of [set_nested_value] on the heap, from the dictionary at
    [current_data] on: a key that is missing or does not hold a dictionary
    gets a new empty dictionary, the last key gets [value], each by
    assignment in the dictionary object itself.  [None] stands for an
    address that is not in use or does not hold a dictionary. *)
Fixpoint set_walk (h : heap) (current_data : addr) (keys : list string)
  (value : hval) : option heap :=
  match keys with
  | [] => Some h
  | [key] =>
      match read h current_data with
      | Some (ODict items) =>
          Some (write h current_data (ODict (dict_set key value items)))
      | _ => None
      end
  | key :: rest =>
      match read h current_data with
      | Some (ODict items) =>
          match dict_get key items with
          | Some (HRef child) =>
              if is_dict_at h (HRef child)
              then set_walk h child rest value
              else
                let '(h1, child') := alloc h (ODict []) in
                set_walk
                  (write h1 current_data
                     (ODict (dict_set key (HRef child') items)))
                  child' rest value
          | _ =>
              let '(h1, child') := alloc h (ODict []) in
              set_walk
                (write h1 current_data
                   (ODict (dict_set key (HRef child') items)))
                child' rest value
          end
      | _ => None
      end
  end.

(** [set_nested_value(data, key_path, value, separator)] on the heap: the
    heap after the call. *)
Definition set_nested_value (h : heap) (data : addr) (key_path : string)
  (value : hval) (separator : string) : res (option heap) :=
  keys <- Py.split key_path separator ;;
  Ok (set_walk h data keys value).

End Heap.

(** ** Checks of the embedding against the repository's tests and examples *)

Example test_merge_nested_dicts :
  deep_merge
    [("db", VDict [("host", VStr "localhost"); ("port", VInt 5432)])]
    [("db", VDict [("host", VStr "remote"); ("ssl", VBool true)])]
  = [("db", VDict [("host", VStr "remote"); ("port", VInt 5432);
                   ("ssl", VBool true)])].
Proof. reflexivity. Qed.

Example test_merge_replace_non_dict_values :
  deep_merge [("key", VList [VInt 1; VInt 2; VInt 3])]
    [("key", VList [VInt 4; VInt 5])]
  = [("key", VList [VInt 4; VInt 5])].
Proof. reflexivity. Qed.

Example test_merge_dict_over_non_dict :
  deep_merge [("key", VStr "string_value")]
    [("key", VDict [("nested", VStr "dict")])]
  = [("key", VDict [("nested", VStr "dict")])].
Proof. reflexivity. Qed.

Example test_set_existing_nested :
  set_nested_value
    [("app", VDict [("name", VStr "MyApp");
                    ("database", VDict [("port", VInt 5432)])])]
    "app.database.host" (VStr "localhost") "."
  = Ok [("app", VDict [("name", VStr "MyApp");
                       ("database", VDict [("port", VInt 5432);
                                           ("host", VStr "localhost")])])].
Proof. reflexivity. Qed.

Example test_set_override_non_dict :
  set_nested_value [("app", VStr "string_value")] "app.database.host"
    (VStr "localhost") "."
  = Ok [("app", VDict [("database", VDict [("host", VStr "localhost")])])].
Proof. reflexivity. Qed.

Example test_get_custom_separator :
  get_nested_value [("app", VDict [("db", VDict [("host", VStr "localhost")])])]
    "app/db/host" VNone "/"
  = Ok (VStr "localhost").
Proof. reflexivity. Qed.

Example test_get_intermediate_not_dict :
  get_nested_value [("app", VStr "string_value")] "app.database.host"
    (VStr "default") "."
  = Ok (VStr "default").
Proof. reflexivity. Qed.

Example flatten_docstring :
  flatten_dict
    [("database", VDict [("host", VStr "localhost");
                         ("credentials", VDict [("user", VStr "admin")])])]
    "." ""
  = [("database.host", VStr "localhost");
     ("database.credentials.user", VStr "admin")].
Proof. reflexivity. Qed.

Example test_environment_aliases :
  from_string "Dev" = Ok DEVELOPMENT
  /\ from_string "pre-production" = Ok STAGING
  /\ from_string "  development  " = Ok DEVELOPMENT
  /\ from_string "PROD" = Ok PRODUCTION
  /\ from_string "ci" = Ok TESTING
  /\ from_string "qa" = Raise (ValueError "Unknown environment: qa").
Proof. repeat split; reflexivity. Qed.

Example test_get_env_overrides_type_conversion :
  EnvironmentManager.compute_overrides
    [("CONFIG_BOOL_TRUE_2", "True"); ("CONFIG_BOOL_FALSE_6", "disabled");
     ("CONFIG_INT_VALUE", "42"); ("CONFIG_FLOAT_VALUE", "3.14");
     ("CONFIG_SCIENTIFIC", "1.5e10"); ("CONFIG_STRING_VALUE", "hello world");
     ("CONFIG_EMPTY_VALUE", ""); ("HOME", "/root")] "CONFIG_"
  = Ok [("bool", VDict [("true", VDict [("2", VBool true)]);
                        ("false", VDict [("6", VBool false)])]);
        ("int", VDict [("value", VInt 42)]);
        ("float", VDict [("value", VFloat (Py.FFin false 7070651414971679 (-51)))]);
        ("scientific", VFloat (Py.FFin false 7864320000000000 (-19)));
        ("string", VDict [("value", VStr "hello world")]);
        ("empty", VDict [("value", VStr "")])].
Proof. reflexivity. Qed.

(** Scenario 1 of the specification. *)
Example scenario_sequential_loads :
  let self :=
    ConfigManager.load_dict
      (ConfigManager.load_dict
         (ConfigManager.mk [] (EnvironmentManager.init "APP_ENV")
            (ConfigValidator.mk [] []) [] None)
         [("database", VDict [("host", VStr "first"); ("port", VInt 5432);
                              ("ssl", VBool false)])])
      [("database", VDict [("host", VStr "second"); ("ssl", VBool true)])] in
  option_map fst
    (match ConfigManager.get [] self "database.host" VNone with
     | Ok r => Some r
     | Raise _ => None
     end) = Some (VStr "second")
  /\ get_nested_value (ConfigManager.config_data self) "database.ssl" VNone "."
     = Ok (VBool true)
  /\ get_nested_value (ConfigManager.config_data self) "database.port" VNone "."
     = Ok (VInt 5432).
Proof. repeat split; reflexivity. Qed.

(** Scenario 2 of the specification. *)
Example scenario_environment_block :
  ConfigManager.resolve
    [("app", VDict [("debug", VBool false)]);
     ("development", VDict [("app", VDict [("debug", VBool true)])])]
    DEVELOPMENT
  = [("app", VDict [("debug", VBool true)])].
Proof. reflexivity. Qed.

(** [test_resolved_config_caching]: a [set] after a cached read shows in the
    next read. *)
Example test_resolved_config_caching :
  let self :=
    run_all (fun _ => "")
      [ OpLoadDict [("base", VStr "value");
                    ("production", VDict [("env", VStr "prod_value")])];
        OpSetEnvironment (EnvStr "production");
        OpGetResolvedConfig [] true;
        OpGetResolvedConfig [] true;
        OpSet "new_key" (VStr "new_value") ]
      (ConfigManager.mk [] (EnvironmentManager.init "APP_ENV")
         (ConfigValidator.mk [] []) [] None) in
  fst (ConfigManager.get_resolved_config [] self true)
  = [("base", VStr "value"); ("new_key", VStr "new_value");
     ("env", VStr "prod_value")].
Proof. reflexivity. Qed.

(** * Properties *)

(** ** Dictionaries *)

Section DictFacts.

Context {V : Type}.
Implicit Types (d : list (string * V)) (k : string) (v : V).

Lemma str_in_In (x : string) (l : list string) :
  Py.str_in x l = true <-> In x l.
Proof.
  induction l as [|y l IH]; simpl.
  - split; [discriminate | tauto].
  - rewrite orb_true_iff, IH, String.eqb_eq. intuition congruence.
Qed.

Lemma nodup_keys_NoDup (l : list string) :
  nodup_keys l = true <-> NoDup l.
Proof.
  induction l as [|x l IH]; simpl.
  - split; [constructor | reflexivity].
  - rewrite andb_true_iff, negb_true_iff, IH. split.
    + intros [Hx Hl]. constructor; [|assumption].
      intro Hin. apply str_in_In in Hin. congruence.
    + intro H. inversion H; subst. split; [|assumption].
      destruct (Py.str_in x l) eqn:E; [|reflexivity].
      apply str_in_In in E. contradiction.
Qed.

Lemma dict_get_None_keys d k :
  dict_get k d = None <-> ~ In k (map fst d).
Proof.
  induction d as [|[k' v'] d IH]; simpl.
  - tauto.
  - destruct (String.eqb_spec k k') as [->|Hne].
    + split; [discriminate | intuition].
    + rewrite IH. intuition congruence.
Qed.

Lemma dict_has_keys d k :
  dict_has k d = true <-> In k (map fst d).
Proof.
  unfold dict_has. destruct (dict_get k d) eqn:E.
  - split; [|reflexivity]. intros _.
    destruct (in_dec string_dec k (map fst d)) as [H|H]; [assumption|].
    apply dict_get_None_keys in H. congruence.
  - split; [discriminate|]. intro H.
    apply dict_get_None_keys in E. contradiction.
Qed.

Lemma dict_get_In d k v :
  dict_get k d = Some v -> In (k, v) d.
Proof.
  induction d as [|[k' v'] d IH]; simpl; [discriminate|].
  destruct (String.eqb_spec k k') as [->|Hne].
  - intros [= ->]. now left.
  - intro H. right. auto.
Qed.

Lemma In_dict_get d k v :
  NoDup (map fst d) -> In (k, v) d -> dict_get k d = Some v.
Proof.
  induction d as [|[k' v'] d IH]; simpl; [tauto|].
  intros Hnd [Heq|Hin]; inversion Hnd; subst.
  - injection Heq as -> ->. now rewrite String.eqb_refl.
  - destruct (String.eqb_spec k k') as [->|Hne]; [|auto].
    exfalso. apply H1. change k' with (fst (k', v)). now apply in_map.
Qed.

Lemma dict_get_set_same d k v :
  dict_get k (dict_set k v d) = Some v.
Proof.
  induction d as [|[k' v'] d IH]; simpl.
  - now rewrite String.eqb_refl.
  - destruct (String.eqb_spec k k') as [->|Hne]; simpl.
    + now rewrite String.eqb_refl.
    + destruct (String.eqb_spec k k'); [contradiction | exact IH].
Qed.

Lemma dict_get_set_other d k k' v :
  k' <> k -> dict_get k' (dict_set k v d) = dict_get k' d.
Proof.
  intro Hne. induction d as [|[k0 v0] d IH]; simpl.
  - destruct (String.eqb_spec k' k); [contradiction | reflexivity].
  - destruct (String.eqb_spec k k0) as [->|Hk]; simpl.
    + destruct (String.eqb_spec k' k0); [contradiction | reflexivity].
    + now rewrite IH.
Qed.

Lemma dict_get_set d k k' v :
  dict_get k' (dict_set k v d) = if String.eqb k' k then Some v else dict_get k' d.
Proof.
  destruct (String.eqb_spec k' k) as [->|Hne].
  - apply dict_get_set_same.
  - now apply dict_get_set_other.
Qed.

Lemma dict_has_set d k k' v :
  dict_has k' (dict_set k v d) = String.eqb k' k || dict_has k' d.
Proof.
  unfold dict_has. rewrite dict_get_set.
  now destruct (String.eqb k' k).
Qed.

Lemma dict_set_fresh d k v :
  dict_get k d = None -> dict_set k v d = d ++ [(k, v)].
Proof.
  induction d as [|[k' v'] d IH]; simpl; [reflexivity|].
  destruct (String.eqb k k'); [discriminate|].
  intro H. now rewrite IH.
Qed.

Lemma dict_set_set d k v v' :
  dict_set k v (dict_set k v' d) = dict_set k v d.
Proof.
  induction d as [|[k0 v0] d IH]; simpl.
  - now rewrite String.eqb_refl.
  - destruct (String.eqb_spec k k0) as [->|Hne]; simpl.
    + now rewrite String.eqb_refl.
    + destruct (String.eqb_spec k k0); [contradiction|]. now rewrite IH.
Qed.

Lemma dict_set_keys d k v :
  map fst (dict_set k v d)
  = if dict_has k d then map fst d else map fst d ++ [k].
Proof.
  unfold dict_has.
  induction d as [|[k0 v0] d IH]; simpl; [reflexivity|].
  destruct (String.eqb k k0); simpl; [reflexivity|].
  rewrite IH. now destruct (dict_get k d).
Qed.

Lemma dict_get_del_same d k :
  NoDup (map fst d) -> dict_get k (dict_del k d) = None.
Proof.
  induction d as [|[k0 v0] d IH]; simpl; [reflexivity|].
  intro Hnd. inversion Hnd; subst.
  destruct (String.eqb_spec k k0) as [->|Hne]; simpl.
  - now apply dict_get_None_keys.
  - destruct (String.eqb_spec k k0); [contradiction | auto].
Qed.

Lemma dict_get_del_other d k k' :
  k' <> k -> dict_get k' (dict_del k d) = dict_get k' d.
Proof.
  intro Hne. induction d as [|[k0 v0] d IH]; simpl; [reflexivity|].
  destruct (String.eqb_spec k k0) as [->|Hk]; simpl.
  - destruct (String.eqb_spec k' k0); [contradiction | reflexivity].
  - now rewrite IH.
Qed.

Lemma dict_del_absent d k :
  dict_get k d = None -> dict_del k d = d.
Proof.
  induction d as [|[k0 v0] d IH]; simpl; [reflexivity|].
  destruct (String.eqb k k0); [discriminate|].
  intro H. now rewrite IH.
Qed.

End DictFacts.

(** Nested induction over values: the dictionary case gives the property for
    every stored value. *)
Section ValueInduction.

Variable P : pyval -> Prop.
Hypothesis P_none : P VNone.
Hypothesis P_bool : forall b, P (VBool b).
Hypothesis P_int : forall n, P (VInt n).
Hypothesis P_float : forall f, P (VFloat f).
Hypothesis P_str : forall s, P (VStr s).
Hypothesis P_list : forall l, P (VList l).
Hypothesis P_dict : forall d, Forall (fun kv => P (snd kv)) d -> P (VDict d).

Fixpoint pyval_dict_ind (v : pyval) : P v :=
  match v with
  | VNone => P_none
  | VBool b => P_bool b
  | VInt n => P_int n
  | VFloat f => P_float f
  | VStr s => P_str s
  | VList l => P_list l
  | VDict d =>
      P_dict d
        ((fix all (items : dict) : Forall (fun kv => P (snd kv)) items :=
            match items with
            | [] => Forall_nil _
            | kv :: rest => Forall_cons kv (pyval_dict_ind (snd kv)) (all rest)
            end) d)
  end.

End ValueInduction.

(** Induction over values with the property available for the elements of a
    list and for the values of a dictionary. *)
Section ValueFullInduction.

Variable P : pyval -> Prop.
Hypothesis P_none : P VNone.
Hypothesis P_bool : forall b, P (VBool b).
Hypothesis P_int : forall n, P (VInt n).
Hypothesis P_float : forall f, P (VFloat f).
Hypothesis P_str : forall s, P (VStr s).
Hypothesis P_list : forall l, Forall P l -> P (VList l).
Hypothesis P_dict : forall d, Forall (fun kv => P (snd kv)) d -> P (VDict d).

Fixpoint pyval_full_ind (v : pyval) : P v :=
  match v with
  | VNone => P_none
  | VBool b => P_bool b
  | VInt n => P_int n
  | VFloat f => P_float f
  | VStr s => P_str s
  | VList l =>
      P_list l
        ((fix all (items : list pyval) : Forall P items :=
            match items with
            | [] => Forall_nil _
            | x :: rest => Forall_cons x (pyval_full_ind x) (all rest)
            end) l)
  | VDict d =>
      P_dict d
        ((fix all (items : dict) : Forall (fun kv => P (snd kv)) items :=
            match items with
            | [] => Forall_nil _
            | kv :: rest => Forall_cons kv (pyval_full_ind (snd kv)) (all rest)
            end) d)
  end.

End ValueFullInduction.

(** The equations of the functions defined through values. *)
Lemma merge_value_dict (rd vd : dict) :
  merge_value (VDict rd) (VDict vd) = VDict (deep_merge rd vd).
Proof.
  unfold deep_merge. simpl. f_equal.
  revert rd. induction vd as [|[k v] vd IH]; intro rd; simpl; [reflexivity|].
  apply IH.
Qed.

Lemma merge_value_other (cur value : pyval) :
  is_dict cur && is_dict value = false -> merge_value cur value = value.
Proof.
  destruct cur, value; simpl; try reflexivity; discriminate.
Qed.

Lemma deep_merge_nil (base : dict) : deep_merge base [] = base.
Proof. reflexivity. Qed.

Lemma deep_merge_cons (base overlay : dict) (kv : string * pyval) :
  deep_merge base (kv :: overlay) = deep_merge (merge_item base kv) overlay.
Proof. reflexivity. Qed.

(** ** deep_merge *)

Lemma merge_item_get (result : dict) (key k : string) (value : pyval) :
  dict_get k (merge_item result (key, value))
  = if String.eqb k key
    then Some (match dict_get key result with
               | Some cur => merge_value cur value
               | None => value
               end)
    else dict_get k result.
Proof. unfold merge_item. apply dict_get_set. Qed.

Lemma deep_merge_has (base overlay : dict) (k : string) :
  dict_has k (deep_merge base overlay) = dict_has k base || dict_has k overlay.
Proof.
  revert base. induction overlay as [|[k0 v0] overlay IH]; intro base.
  - simpl. now rewrite orb_false_r.
  - rewrite deep_merge_cons, IH. unfold merge_item. rewrite dict_has_set.
    unfold dict_has. simpl.
    destruct (String.eqb k k0); simpl.
    + now rewrite orb_true_r.
    + now destruct (dict_get k base), (dict_get k overlay).
Qed.

Lemma deep_merge_get (base overlay : dict) (k : string) :
  NoDup (map fst overlay) ->
  dict_get k (deep_merge base overlay)
  = match dict_get k overlay with
    | Some value =>
        Some (match dict_get k base with
              | Some cur => merge_value cur value
              | None => value
              end)
    | None => dict_get k base
    end.
Proof.
  revert base. induction overlay as [|[k0 v0] overlay IH]; intros base Hnd.
  - reflexivity.
  - inversion Hnd as [|? ? Hnotin Hnd']; subst.
    rewrite deep_merge_cons, (IH _ Hnd'), merge_item_get. simpl.
    destruct (String.eqb_spec k k0) as [->|Hne]; [|reflexivity].
    apply dict_get_None_keys in Hnotin. now rewrite Hnotin.
Qed.

Lemma deep_merge_disjoint (base overlay : dict) :
  NoDup (map fst base ++ map fst overlay) ->
  deep_merge base overlay = base ++ overlay.
Proof.
  revert base. induction overlay as [|[k0 v0] overlay IH]; intros base Hnd.
  - simpl. now rewrite app_nil_r.
  - rewrite deep_merge_cons. unfold merge_item.
    assert (Hfresh : dict_get k0 base = None).
    { apply dict_get_None_keys. intro Hin.
      apply NoDup_remove_2 in Hnd. apply Hnd, in_or_app. now left. }
    rewrite Hfresh, (dict_set_fresh _ _ _ Hfresh), IH.
    + now rewrite <- app_assoc.
    + rewrite map_app. simpl. rewrite <- app_assoc. exact Hnd.
Qed.

Lemma deep_merge_empty_base (overlay : dict) :
  NoDup (map fst overlay) -> deep_merge [] overlay = overlay.
Proof. intro H. now rewrite deep_merge_disjoint. Qed.

Lemma dict_set_NoDup {V : Type} (d : list (string * V)) (k : string) (v : V) :
  NoDup (map fst d) -> NoDup (map fst (dict_set k v d)).
Proof.
  intro Hnd. rewrite dict_set_keys.
  destruct (dict_has k d) eqn:E; [assumption|].
  apply NoDup_app; [assumption | repeat constructor; intros [] |].
  intros x Hx [<-|[]].
  apply dict_has_keys in Hx. congruence.
Qed.

Lemma deep_merge_NoDup (base overlay : dict) :
  NoDup (map fst base) -> NoDup (map fst (deep_merge base overlay)).
Proof.
  revert base. induction overlay as [|[k0 v0] overlay IH]; intros base Hnd.
  - exact Hnd.
  - rewrite deep_merge_cons. apply IH. now apply dict_set_NoDup.
Qed.

(** Well-formedness, unfolded one level. *)
Lemma wf_dict_unfold (d : dict) :
  wf_dict d = true
  <-> NoDup (map fst d) /\ Forall (fun kv => wf_value (snd kv) = true) d.
Proof.
  unfold wf_dict. simpl. rewrite andb_true_iff, nodup_keys_NoDup.
  apply and_iff_compat_l.
  induction d as [|[k v] d IH]; simpl.
  - split; [constructor | reflexivity].
  - rewrite andb_true_iff, IH. split.
    + intros [Hv Hd]. now constructor.
    + intro H. inversion H; subst. now split.
Qed.

Lemma dict_set_Forall {V : Type} (Q : string * V -> Prop)
  (d : list (string * V)) (k : string) (v : V) :
  (forall k', Q (k', v)) -> Forall Q d -> Forall Q (dict_set k v d).
Proof.
  intros Hv Hd. induction Hd as [|[k0 v0] d H0 Hd IH]; simpl.
  - constructor; [apply Hv | constructor].
  - destruct (String.eqb k k0); constructor; auto.
Qed.

(** Merging well-formed dictionaries gives a well-formed dictionary. *)
Lemma deep_merge_wf (overlay base : dict) :
  wf_dict base = true -> wf_dict overlay = true ->
  wf_dict (deep_merge base overlay) = true.
Proof.
  enough (H : forall value, wf_value value = true ->
                 forall cur, wf_value cur = true ->
                        wf_value (merge_value cur value) = true).
  { intros Hb Ho. specialize (H (VDict overlay) Ho (VDict base) Hb).
    now rewrite merge_value_dict in H. }
  induction value as [| | | | | |vd IH] using pyval_dict_ind;
    intros Hv cur Hc; try (destruct cur; exact Hv).
  destruct cur as [| | | | | |rd]; try exact Hv.
  rewrite merge_value_dict.
  apply wf_dict_unfold in Hv. destruct Hv as [_ Hvals].
  revert rd Hc. induction vd as [|[k v] vd IHvd]; intros rd Hc.
  - exact Hc.
  - pose proof (Forall_inv IH) as IHv. pose proof (Forall_inv_tail IH) as IHrest.
    pose proof (Forall_inv Hvals) as Hv.
    pose proof (Forall_inv_tail Hvals) as Hrest.
    simpl in IHv, Hv.
    rewrite deep_merge_cons. apply IHvd; try assumption.
    apply wf_dict_unfold in Hc. destruct Hc as [Hnd Hall].
    apply wf_dict_unfold. split; [now apply dict_set_NoDup|].
    unfold merge_item. apply dict_set_Forall; [|assumption].
    intros k'. simpl. destruct (dict_get k rd) as [cur|] eqn:E; [|assumption].
    apply IHv; [assumption|].
    apply dict_get_In in E.
    apply (proj1 (Forall_forall _ _) Hall) in E. exact E.
Qed.

(** ** Sample data for the concrete instances below *)

Definition sample_predicate : pyval -> res bool := fun _ => Ok true.

Definition sample_str (v : pyval) : string :=
  match v with
  | VNone => "None"
  | VBool true => "True"
  | VBool false => "False"
  | VStr s => s
  | _ => "<value>"
  end.

(** A manager as [ConfigManager()] builds it. *)
Definition fresh_manager : ConfigManager.t :=
  ConfigManager.init sample_predicate sample_predicate sample_predicate "APP_ENV".

(** ** Resolution of the active environment's block *)

Lemma resolve_cases (raw : dict) (e : Environment) :
  match dict_get (env_value e) raw with
  | None => ConfigManager.resolve raw e = raw
  | Some (VDict env_config) =>
      ConfigManager.resolve raw e
      = deep_merge (dict_del (env_value e) raw) env_config
  | Some _ => ConfigManager.resolve raw e = dict_del (env_value e) raw
  end.
Proof.
  unfold ConfigManager.resolve, dict_has.
  destruct (dict_get (env_value e) raw) as [[]|]; reflexivity.
Qed.

Lemma get_resolved_config_uncached (environ : environ_t)
  (self : ConfigManager.t) (use_cache : bool) :
  ConfigManager._resolved_cache self = None ->
  fst (ConfigManager.get_resolved_config environ self use_cache)
  = ConfigManager.resolve (ConfigManager.config_data self)
      (fst (EnvironmentManager.current_environment environ
              (ConfigManager.env_manager self))).
Proof.
  intro Hc. unfold ConfigManager.get_resolved_config. rewrite Hc.
  destruct (EnvironmentManager.current_environment environ
              (ConfigManager.env_manager self)) as [e m].
  now destruct use_cache.
Qed.

(** C1 as stated, for a value that is not a nested structure: the block of
    the active environment would stay in the resolved configuration. *)
Definition scalar_env_block_is_kept : Prop :=
  forall (environ : environ_t) (self : ConfigManager.t) (v : pyval),
    ConfigManager._resolved_cache self = None ->
    let e := fst (EnvironmentManager.current_environment environ
                    (ConfigManager.env_manager self)) in
    dict_get (env_value e) (ConfigManager.config_data self) = Some v ->
    is_dict v = false ->
    dict_get (env_value e)
      (fst (ConfigManager.get_resolved_config environ self true)) = Some v.

(** C1, counterexample: with the raw tree [{"development": 5, "a": 1}] and
    the default environment, the resolved configuration is [{"a": 1}]; the
    scalar stored under [development] is gone. *)
Lemma scalar_env_block_is_dropped : ~ scalar_env_block_is_kept.
Proof.
  intro H.
  specialize (H [] (ConfigManager.load_dict fresh_manager
                      [("development", VInt 5); ("a", VInt 1)])
                (VInt 5) eq_refl eq_refl eq_refl).
  vm_compute in H. discriminate H.
Qed.

(** C1, amended: read with an empty cache, [get_resolved_config] returns the
    raw tree's top level when the active environment's key is absent; when
    the key is present it is always removed, and its value is deep-merged
    over the remaining entries exactly when it is a nested structure.  A
    value that is not a nested structure is dropped with its key. *)
Theorem get_resolved_config_env_block (environ : environ_t)
  (self : ConfigManager.t) (use_cache : bool) :
  ConfigManager._resolved_cache self = None ->
  let e := fst (EnvironmentManager.current_environment environ
                  (ConfigManager.env_manager self)) in
  let raw := ConfigManager.config_data self in
  let resolved := fst (ConfigManager.get_resolved_config environ self use_cache) in
  (dict_get (env_value e) raw = None -> resolved = raw)
  /\ (forall env_config,
        dict_get (env_value e) raw = Some (VDict env_config) ->
        resolved = deep_merge (dict_del (env_value e) raw) env_config)
  /\ (forall v,
        dict_get (env_value e) raw = Some v -> is_dict v = false ->
        resolved = dict_del (env_value e) raw
        /\ (NoDup (map fst raw) -> dict_get (env_value e) resolved = None)).
Proof.
  intros Hc e raw resolved.
  assert (Hr : resolved = ConfigManager.resolve raw e)
    by (apply get_resolved_config_uncached; exact Hc).
  pose proof (resolve_cases raw e) as Hcases.
  repeat split.
  - intro Hnone. rewrite Hnone in Hcases. congruence.
  - intros env_config Hsome. rewrite Hsome in Hcases. congruence.
  - rewrite H in Hcases. destruct v; try discriminate; congruence.
  - intro Hnd. rewrite H in Hcases.
    assert (resolved = dict_del (env_value e) raw)
      by (destruct v; try discriminate; congruence).
    subst resolved. rewrite H1. now apply dict_get_del_same.
Qed.

Lemma get_resolved_config_env_block_witness :
  let self := ConfigManager.load_dict fresh_manager
                [("app", VDict [("debug", VBool false)]);
                 ("development", VDict [("app", VDict [("debug", VBool true)])])] in
  ConfigManager._resolved_cache self = None
  /\ fst (ConfigManager.get_resolved_config [] self true)
     = [("app", VDict [("debug", VBool true)])].
Proof.
  split; [reflexivity|].
  pose proof (get_resolved_config_env_block []
                (ConfigManager.load_dict fresh_manager
                   [("app", VDict [("debug", VBool false)]);
                    ("development",
                     VDict [("app", VDict [("debug", VBool true)])])])
                true eq_refl) as [_ [H _]].
  exact (H [("app", VDict [("debug", VBool true)])] eq_refl).
Defined.

(** ** Conversion of environment-variable values *)

(** [value] contains no [.] and no [e]/[E]. *)
Definition plain_digits_form (value : string) : bool :=
  negb (Py.contains_char "." value)
  && negb (Py.contains_char "e" value)
  && negb (Py.contains_char "E" value).

(** The precedence of C2 as stated: integer when the value parses as one and
    has no [.], [e] or [E]; otherwise float when it parses as one; otherwise
    the string. *)
Definition convert_as_stated (value : string) : pyval :=
  match value with
  | EmptyString => VStr ""
  | _ =>
      if Py.str_in (Py.lower value) EnvironmentManager.true_words then VBool true
      else if Py.str_in (Py.lower value) EnvironmentManager.false_words
      then VBool false
      else
        match Py.int value, plain_digits_form value with
        | Some n, true => VInt n
        | _, _ =>
            match Py.float value with
            | Some f => VFloat f
            | None => VStr value
            end
        end
  end.

(** The values on which the code leaves the stated precedence: no [.], no
    [e]/[E], not accepted by [int()], yet accepted by [float()]. *)
Definition float_word (value : string) : bool :=
  Py.nonempty value
  && negb (Py.str_in (Py.lower value) EnvironmentManager.true_words)
  && negb (Py.str_in (Py.lower value) EnvironmentManager.false_words)
  && plain_digits_form value
  && match Py.int value, Py.float value with
     | None, Some _ => true
     | _, _ => false
     end.

Lemma lower_char_e (c : ascii) :
  Ascii.eqb "e" (Py.lower_char c) = Ascii.eqb "e" c || Ascii.eqb "E" c.
Proof.
  destruct c as [[] [] [] [] [] [] [] []]; reflexivity.
Qed.

Lemma contains_e_lower (s : string) :
  Py.contains_char "e" (Py.lower s)
  = Py.contains_char "e" s || Py.contains_char "E" s.
Proof.
  induction s as [|c s IH]; [reflexivity|].
  cbn [Py.lower Py.contains_char]. rewrite IH, lower_char_e.
  destruct (Ascii.eqb "e" c), (Ascii.eqb "E" c),
    (Py.contains_char "e" s), (Py.contains_char "E" s); reflexivity.
Qed.

Lemma plain_digits_form_code (value : string) :
  negb (Py.contains_char "." value)
  && negb (Py.contains_char "e" (Py.lower value))
  = plain_digits_form value.
Proof.
  unfold plain_digits_form. rewrite contains_e_lower, negb_orb.
  now rewrite andb_assoc.
Qed.

(** The code's own precedence, with the test on [.] and [e] choosing the
    parser. *)
Lemma convert_env_value_cases (value : string) :
  EnvironmentManager._convert_env_value value
  = match value with
    | EmptyString => VStr ""
    | _ =>
        if Py.str_in (Py.lower value) EnvironmentManager.true_words
        then VBool true
        else if Py.str_in (Py.lower value) EnvironmentManager.false_words
        then VBool false
        else if plain_digits_form value
        then match Py.int value with
             | Some n => VInt n
             | None => VStr value
             end
        else match Py.float value with
             | Some f => VFloat f
             | None => VStr value
             end
    end.
Proof.
  destruct value as [|c s]; [reflexivity|].
  unfold EnvironmentManager._convert_env_value.
  rewrite plain_digits_form_code.
  destruct (Py.str_in _ EnvironmentManager.true_words); [reflexivity|].
  destruct (Py.str_in _ EnvironmentManager.false_words); [reflexivity|].
  destruct (plain_digits_form (String c s)).
  - now destruct (Py.int (String c s)).
  - now destruct (Py.float (String c s)).
Qed.

(** Environment variables outside the prefix do not contribute. *)
Lemma compute_overrides_filter (environ : environ_t) (prefix : string) :
  EnvironmentManager.compute_overrides environ prefix
  = EnvironmentManager.compute_overrides
      (filter (fun kv => Py.startswith (fst kv) prefix) environ) prefix.
Proof.
  unfold EnvironmentManager.compute_overrides.
  generalize (Ok (@nil (string * pyval))) as acc.
  induction environ as [|kv environ IH]; intro acc; [reflexivity|].
  cbn [filter fold_left].
  destruct (Py.startswith (fst kv) prefix) eqn:E; cbn [fold_left].
  - apply IH.
  - rewrite <- IH. f_equal.
    unfold EnvironmentManager.override_item. rewrite E.
    now destruct acc.
Qed.

(** C2 as stated, as an equation between the code and the stated
    precedence. *)
Definition conversion_follows_stated_precedence : Prop :=
  forall value : string,
    EnvironmentManager._convert_env_value value = convert_as_stated value.

(** C2, counterexample: [inf] has no [.] and no [e], is not an integer, and
    [float("inf")] succeeds; the code returns the string ["inf"], the stated
    precedence the float infinity. *)
Lemma inf_stays_a_string : ~ conversion_follows_stated_precedence.
Proof.
  intro H. specialize (H "inf"). vm_compute in H. discriminate H.
Qed.

(** Characters survive none of the steps of the numeric parsers unless they
    were in the string. *)
Lemma contains_lstrip (c : ascii) (s : string) :
  Py.contains_char c (Py.number_lstrip s) = true -> Py.contains_char c s = true.
Proof.
  induction s as [|d s IH]; simpl; [discriminate|].
  destruct (Py.is_number_space d); simpl; [|tauto].
  intro H. rewrite (IH H). apply orb_true_r.
Qed.

Lemma contains_rstrip (c : ascii) (s : string) :
  Py.contains_char c (Py.number_rstrip s) = true -> Py.contains_char c s = true.
Proof.
  induction s as [|d s IH]; simpl; [discriminate|].
  destruct (Py.number_rstrip s) as [|d' r] eqn:E.
  - destruct (Py.is_number_space d); simpl; [discriminate|].
    rewrite orb_false_r. intros ->. reflexivity.
  - simpl in *. destruct (Ascii.eqb c d); [reflexivity|]. exact IH.
Qed.

Lemma contains_strip (c : ascii) (s : string) :
  Py.contains_char c (Py.number_strip s) = true -> Py.contains_char c s = true.
Proof.
  intro H. now apply contains_lstrip, contains_rstrip.
Qed.

Lemma contains_drop_underscores (c : ascii) (s t : string) (prev : option ascii) :
  Py.drop_underscores prev s = Some t ->
  Py.contains_char c t = true -> Py.contains_char c s = true.
Proof.
  revert prev t. induction s as [|d s IH]; intros prev t.
  - simpl. destruct prev as [p|]; [destruct (Ascii.eqb_spec p "_")|].
    + subst p. discriminate.
    + destruct p as [[] [] [] [] [] [] [] []]; try congruence;
        intros [= <-]; discriminate.
    + intros [= <-]; discriminate.
  - cbn [Py.drop_underscores Py.contains_char].
    destruct (Ascii.eqb d "_").
    + destruct prev as [p|]; [|discriminate].
      destruct (Py.is_digit p); [|discriminate].
      intros H Hc. rewrite (IH _ _ H Hc). apply orb_true_r.
    + match goal with
      | |- (if ?ok then _ else _) = _ -> _ => destruct ok; [|discriminate]
      end.
      destruct (Py.drop_underscores (Some d) s) as [t'|] eqn:E; [|discriminate].
      simpl. intros [= <-]. simpl.
      destruct (Ascii.eqb c d); [reflexivity|]. apply (IH _ _ E).
Qed.

Lemma contains_split_sign (c : ascii) (t : string) :
  Py.contains_char c (snd (Py.split_sign t)) = true ->
  Py.contains_char c t = true.
Proof.
  destruct t as [|d t]; [discriminate|].
  unfold Py.split_sign.
  destruct (Ascii.eqb_spec d "-") as [->|Hm]; simpl.
  - intros ->. apply orb_true_r.
  - destruct (Ascii.eqb_spec d "+") as [->|Hp]; simpl.
    + intros ->. apply orb_true_r.
    + destruct d as [[] [] [] [] [] [] [] []]; simpl; try tauto; congruence.
Qed.

Lemma span_digits_shape (s : string) :
  let '(d, r) := Py.span_digits s in
  s = (d ++ r)%string /\ Py.all_digits d = true
  /\ match r with
     | EmptyString => True
     | String c _ => Py.is_digit c = false
     end.
Proof.
  induction s as [|c s IH]; simpl; [auto|].
  destruct (Py.is_digit c) eqn:E.
  - destruct (Py.span_digits s) as [d r]. destruct IH as (-> & Hd & Hr).
    simpl. rewrite E. auto.
  - simpl. auto.
Qed.

Lemma append_empty_r (s : string) : (s ++ "")%string = s.
Proof. induction s as [|c s IH]; simpl; [reflexivity | now rewrite IH]. Qed.

Lemma exponent_shape (r : string) (e : Z) :
  Py.exponent r = Some e ->
  match r with
  | EmptyString => True
  | String c _ => Ascii.eqb "e" c || Ascii.eqb "E" c = true
  end.
Proof.
  destruct r as [|c r]; [trivial|].
  unfold Py.exponent. rewrite Ascii.eqb_sym, lower_char_e.
  destruct (Ascii.eqb "e" c || Ascii.eqb "E" c); [reflexivity | discriminate].
Qed.

(** A string without [.], [e] and [E] that [float()] reads as a decimal is
    an integer literal: what [float()] accepts and [int()] does not, on such
    strings, are the words for infinity and not-a-number and the integer
    literals beyond the digit limit of [int()]. *)
Lemma float_word_is_inf_or_nan (value : string) (f : Py.pyfloat) :
  plain_digits_form value = true ->
  Py.int value = None ->
  Py.float value = Some f ->
  f = Py.FNan \/ (exists neg, f = Py.FInf neg)
  \/ Py.over_digit_limit value = true.
Proof.
  unfold plain_digits_form, Py.int, Py.float, Py.over_digit_limit,
    Py.int_literal, Py.float_literal.
  rewrite !andb_true_iff, !negb_true_iff. intros [[Hdot He] HE].
  destruct (Py.drop_underscores None (Py.number_strip value)) as [t|] eqn:Et;
    [|discriminate].
  assert (Hsub : forall c, Py.contains_char c (snd (Py.split_sign t)) = true ->
                      Py.contains_char c value = true).
  { intros c Hc. eapply contains_strip, contains_drop_underscores; [exact Et|].
    now apply contains_split_sign. }
  destruct (Py.split_sign t) as [neg body]. simpl in Hsub.
  destruct (String.eqb (Py.lower body) "inf" || String.eqb (Py.lower body) "infinity").
  { intros _ [= <-]. right. left. now exists neg. }
  destruct (String.eqb (Py.lower body) "nan").
  { intros _ [= <-]. now left. }
  pose proof (span_digits_shape body) as Hshape.
  destruct (Py.span_digits body) as [ip r1]. destruct Hshape as (Hbody & Hip & Hr1).
  assert (Hr1sub : forall c, Py.contains_char c r1 = true ->
                        Py.contains_char c value = true).
  { intros c Hc. apply Hsub. subst body. clear - Hc.
    induction ip as [|d ip IH]; simpl; [exact Hc|].
    rewrite IH. apply orb_true_r. }
  destruct r1 as [|c r1].
  - rewrite append_empty_r in Hbody. subst ip. rewrite Hip, append_empty_r.
    destruct (Py.nonempty body); cbn [andb].
    + intros Hint _. right. right.
      destruct (String.length body <=? Py.int_max_str_digits)%nat eqn:Elen;
        [discriminate|].
      apply Nat.leb_gt in Elen. now apply Nat.ltb_lt.
    + intros _ Hf. discriminate Hf.
  - intros _ Hf. exfalso.
    destruct (Ascii.eqb_spec c ".") as [->|Hnd].
    { specialize (Hr1sub "."%char). simpl in Hr1sub.
      rewrite Hdot in Hr1sub. now specialize (Hr1sub eq_refl). }
    assert (Hfp : match String c r1 with
                  | String "."%char r => Py.span_digits r
                  | _ => (EmptyString, String c r1)
                  end = (EmptyString, String c r1)).
    { destruct c as [[] [] [] [] [] [] [] []]; try reflexivity.
      now contradiction Hnd. }
    rewrite Hfp in Hf.
    destruct (Py.nonempty (ip ++ "")); [|discriminate].
    destruct (Py.exponent (String c r1)) as [e|] eqn:Ee; [|discriminate].
    apply exponent_shape in Ee. apply orb_true_iff in Ee.
    destruct Ee as [Ee|Ee]; apply Ascii.eqb_eq in Ee; subst c.
    + specialize (Hr1sub "e"%char eq_refl). congruence.
    + specialize (Hr1sub "E"%char eq_refl). congruence.
Qed.

Lemma float_word_cases (value : string) :
  float_word value = false ->
  EnvironmentManager._convert_env_value value = convert_as_stated value.
Proof.
  rewrite convert_env_value_cases. unfold float_word, convert_as_stated.
  destruct value as [|c s]; [reflexivity|].
  cbn [Py.nonempty andb].
  destruct (Py.str_in _ EnvironmentManager.true_words); [reflexivity|].
  destruct (Py.str_in _ EnvironmentManager.false_words); [reflexivity|].
  cbn [negb andb].
  destruct (plain_digits_form (String c s)) eqn:Ep; cbn [andb].
  - destruct (Py.int (String c s)); [reflexivity|].
    destruct (Py.float (String c s)); [discriminate | reflexivity].
  - now destruct (Py.int (String c s)).
Qed.

(** C2, amended: the empty string stays the empty string; the words for
    true and false (in any case) become booleans; after that the test on
    [.], [e] and [E] selects one parser: without them the value is the
    integer it parses as, or else the raw string; with one of them it is the
    float it parses as, or else the raw string.  The code agrees with the
    stated precedence except on what [float()] accepts without [.] or [e]
    and [int()] does not: the words for infinity and not-a-number, and the
    integer literals beyond the digit limit of [int()]; these stay strings.
    With prefix [CONFIG_], the variable [CONFIG_DATABASE_PORT=5432] alone
    gives the override tree [{"database": {"port": 5432}}], the port an
    integer. *)
Theorem convert_env_value_precedence :
  (forall value,
      EnvironmentManager._convert_env_value value
      = match value with
        | EmptyString => VStr ""
        | _ =>
            if Py.str_in (Py.lower value) EnvironmentManager.true_words
            then VBool true
            else if Py.str_in (Py.lower value) EnvironmentManager.false_words
            then VBool false
            else if plain_digits_form value
            then match Py.int value with
                 | Some n => VInt n
                 | None => VStr value
                 end
            else match Py.float value with
                 | Some f => VFloat f
                 | None => VStr value
                 end
        end)
  /\ (forall value,
        float_word value = false ->
        EnvironmentManager._convert_env_value value = convert_as_stated value)
  /\ (forall value,
        float_word value = true ->
        EnvironmentManager._convert_env_value value = VStr value
        /\ exists f, Py.float value = Some f
                     /\ (f = Py.FNan \/ (exists neg, f = Py.FInf neg)
                         \/ Py.over_digit_limit value = true))
  /\ (forall environ self,
        filter (fun kv => Py.startswith (fst kv) "CONFIG_") environ
        = [("CONFIG_DATABASE_PORT", "5432")] ->
        EnvironmentManager._env_overrides_cache self = None ->
        exists self',
          EnvironmentManager.get_env_overrides environ self "CONFIG_" true
          = Ok ([("database", VDict [("port", VInt 5432)])], self')).
Proof.
  split; [exact convert_env_value_cases|].
  split; [exact float_word_cases|].
  split.
  - intros value Hw. unfold float_word in Hw.
    rewrite !andb_true_iff, !negb_true_iff in Hw.
    destruct Hw as [[[[Hne Ht] Hf] Hp] Hparse].
    rewrite convert_env_value_cases.
    destruct value as [|c s]; [discriminate|].
    rewrite Ht, Hf, Hp.
    destruct (Py.int (String c s)) eqn:Ei; [discriminate|].
    split; [reflexivity|].
    destruct (Py.float (String c s)) as [f|] eqn:Ef; [|discriminate].
    exists f. split; [reflexivity|].
    now apply (float_word_is_inf_or_nan (String c s)).
  - intros environ self Hfilter Hcache.
    unfold EnvironmentManager.get_env_overrides.
    rewrite Hcache, compute_overrides_filter, Hfilter.
    eexists. reflexivity.
Qed.

Lemma convert_env_value_precedence_witness :
  EnvironmentManager._convert_env_value "nan" = VStr "nan"
  /\ EnvironmentManager._convert_env_value "1.5e10"
     = convert_as_stated "1.5e10"
  /\ exists self',
       EnvironmentManager.get_env_overrides
         [("PATH", "/usr/bin"); ("CONFIG_DATABASE_PORT", "5432")]
         (EnvironmentManager.init "APP_ENV") "CONFIG_" true
       = Ok ([("database", VDict [("port", VInt 5432)])], self').
Proof.
  destruct convert_env_value_precedence as (_ & Hstated & Hword & Hscenario).
  split; [exact (proj1 (Hword "nan" eq_refl))|].
  split; [exact (Hstated "1.5e10" eq_refl)|].
  exact (Hscenario [("PATH", "/usr/bin"); ("CONFIG_DATABASE_PORT", "5432")]
           (EnvironmentManager.init "APP_ENV") eq_refl eq_refl).
Defined.

(** ** Paths through a tree *)

(** The value a list of keys leads to, every step going through a nested
    structure that has the key. *)
Fixpoint path_value (current_data : pyval) (keys : list string) : option pyval :=
  match keys with
  | [] => Some current_data
  | key :: rest =>
      match current_data with
      | VDict d =>
          match dict_get key d with
          | Some x => path_value x rest
          | None => None
          end
      | _ => None
      end
  end.

Lemma split_nonempty_sep (s : string) (c : ascii) (sep : string) :
  Py.split s (String c sep) = Ok (Py.split_from (String c sep) 0 "" s).
Proof. reflexivity. Qed.

Lemma split_from_not_nil (sep : string) (skip : nat) (cur s : string) :
  Py.split_from sep skip cur s <> [].
Proof.
  revert skip cur. induction s as [|c s IH]; intros skip cur;
    cbn [Py.split_from].
  - discriminate.
  - destruct skip; [|apply IH].
    destruct (String.prefix sep (String c s)); [discriminate | apply IH].
Qed.

Lemma get_loop_path (default current_data : pyval) (keys : list string) :
  except_key_type (get_loop default current_data keys) (Ok default)
  = Ok match path_value current_data keys with
       | Some v => v
       | None => default
       end.
Proof.
  revert current_data. induction keys as [|key rest IH]; intro current_data.
  - reflexivity.
  - destruct current_data; try reflexivity.
    simpl. unfold dict_getitem.
    destruct (dict_get key d) as [x|]; [apply IH | reflexivity].
Qed.

Lemma has_loop_path (current_data : pyval) (keys : list string) :
  except_key_type (has_loop current_data keys) (Ok false)
  = Ok match path_value current_data keys with
       | Some _ => true
       | None => false
       end.
Proof.
  revert current_data. induction keys as [|key rest IH]; intro current_data.
  - reflexivity.
  - destruct current_data; try reflexivity.
    simpl. unfold dict_has, dict_getitem.
    destruct (dict_get key d) as [x|]; [apply IH | reflexivity].
Qed.

Lemma get_nested_value_path (data : dict) (key_path : string) (default : pyval)
  (c : ascii) (sep : string) :
  get_nested_value data key_path default (String c sep)
  = Ok match path_value (VDict data)
               (Py.split_from (String c sep) 0 "" key_path) with
       | Some v => v
       | None => default
       end.
Proof.
  unfold get_nested_value. rewrite split_nonempty_sep. apply get_loop_path.
Qed.

Lemma has_nested_key_path (data : dict) (key_path : string)
  (c : ascii) (sep : string) :
  has_nested_key data key_path (String c sep)
  = Ok match path_value (VDict data)
               (Py.split_from (String c sep) 0 "" key_path) with
       | Some _ => true
       | None => false
       end.
Proof.
  unfold has_nested_key. rewrite split_nonempty_sep. apply has_loop_path.
Qed.

Lemma set_nested_value_total (data : dict) (key_path : string) (value : pyval)
  (c : ascii) (sep : string) :
  set_nested_value data key_path value (String c sep)
  = Ok (set_path data (Py.split_from (String c sep) 0 "" key_path) value).
Proof. reflexivity. Qed.

(** ** The cache of environment-variable overrides *)

Lemma override_item_total (prefix : string) (overrides : dict)
  (kv : string * string) :
  exists overrides',
    EnvironmentManager.override_item prefix (Ok overrides) kv = Ok overrides'.
Proof.
  unfold EnvironmentManager.override_item. simpl.
  destruct (Py.startswith (fst kv) prefix); eexists; reflexivity.
Qed.

Lemma fold_override_item_total (prefix : string) (environ : environ_t)
  (acc : dict) :
  exists overrides,
    fold_left (EnvironmentManager.override_item prefix) environ (Ok acc)
    = Ok overrides.
Proof.
  revert acc. induction environ as [|kv environ IH]; intro acc;
    cbn [fold_left].
  - now exists acc.
  - destruct (override_item_total prefix acc kv) as [acc' ->]. apply IH.
Qed.

Lemma compute_overrides_total (environ : environ_t) (prefix : string) :
  exists overrides,
    EnvironmentManager.compute_overrides environ prefix = Ok overrides.
Proof. apply fold_override_item_total. Qed.

(** What [apply_env_overrides] does to the raw tree with given overrides. *)
Definition merged_if_any (config_data overrides : dict) : dict :=
  match overrides with
  | [] => config_data
  | _ => deep_merge config_data overrides
  end.

Lemma get_env_overrides_cached (environ : environ_t)
  (self : EnvironmentManager.t) (prefix : string) (cached : dict) :
  EnvironmentManager._env_overrides_cache self = Some cached ->
  EnvironmentManager.get_env_overrides environ self prefix true
  = Ok (cached, self).
Proof.
  intro H. unfold EnvironmentManager.get_env_overrides. now rewrite H.
Qed.

Lemma apply_env_overrides_data (environ : environ_t) (self : ConfigManager.t)
  (prefix : string) (overrides : dict) (m : EnvironmentManager.t) :
  EnvironmentManager.get_env_overrides environ (ConfigManager.env_manager self)
    prefix true = Ok (overrides, m) ->
  exists self',
    ConfigManager.apply_env_overrides environ self prefix = Ok self'
    /\ ConfigManager.env_manager self' = m
    /\ ConfigManager.config_data self'
       = merged_if_any (ConfigManager.config_data self) overrides.
Proof.
  intro H. unfold ConfigManager.apply_env_overrides. rewrite H. simpl.
  destruct overrides; eexists; repeat split; reflexivity.
Qed.

(** C9: once [get_env_overrides] has cached the overrides computed for one
    prefix, a call with any other prefix (and caching on) returns that
    cached result, whatever the environment then holds; so a second
    [apply_env_overrides], with another prefix, merges the overrides of the
    first prefix again. *)
Theorem override_cache_ignores_prefix (environ1 environ2 : environ_t)
  (self : ConfigManager.t) (prefix1 prefix2 : string) :
  EnvironmentManager._env_overrides_cache (ConfigManager.env_manager self)
  = None ->
  exists overrides1 m1 self1 self2,
    EnvironmentManager.compute_overrides environ1 prefix1 = Ok overrides1
    /\ EnvironmentManager.get_env_overrides environ1
         (ConfigManager.env_manager self) prefix1 true = Ok (overrides1, m1)
    /\ EnvironmentManager.get_env_overrides environ2 m1 prefix2 true
       = Ok (overrides1, m1)
    /\ ConfigManager.apply_env_overrides environ1 self prefix1 = Ok self1
    /\ ConfigManager.config_data self1
       = merged_if_any (ConfigManager.config_data self) overrides1
    /\ ConfigManager.apply_env_overrides environ2 self1 prefix2 = Ok self2
    /\ ConfigManager.config_data self2
       = merged_if_any (ConfigManager.config_data self1) overrides1.
Proof.
  intro Hcache.
  destruct (compute_overrides_total environ1 prefix1) as [overrides1 Hc].
  set (m := ConfigManager.env_manager self) in *.
  set (m1 := EnvironmentManager.mk (EnvironmentManager.env_var_name m)
               (EnvironmentManager._current_env m) (Some overrides1)).
  assert (H1 : EnvironmentManager.get_env_overrides environ1 m prefix1 true
               = Ok (overrides1, m1)).
  { unfold EnvironmentManager.get_env_overrides. now rewrite Hcache, Hc. }
  assert (H2 : EnvironmentManager.get_env_overrides environ2 m1 prefix2 true
               = Ok (overrides1, m1))
    by now apply get_env_overrides_cached.
  destruct (apply_env_overrides_data environ1 self prefix1 overrides1 m1 H1)
    as (self1 & Ha1 & Hm1 & Hd1).
  assert (H2' : EnvironmentManager.get_env_overrides environ2
                  (ConfigManager.env_manager self1) prefix2 true
                = Ok (overrides1, m1)) by now rewrite Hm1.
  destruct (apply_env_overrides_data environ2 self1 prefix2 overrides1 m1 H2')
    as (self2 & Ha2 & _ & Hd2).
  exists overrides1, m1, self1, self2. repeat split; assumption.
Qed.

Lemma override_cache_ignores_prefix_witness :
  exists self2,
    (r <- ConfigManager.apply_env_overrides
            [("CONFIG_HOST", "alpha"); ("OTHER_HOST", "beta")]
            fresh_manager "CONFIG_" ;;
     ConfigManager.apply_env_overrides
       [("CONFIG_HOST", "alpha"); ("OTHER_HOST", "beta")] r "OTHER_")
    = Ok self2
    /\ ConfigManager.config_data self2 = [("host", VStr "alpha")].
Proof.
  destruct (override_cache_ignores_prefix
              [("CONFIG_HOST", "alpha"); ("OTHER_HOST", "beta")]
              [("CONFIG_HOST", "alpha"); ("OTHER_HOST", "beta")]
              fresh_manager "CONFIG_" "OTHER_" eq_refl)
    as (overrides1 & m1 & self1 & self2 & Hc & _ & _ & Ha1 & Hd1 & Ha2 & Hd2).
  exists self2. rewrite Ha1. simpl. split; [exact Ha2|].
  rewrite Hd2, Hd1. injection Hc as <-. reflexivity.
Defined.

(** ** validate *)

Lemma get_nested_value_dot (data : dict) (key_path : string) (default : pyval) :
  get_nested_value data key_path default "."
  = Ok match path_value (VDict data) (Py.split_from "." 0 "" key_path) with
       | Some v => v
       | None => default
       end.
Proof. apply get_nested_value_path. Qed.

Section ValidateFacts.

Variable py_str : pyval -> string.

(** The message of a failing rule. *)
Definition rule_message (key_path : string) (value : pyval)
  (rule : ValidationRule) : string :=
  (key_path ++ ": " ++ error_message rule
     ++ " (value: " ++ py_str value ++ ")")%string.

(** The errors of one registry entry, by the rules of the specification: a
    null value gives one error when a rule is required and none otherwise, a
    present value one error per failing rule, in registration order. *)
Definition entry_errors (config_data : dict)
  (entry : string * list ValidationRule) : list string :=
  let '(key_path, rules) := entry in
  match path_value (VDict config_data) (Py.split_from "." 0 "" key_path) with
  | None | Some VNone =>
      if existsb required rules
      then [(key_path ++ ": Required key is missing")%string]
      else []
  | Some value =>
      map (rule_message key_path value)
        (filter (fun rule => negb (rule_validate rule value)) rules)
  end.

Lemma apply_rules_append (key_path : string) (value : pyval)
  (rules : list ValidationRule) (errors : list string) :
  ConfigValidator.apply_rules py_str key_path value rules errors
  = errors ++ map (rule_message key_path value)
                (filter (fun rule => negb (rule_validate rule value)) rules).
Proof.
  unfold ConfigValidator.apply_rules.
  revert errors. induction rules as [|rule rules IH]; intro errors; simpl.
  - now rewrite app_nil_r.
  - rewrite IH. destruct (negb (rule_validate rule value)); simpl.
    + now rewrite <- app_assoc.
    + reflexivity.
Qed.

Lemma filter_required_existsb (rules : list ValidationRule) :
  match filter required rules with
  | [] => existsb required rules = false
  | _ => existsb required rules = true
  end.
Proof.
  induction rules as [|rule rules IH]; simpl; [reflexivity|].
  destruct (required rule); simpl; [reflexivity | exact IH].
Qed.

Lemma validate_entry_append (config_data : dict) (errors : list string)
  (entry : string * list ValidationRule) :
  ConfigValidator.validate_entry py_str config_data (Ok errors) entry
  = Ok (errors ++ entry_errors config_data entry).
Proof.
  destruct entry as [key_path rules].
  unfold ConfigValidator.validate_entry, entry_errors.
  rewrite get_nested_value_dot. simpl.
  pose proof (filter_required_existsb rules) as Hreq.
  destruct (path_value (VDict config_data) (Py.split_from "." 0 "" key_path))
    as [value|].
  - destruct value; try (now rewrite apply_rules_append).
    destruct (filter required rules); rewrite Hreq;
      [now rewrite app_nil_r | reflexivity].
  - destruct (filter required rules); rewrite Hreq;
      [now rewrite app_nil_r | reflexivity].
Qed.

Lemma validate_fold (config_data : dict)
  (registry : list (string * list ValidationRule)) (errors : list string) :
  fold_left (ConfigValidator.validate_entry py_str config_data) registry
    (Ok errors)
  = Ok (errors ++ flat_map (entry_errors config_data) registry).
Proof.
  revert errors. induction registry as [|entry registry IH]; intro errors;
    cbn [fold_left flat_map].
  - now rewrite app_nil_r.
  - rewrite validate_entry_append, IH. now rewrite <- app_assoc.
Qed.

(** The outcome of [validate]: the errors of the entries in registry order,
    returned, or raised when asked to and there are some. *)
Lemma validate_outcome (self : ConfigValidator.t) (config_data : dict)
  (raise_on_error : bool) :
  ConfigValidator.validate py_str self config_data raise_on_error
  = let errors := flat_map (entry_errors config_data)
                    (ConfigValidator.rules self) in
    match raise_on_error, errors with
    | true, _ :: _ => Raise (ConfigValidationError errors)
    | _, _ => Ok errors
    end.
Proof.
  unfold ConfigValidator.validate. now rewrite validate_fold.
Qed.

End ValidateFacts.

Lemma get_nested_value_null (config_data : dict) (key_path : string) :
  get_nested_value config_data key_path VNone "." = Ok VNone ->
  match path_value (VDict config_data) (Py.split_from "." 0 "" key_path) with
  | None | Some VNone => True
  | Some _ => False
  end.
Proof.
  rewrite get_nested_value_dot.
  destruct (path_value _ _) as [[]|]; intro H; try exact I; discriminate H.
Qed.

(** C7: [validate] goes through the registry in order and collects the
    errors of each key path, the value being looked up with
    [get_nested_value] and default [None].  A key path whose value is null
    contributes exactly one error, [<path>: Required key is missing], when
    one of its rules is marked required, and no error otherwise.  In
    particular an absent key path registered with the [url] rule gives no
    error, and one registered with the [required] rule gives exactly that
    one error. *)
Theorem validate_missing_key (py_str : pyval -> string)
  (is_valid_url is_valid_port is_valid_email : pyval -> res bool) :
  (forall self config_data raise_on_error,
      ConfigValidator.validate py_str self config_data raise_on_error
      = let errors := flat_map (entry_errors py_str config_data)
                        (ConfigValidator.rules self) in
        match raise_on_error, errors with
        | true, _ :: _ => Raise (ConfigValidationError errors)
        | _, _ => Ok errors
        end)
  /\ (forall config_data key_path rules,
        get_nested_value config_data key_path VNone "." = Ok VNone ->
        entry_errors py_str config_data (key_path, rules)
        = if existsb required rules
          then [(key_path ++ ": Required key is missing")%string]
          else [])
  /\ (forall config_data key_path,
        get_nested_value config_data key_path VNone "." = Ok VNone ->
        (exists self,
            ConfigValidator.add_rule
              (ConfigValidator.init is_valid_url is_valid_port is_valid_email)
              key_path (RuleName "url") = Ok self
            /\ ConfigValidator.validate py_str self config_data false = Ok [])
        /\ (exists self,
               ConfigValidator.add_rule
                 (ConfigValidator.init is_valid_url is_valid_port is_valid_email)
                 key_path (RuleName "required") = Ok self
               /\ ConfigValidator.validate py_str self config_data false
                  = Ok [(key_path ++ ": Required key is missing")%string])).
Proof.
  assert (Hnull : forall config_data key_path rules,
             get_nested_value config_data key_path VNone "." = Ok VNone ->
             entry_errors py_str config_data (key_path, rules)
             = if existsb required rules
               then [(key_path ++ ": Required key is missing")%string]
               else []).
  { intros config_data key_path rules H. apply get_nested_value_null in H.
    unfold entry_errors.
    destruct (path_value _ _) as [[]|]; try contradiction; reflexivity. }
  split; [intros; apply validate_outcome|].
  split; [exact Hnull|].
  intros config_data key_path H. split.
  - eexists. split; [reflexivity|].
    rewrite validate_outcome. cbn -[entry_errors].
    rewrite (Hnull _ _ _ H). reflexivity.
  - eexists. split; [reflexivity|].
    rewrite validate_outcome. cbn -[entry_errors].
    rewrite (Hnull _ _ _ H). reflexivity.
Qed.

Lemma validate_missing_key_witness :
  exists self,
    ConfigValidator.add_rule
      (ConfigValidator.init sample_predicate sample_predicate sample_predicate)
      "api.token" (RuleName "required") = Ok self
    /\ ConfigValidator.validate sample_str self
         [("api", VDict [("url", VStr "http://h")])] false
       = Ok ["api.token: Required key is missing"].
Proof.
  destruct (validate_missing_key sample_str sample_predicate sample_predicate
              sample_predicate) as (_ & _ & H).
  exact (proj2 (H [("api", VDict [("url", VStr "http://h")])] "api.token"
                  eq_refl)).
Defined.

(** ** validate and the state of the manager *)

Lemma current_environment_memo (environ : environ_t)
  (self : EnvironmentManager.t) :
  let '(e, self') := EnvironmentManager.current_environment environ self in
  EnvironmentManager._current_env self' = Some e
  /\ EnvironmentManager.env_var_name self' = EnvironmentManager.env_var_name self
  /\ EnvironmentManager._env_overrides_cache self'
     = EnvironmentManager._env_overrides_cache self
  /\ (forall e0, EnvironmentManager._current_env self = Some e0 ->
                 e = e0 /\ self' = self).
Proof.
  unfold EnvironmentManager.current_environment.
  destruct (EnvironmentManager._current_env self) as [e0|] eqn:E.
  - repeat split; try assumption; congruence.
  - simpl. repeat split; discriminate.
Qed.

(** C10 as stated: the tree, the registry and the cache after [validate]
    are those before it. *)
Definition validate_keeps_cache : Prop :=
  forall (py_str : pyval -> string) (environ : environ_t)
         (self : ConfigManager.t) (raise_on_error : bool),
    let self' := snd (ConfigManager.validate py_str environ self raise_on_error) in
    ConfigManager.config_data self' = ConfigManager.config_data self
    /\ ConfigValidator.rules (ConfigManager.validator self')
       = ConfigValidator.rules (ConfigManager.validator self)
    /\ ConfigManager._resolved_cache self' = ConfigManager._resolved_cache self.

(** C10, counterexample: on a new manager the cache is empty before
    [validate] and holds the resolved configuration after it. *)
Lemma validate_fills_cache : ~ validate_keeps_cache.
Proof.
  intro H.
  destruct (H sample_str [] fresh_manager false) as (_ & _ & Hcache).
  vm_compute in Hcache. discriminate Hcache.
Qed.

(** C10, amended: whether [validate] returns its error list or raises the
    validation error, the configuration tree, the validator with its rule
    registry, and the list of loaded files are those before the call.  The
    resolved-config cache is unchanged when it held a result; when it was
    empty, [validate] fills it with the resolution of the current tree under
    the active environment, which is read (and memoized) for that. *)
Theorem validate_frame (py_str : pyval -> string) (environ : environ_t)
  (self : ConfigManager.t) (raise_on_error : bool) :
  let outcome := fst (ConfigManager.validate py_str environ self raise_on_error) in
  let self' := snd (ConfigManager.validate py_str environ self raise_on_error) in
  ConfigManager.config_data self' = ConfigManager.config_data self
  /\ ConfigManager.validator self' = ConfigManager.validator self
  /\ ConfigManager.loaded_files self' = ConfigManager.loaded_files self
  /\ ConfigManager.env_manager self'
     = match ConfigManager._resolved_cache self with
       | Some _ => ConfigManager.env_manager self
       | None =>
           snd (EnvironmentManager.current_environment environ
                  (ConfigManager.env_manager self))
       end
  /\ ConfigManager._resolved_cache self'
     = Some match ConfigManager._resolved_cache self with
            | Some cached => cached
            | None =>
                ConfigManager.resolve (ConfigManager.config_data self)
                  (fst (EnvironmentManager.current_environment environ
                          (ConfigManager.env_manager self)))
            end
  /\ exists errors,
       outcome = Ok errors
       \/ (raise_on_error = true /\ errors <> []
           /\ outcome = Raise (ConfigValidationError errors)).
Proof.
  unfold ConfigManager.validate, ConfigManager.get_resolved_config.
  destruct (ConfigManager._resolved_cache self) as [cached|] eqn:Ec.
  - cbn [fst snd]. repeat split; try assumption.
    rewrite validate_outcome. cbv zeta.
    destruct raise_on_error, (flat_map _ _) as [|err errs];
      eexists; try (left; reflexivity).
    right. repeat split. discriminate.
  - destruct (EnvironmentManager.current_environment environ
                (ConfigManager.env_manager self)) as [e m].
    cbn [fst snd ConfigManager.with_cache ConfigManager.with_env
           ConfigManager.config_data ConfigManager.validator
           ConfigManager.loaded_files ConfigManager._resolved_cache].
    repeat split.
    rewrite validate_outcome. cbv zeta.
    destruct raise_on_error, (flat_map _ _) as [|err errs];
      eexists; try (left; reflexivity).
    right. repeat split. discriminate.
Qed.

(** ** Coherence of the resolved-config cache *)

(** The invariant of the cache: what it holds is the resolution of the
    current raw tree under the current (memoized) environment. *)
Definition coherent (self : ConfigManager.t) : Prop :=
  forall cached,
    ConfigManager._resolved_cache self = Some cached ->
    exists e,
      EnvironmentManager._current_env (ConfigManager.env_manager self) = Some e
      /\ cached = ConfigManager.resolve (ConfigManager.config_data self) e.

Lemma coherent_empty_cache (self : ConfigManager.t) :
  ConfigManager._resolved_cache self = None -> coherent self.
Proof. intros H cached Hc. congruence. Qed.

Lemma coherent_frame (self self' : ConfigManager.t) :
  ConfigManager.config_data self' = ConfigManager.config_data self ->
  ConfigManager._resolved_cache self' = ConfigManager._resolved_cache self ->
  (forall e,
      EnvironmentManager._current_env (ConfigManager.env_manager self) = Some e ->
      EnvironmentManager._current_env (ConfigManager.env_manager self') = Some e) ->
  coherent self -> coherent self'.
Proof.
  intros Hd Hc He Hcoh cached Hcached.
  rewrite Hc in Hcached. destruct (Hcoh cached Hcached) as (e & Hcur & Hres).
  exists e. split; [now apply He | now rewrite Hd].
Qed.

Lemma coherent_with_env_memo (environ : environ_t) (self : ConfigManager.t) :
  coherent self ->
  coherent (ConfigManager.with_env self
              (snd (EnvironmentManager.current_environment environ
                      (ConfigManager.env_manager self)))).
Proof.
  apply coherent_frame; try reflexivity.
  intros e He. simpl.
  pose proof (current_environment_memo environ (ConfigManager.env_manager self))
    as Hm.
  destruct (EnvironmentManager.current_environment environ _) as [e' m].
  destruct Hm as (_ & _ & _ & Hsame).
  destruct (Hsame e He) as [_ ->]. exact He.
Qed.

Lemma get_resolved_config_coherent (environ : environ_t)
  (self : ConfigManager.t) (use_cache : bool) :
  coherent self ->
  coherent (snd (ConfigManager.get_resolved_config environ self use_cache)).
Proof.
  intro Hcoh. unfold ConfigManager.get_resolved_config.
  pose proof (coherent_with_env_memo environ self Hcoh) as Hmemo.
  pose proof (current_environment_memo environ (ConfigManager.env_manager self))
    as Hm.
  destruct (EnvironmentManager.current_environment environ _) as [e m].
  destruct Hm as (Hcur & _).
  assert (Hfill : coherent
                    (ConfigManager.with_cache (ConfigManager.with_env self m)
                       (Some (ConfigManager.resolve
                                (ConfigManager.config_data
                                   (ConfigManager.with_env self m)) e)))).
  { intros cached [= <-]. exists e. split; [exact Hcur | reflexivity]. }
  destruct use_cache;
    [destruct (ConfigManager._resolved_cache self) eqn:Ec|]; simpl;
    assumption.
Qed.

Lemma get_resolved_config_reads_resolution (environ : environ_t)
  (self : ConfigManager.t) :
  coherent self ->
  fst (ConfigManager.get_resolved_config environ self true)
  = ConfigManager.resolve (ConfigManager.config_data self)
      (fst (EnvironmentManager.current_environment environ
              (ConfigManager.env_manager self))).
Proof.
  intro Hcoh.
  destruct (ConfigManager._resolved_cache self) as [cached|] eqn:Ec;
    [|now apply get_resolved_config_uncached].
  unfold ConfigManager.get_resolved_config. rewrite Ec. simpl.
  destruct (Hcoh cached Ec) as (e & Hcur & ->).
  unfold EnvironmentManager.current_environment. now rewrite Hcur.
Qed.

Lemma update_cache (updates : dict) (self : ConfigManager.t) :
  exists self',
    ConfigManager.update self updates = Ok self'
    /\ (self' = self \/ ConfigManager._resolved_cache self' = None).
Proof.
  unfold ConfigManager.update.
  assert (H : forall s,
             s = self \/ ConfigManager._resolved_cache s = None ->
             exists self',
               fold_left
                 (fun acc kv => self0 <- acc ;;
                                ConfigManager.set self0 (fst kv) (snd kv))
                 updates (Ok s) = Ok self'
               /\ (self' = self \/ ConfigManager._resolved_cache self' = None)).
  { induction updates as [|kv updates IH]; intros s Hs; cbn [fold_left].
    - now exists s.
    - apply IH. now right. }
  apply H. now left.
Qed.

Lemma reload_cache (fs : file_system) (self : ConfigManager.t) :
  ConfigManager._resolved_cache (snd (ConfigManager.reload fs self)) = None.
Proof.
  unfold ConfigManager.reload.
  assert (H : forall files (acc : res unit * ConfigManager.t),
             ConfigManager._resolved_cache (snd acc) = None ->
             ConfigManager._resolved_cache
               (snd (fold_left
                       (fun acc file_path =>
                          match acc with
                          | (Ok _, self) =>
                              match fs file_path with
                              | Missing => (Ok tt, self)
                              | _ =>
                                  match ConfigManager.load_file fs self file_path with
                                  | Ok self' => (Ok tt, self')
                                  | Raise e => (Raise e, self)
                                  end
                              end
                          | failed => failed
                          end) files acc)) = None).
  { induction files as [|f files IH]; intros acc Hacc; cbn [fold_left];
      [exact Hacc|].
    apply IH. destruct acc as [[u|e] s]; [|exact Hacc].
    unfold ConfigManager.load_file.
    destruct (fs f); simpl; try exact Hacc. reflexivity. }
  apply H. reflexivity.
Qed.

Lemma run_coherent (py_str : pyval -> string) (o : op)
  (self : ConfigManager.t) :
  coherent self -> coherent (run py_str o self).
Proof.
  intro Hcoh. destruct o; cbn [run].
  - unfold ConfigManager.load_file.
    destruct (fs file_path); simpl; try assumption.
    now apply coherent_empty_cache.
  - now apply coherent_empty_cache.
  - unfold ConfigManager.set_environment.
    destruct (EnvironmentManager.set_environment _ _); simpl;
      [now apply coherent_empty_cache | assumption].
  - destruct (compute_overrides_total environ prefix) as [computed Hcomp].
    unfold ConfigManager.apply_env_overrides,
      EnvironmentManager.get_env_overrides.
    destruct (EnvironmentManager._env_overrides_cache
                (ConfigManager.env_manager self)) as [cached|];
      [|rewrite Hcomp]; cbn [bind after id].
    + destruct cached; cbn [after id];
        [revert Hcoh; now apply coherent_frame
        | now apply coherent_empty_cache].
    + destruct computed; cbn [after id];
        [revert Hcoh; now apply coherent_frame
        | now apply coherent_empty_cache].
  - unfold ConfigManager.get,
      EnvironmentManager.get_environment_config_key.
    pose proof (coherent_with_env_memo environ self Hcoh) as Hmemo.
    destruct (EnvironmentManager.current_environment environ _) as [e m].
    rewrite !get_nested_value_dot. cbn [bind snd] in *.
    match goal with
    | |- context [match ?v with VNone => _ | _ => _ end] => now destruct v
    end.
  - now apply coherent_empty_cache.
  - unfold ConfigManager.has,
      EnvironmentManager.get_environment_config_key.
    pose proof (coherent_with_env_memo environ self Hcoh) as Hmemo.
    destruct (EnvironmentManager.current_environment environ _) as [e m].
    rewrite !has_nested_key_path. cbn [bind snd] in *.
    match goal with
    | |- context [if ?b then _ else _] => now destruct b
    end.
  - unfold ConfigManager.delete. cbn [Py.split bind].
    destruct (except_key_type _ _) as [[[]|]|]; cbn [after id];
      try assumption.
    now apply coherent_empty_cache.
  - destruct (update_cache updates self) as (self' & -> & [->|Hnone]);
      cbn [after id]; [assumption | now apply coherent_empty_cache].
  - now apply get_resolved_config_coherent.
  - unfold ConfigManager.validate.
    pose proof (get_resolved_config_coherent environ self true Hcoh) as H.
    now destruct (ConfigManager.get_resolved_config environ self true).
  - unfold ConfigManager.add_validation_rule.
    destruct (ConfigValidator.add_rule _ _ _); cbn [bind after id];
      [|assumption].
    revert Hcoh. now apply coherent_frame.
  - revert Hcoh. now apply coherent_frame.
  - unfold ConfigManager.to_dict. destruct resolved; [|assumption].
    now apply get_resolved_config_coherent.
  - apply coherent_empty_cache, reload_cache.
  - now apply coherent_empty_cache.
Qed.

Lemma run_all_coherent (py_str : pyval -> string) (ops : list op)
  (self : ConfigManager.t) :
  coherent self -> coherent (run_all py_str ops self).
Proof.
  unfold run_all. revert self.
  induction ops as [|o ops IH]; intros self Hcoh; cbn [fold_left].
  - exact Hcoh.
  - apply IH. now apply run_coherent.
Qed.

(** C3: after any sequence of calls on a new manager, ending with any call
    (a mutation or not), [get_resolved_config] with caching returns the
    resolution of the raw tree as it is now under the environment as it is
    now; a result cached before the last mutation is never returned. *)
Theorem cache_coherence (py_str : pyval -> string)
  (is_valid_url is_valid_port is_valid_email : pyval -> res bool)
  (env_var_name : string) (ops : list op) (environ : environ_t) :
  let self :=
    run_all py_str ops
      (ConfigManager.init is_valid_url is_valid_port is_valid_email
         env_var_name) in
  fst (ConfigManager.get_resolved_config environ self true)
  = ConfigManager.resolve (ConfigManager.config_data self)
      (fst (EnvironmentManager.current_environment environ
              (ConfigManager.env_manager self))).
Proof.
  intro self. apply get_resolved_config_reads_resolution.
  apply run_all_coherent. now apply coherent_empty_cache.
Qed.

(** ** Lookups and deletion never raise *)

Lemma delete_walk_cons (current_data : pyval) (key key2 : string)
  (rest : list string) :
  ConfigManager.delete_walk current_data (key :: key2 :: rest)
  = (child <- ConfigManager.getitem current_data key ;;
     r <- ConfigManager.delete_walk child (key2 :: rest) ;;
     match r, current_data with
     | Some child', VDict d => Ok (Some (VDict (dict_set key child' d)))
     | _, _ => Ok None
     end).
Proof. reflexivity. Qed.

Lemma delete_walk_exn (current_data : pyval) (keys : list string) (e : exn) :
  ConfigManager.delete_walk current_data keys = Raise e ->
  e = KeyError \/ e = TypeError.
Proof.
  revert current_data. induction keys as [|key rest IH]; intro current_data.
  - discriminate.
  - destruct rest as [|key2 rest].
    + cbn [ConfigManager.delete_walk].
      destruct current_data; try (intros [= <-]; now right).
      * destruct (ConfigManager.is_substring key s);
          [intros [= <-]; now right | discriminate].
      * destruct (existsb _ l); [intros [= <-]; now right | discriminate].
      * destruct (dict_has key d); discriminate.
    + rewrite delete_walk_cons.
      destruct current_data; try (intros [= <-]; now right).
      cbn [ConfigManager.getitem]. unfold dict_getitem.
      destruct (dict_get key d) as [child|]; [|intros [= <-]; now left].
      cbn [bind].
      destruct (ConfigManager.delete_walk child (key2 :: rest)) as [r|e'] eqn:E.
      * cbn [bind]. destruct r; discriminate.
      * cbn [bind]. intros [= <-]. now apply (IH child).
Qed.

Lemma delete_walk_caught (current_data : pyval) (keys : list string) :
  exists r,
    except_key_type (ConfigManager.delete_walk current_data keys) (Ok None)
    = Ok r.
Proof.
  destruct (ConfigManager.delete_walk current_data keys) as [r|e] eqn:E.
  - now exists r.
  - exists None. destruct (delete_walk_exn _ _ _ E) as [-> | ->]; reflexivity.
Qed.

Lemma delete_walk_missing (current_data : pyval) (keys : list string) :
  keys <> [] ->
  path_value current_data keys = None ->
  except_key_type (ConfigManager.delete_walk current_data keys) (Ok None)
  = Ok None.
Proof.
  revert current_data.
  induction keys as [|key rest IH]; intros current_data Hne Hpath;
    [contradiction|].
  destruct rest as [|key2 rest].
  - cbn [ConfigManager.delete_walk].
    destruct current_data; try reflexivity.
    + now destruct (ConfigManager.is_substring key s).
    + now destruct (existsb _ l).
    + simpl in Hpath. unfold dict_has.
      destruct (dict_get key d); [discriminate | reflexivity].
  - rewrite delete_walk_cons.
    destruct current_data; try reflexivity.
    cbn [ConfigManager.getitem]. unfold dict_getitem.
    cbn [path_value] in Hpath.
    destruct (dict_get key d) as [child|]; [|reflexivity].
    cbn [bind].
    assert (Hrest : key2 :: rest <> []) by discriminate.
    specialize (IH child Hrest Hpath).
    destruct (ConfigManager.delete_walk child (key2 :: rest)) as [[r|]|e];
      cbn [bind]; try reflexivity.
    + discriminate IH.
    + destruct e; try discriminate IH; reflexivity.
Qed.

Lemma path_value_parent (current_data : pyval) (keys : list string) :
  keys <> [] ->
  path_value current_data (removelast keys) = None ->
  path_value current_data keys = None.
Proof.
  revert current_data.
  induction keys as [|key rest IH]; intros current_data Hne; [contradiction|].
  destruct rest as [|key2 rest]; [discriminate|].
  change (removelast (key :: key2 :: rest))
    with (key :: removelast (key2 :: rest)).
  cbn [path_value]. destruct current_data; try reflexivity.
  destruct (dict_get key d) as [child|]; [|reflexivity].
  apply IH. discriminate.
Qed.

Lemma delete_total (self : ConfigManager.t) (key_path : string) :
  exists self', ConfigManager.delete self key_path = Ok self'.
Proof.
  unfold ConfigManager.delete. cbn [Py.split bind].
  destruct (delete_walk_caught (VDict (ConfigManager.config_data self))
              (Py.split_from "." 0 "" key_path)) as [r ->].
  destruct r as [[]|]; eexists; reflexivity.
Qed.

Lemma delete_missing (self : ConfigManager.t) (key_path : string) :
  path_value (VDict (ConfigManager.config_data self))
    (Py.split_from "." 0 "" key_path) = None ->
  ConfigManager.delete self key_path = Ok self.
Proof.
  intro Hpath. unfold ConfigManager.delete. cbn [Py.split bind].
  rewrite delete_walk_missing; [reflexivity | apply split_from_not_nil | exact Hpath].
Qed.

(** C8: for every tree and every path string, with any non-empty separator,
    [get_nested_value] and [has_nested_key] return and do not raise, and so
    does [delete] of the manager.  When the path does not lead to a value
    (a segment is missing, possibly an empty one, or an intermediate value
    is not a nested structure) the lookup returns the default and the test
    returns false; [delete] on a path whose parent does not exist, or that
    does not exist itself, returns the manager unchanged. *)
Theorem nested_lookups_never_raise (data : dict) (key_path : string)
  (default : pyval) (c : ascii) (sep : string) (self : ConfigManager.t) :
  (exists v, get_nested_value data key_path default (String c sep) = Ok v)
  /\ (exists b, has_nested_key data key_path (String c sep) = Ok b)
  /\ (exists self', ConfigManager.delete self key_path = Ok self')
  /\ (path_value (VDict data) (Py.split_from (String c sep) 0 "" key_path)
      = None ->
      get_nested_value data key_path default (String c sep) = Ok default
      /\ has_nested_key data key_path (String c sep) = Ok false)
  /\ (path_value (VDict (ConfigManager.config_data self))
        (removelast (Py.split_from "." 0 "" key_path)) = None ->
      ConfigManager.delete self key_path = Ok self)
  /\ (path_value (VDict (ConfigManager.config_data self))
        (Py.split_from "." 0 "" key_path) = None ->
      ConfigManager.delete self key_path = Ok self).
Proof.
  rewrite get_nested_value_path, has_nested_key_path.
  split; [eexists; reflexivity|].
  split; [eexists; reflexivity|].
  split; [apply delete_total|].
  split; [intros ->; now split|].
  split; [|apply delete_missing].
  intro Hparent. apply delete_missing, path_value_parent;
    [apply split_from_not_nil | exact Hparent].
Qed.

Lemma nested_lookups_never_raise_witness :
  let data := [("a", VInt 1); ("b", VDict [("c", VNone)])] in
  let self := ConfigManager.load_dict fresh_manager data in
  get_nested_value data "a..x" (VStr "dflt") "." = Ok (VStr "dflt")
  /\ has_nested_key data "a..x" "." = Ok false
  /\ ConfigManager.delete self "missing.parent.key" = Ok self
  /\ ConfigManager.delete self "a.x" = Ok self.
Proof.
  intros data self.
  destruct (nested_lookups_never_raise data "a..x" (VStr "dflt") "." "" self)
    as (_ & _ & _ & Hlookup & _ & _).
  destruct (nested_lookups_never_raise data "missing.parent.key" VNone "." ""
              self) as (_ & _ & _ & _ & Hparent & _).
  destruct (nested_lookups_never_raise data "a.x" VNone "." "" self)
    as (_ & _ & _ & _ & _ & Hpath).
  split; [exact (proj1 (Hlookup eq_refl))|].
  split; [exact (proj2 (Hlookup eq_refl))|].
  split; [exact (Hparent eq_refl) | exact (Hpath eq_refl)].
Defined.

(** ** Sequential loads *)

(** C5: on a store whose raw tree is empty, loading [A] and then [B] leaves
    the raw tree [deep_merge A B]; this holds for [load_dict] and for
    [load_file] on files that parse to [A] and [B]. *)
Theorem sequential_loads (self : ConfigManager.t) (A B : dict) :
  ConfigManager.config_data self = [] ->
  nodup_keys (dict_keys A) = true ->
  ConfigManager.config_data
    (ConfigManager.load_dict (ConfigManager.load_dict self A) B)
  = deep_merge A B
  /\ forall (fs : file_system) (path_a path_b : string),
       fs path_a = Parsed A -> fs path_b = Parsed B ->
       exists self2,
         (self1 <- ConfigManager.load_file fs self path_a ;;
          ConfigManager.load_file fs self1 path_b) = Ok self2
         /\ ConfigManager.config_data self2 = deep_merge A B.
Proof.
  intros Hempty Hnd. apply nodup_keys_NoDup in Hnd.
  split.
  - simpl. rewrite Hempty. now rewrite deep_merge_empty_base.
  - intros fs path_a path_b Ha Hb.
    unfold ConfigManager.load_file. rewrite Ha. cbn [bind]. rewrite Hb.
    eexists. split; [reflexivity|].
    simpl. rewrite Hempty. now rewrite deep_merge_empty_base.
Qed.

Lemma sequential_loads_witness :
  ConfigManager.config_data
    (ConfigManager.load_dict
       (ConfigManager.load_dict fresh_manager
          [("database",
            VDict [("host", VStr "first"); ("port", VInt 5432);
                   ("ssl", VBool false)])])
       [("database", VDict [("host", VStr "second"); ("ssl", VBool true)])])
  = [("database",
      VDict [("host", VStr "second"); ("port", VInt 5432);
             ("ssl", VBool true)])].
Proof.
  exact (proj1 (sequential_loads fresh_manager
                  [("database",
                    VDict [("host", VStr "first"); ("port", VInt 5432);
                           ("ssl", VBool false)])]
                  [("database",
                    VDict [("host", VStr "second"); ("ssl", VBool true)])]
                  eq_refl eq_refl)).
Defined.

(** ** The merge, key by key *)

Lemma deep_merge_keys (base overlay : dict) (k : string) :
  In k (map fst (deep_merge base overlay))
  <-> In k (map fst base) \/ In k (map fst overlay).
Proof.
  rewrite <- !dict_has_keys, deep_merge_has. apply orb_true_iff.
Qed.

Lemma deep_merge_by_key (base overlay : dict) :
  NoDup (map fst overlay) ->
  (forall k,
      In k (map fst (deep_merge base overlay))
      <-> In k (map fst base) \/ In k (map fst overlay))
  /\ (forall k rd vd,
        dict_get k base = Some (VDict rd) ->
        dict_get k overlay = Some (VDict vd) ->
        dict_get k (deep_merge base overlay) = Some (VDict (deep_merge rd vd)))
  /\ (forall k value,
        dict_get k overlay = Some value ->
        match dict_get k base with
        | Some cur => is_dict cur && is_dict value = false
        | None => True
        end ->
        dict_get k (deep_merge base overlay) = Some value)
  /\ (forall k,
        dict_get k overlay = None ->
        dict_get k (deep_merge base overlay) = dict_get k base).
Proof.
  intro Hnd. split; [apply deep_merge_keys|].
  split; [|split].
  - intros k rd vd Hb Ho.
    now rewrite (deep_merge_get _ _ _ Hnd), Ho, Hb, merge_value_dict.
  - intros k value Ho Hkind. rewrite (deep_merge_get _ _ _ Hnd), Ho.
    destruct (dict_get k base) as [cur|]; [|reflexivity].
    now rewrite merge_value_other.
  - intros k Ho. now rewrite (deep_merge_get _ _ _ Hnd), Ho.
Qed.

(** ** Flattening and unflattening *)

(** No key contains the character [c], here and in nested dictionaries. *)
Fixpoint keys_free (c : ascii) (v : pyval) : bool :=
  match v with
  | VDict d =>
      (fix all (items : dict) : bool :=
         match items with
         | [] => true
         | (k, x) :: rest =>
             negb (Py.contains_char c k) && keys_free c x && all rest
         end) d
  | _ => true
  end.

Definition is_empty_dict (v : pyval) : bool :=
  match v with
  | VDict [] => true
  | _ => false
  end.

(** No dictionary stored as a value, at any depth, is empty. *)
Fixpoint no_empty_dict (v : pyval) : bool :=
  match v with
  | VDict d =>
      (fix all (items : dict) : bool :=
         match items with
         | [] => true
         | (_, x) :: rest =>
             negb (is_empty_dict x) && no_empty_dict x && all rest
         end) d
  | _ => true
  end.

(** The top level has no empty-string key that holds a dictionary. *)
Definition top_empty_key_ok (t : dict) : bool :=
  match dict_get "" t with
  | Some (VDict _) => false
  | _ => true
  end.

(** The leaves of a tree with their paths, in the order [flatten_dict]
    meets them. *)
Fixpoint leaves (v : pyval) : list (list string * pyval) :=
  match v with
  | VDict d =>
      (fix go (items : dict) : list (list string * pyval) :=
         match items with
         | [] => []
         | (k, x) :: rest =>
             match x with
             | VDict _ => map (fun pl => (k :: fst pl, snd pl)) (leaves x)
             | _ => [([k], x)]
             end ++ go rest
         end) d
  | _ => []
  end.

Definition item_leaves (kv : string * pyval) : list (list string * pyval) :=
  match snd kv with
  | VDict _ => map (fun pl => (fst kv :: fst pl, snd pl)) (leaves (snd kv))
  | _ => [([fst kv], snd kv)]
  end.

(** Assigning a list of leaves, one [set_path] after the other. *)
Definition set_all (acc : dict) (ps : list (list string * pyval)) : dict :=
  fold_left (fun acc pl => set_path acc (fst pl) (snd pl)) ps acc.

(** The dictionary found at [k], or the empty one that [set_path] puts
    there. *)
Definition child_of (k : string) (d : dict) : dict :=
  match dict_get k d with
  | Some (VDict c) => c
  | _ => []
  end.

Lemma leaves_cons (kv : string * pyval) (d : dict) :
  leaves (VDict (kv :: d)) = item_leaves kv ++ leaves (VDict d).
Proof. destruct kv as [k x]. reflexivity. Qed.

Lemma keys_free_cons (c : ascii) (k : string) (x : pyval) (d : dict) :
  keys_free c (VDict ((k, x) :: d))
  = negb (Py.contains_char c k) && keys_free c x && keys_free c (VDict d).
Proof. reflexivity. Qed.

Lemma no_empty_dict_cons (k : string) (x : pyval) (d : dict) :
  no_empty_dict (VDict ((k, x) :: d))
  = negb (is_empty_dict x) && no_empty_dict x && no_empty_dict (VDict d).
Proof. reflexivity. Qed.

Lemma wf_dict_cons (k : string) (x : pyval) (d : dict) :
  wf_dict ((k, x) :: d) = true
  <-> ~ In k (map fst d) /\ wf_value x = true /\ wf_dict d = true.
Proof.
  rewrite !wf_dict_unfold. cbn [map fst]. split.
  - intros [Hnd Hall]. inversion Hnd; subst. inversion Hall; subst. tauto.
  - intros (Hk & Hx & Hnd & Hall). split; now constructor.
Qed.

Lemma set_path_cons (acc : dict) (k k2 : string) (rest : list string)
  (v : pyval) :
  set_path acc (k :: k2 :: rest) v
  = dict_set k (VDict (set_path (child_of k acc) (k2 :: rest) v)) acc.
Proof. reflexivity. Qed.

Lemma set_all_app (acc : dict) (ps qs : list (list string * pyval)) :
  set_all acc (ps ++ qs) = set_all (set_all acc ps) qs.
Proof. apply fold_left_app. Qed.

Lemma child_of_set (k : string) (c acc : dict) :
  child_of k (dict_set k (VDict c) acc) = c.
Proof. unfold child_of. now rewrite dict_get_set_same. Qed.

(** Leaves below one key all go into the dictionary stored at that key. *)
Lemma set_all_under_key (k : string) (ps : list (list string * pyval))
  (acc : dict) :
  ps <> [] ->
  Forall (fun pl => fst pl <> []) ps ->
  set_all acc (map (fun pl => (k :: fst pl, snd pl)) ps)
  = dict_set k (VDict (set_all (child_of k acc) ps)) acc.
Proof.
  revert acc. induction ps as [|[p l] ps IH]; intros acc Hne Hall;
    [contradiction|].
  pose proof (Forall_inv Hall) as Hp. pose proof (Forall_inv_tail Hall) as Hps.
  cbn [fst snd] in Hp.
  destruct p as [|k2 rest]; [contradiction|].
  unfold set_all. cbn [map fold_left fst snd]. fold (set_all).
  rewrite set_path_cons.
  destruct ps as [|pl ps].
  - reflexivity.
  - change (fold_left (fun acc0 pl0 => set_path acc0 (fst pl0) (snd pl0))
              (map (fun pl0 => (k :: fst pl0, snd pl0)) (pl :: ps)) ?a)
      with (set_all a (map (fun pl0 => (k :: fst pl0, snd pl0)) (pl :: ps))).
    rewrite IH; [|discriminate | exact Hps].
    rewrite child_of_set, dict_set_set. reflexivity.
Qed.

Lemma item_leaves_paths (kv : string * pyval) (pl : list string * pyval) :
  In pl (item_leaves kv) -> exists rest, fst pl = fst kv :: rest.
Proof.
  destruct kv as [k x]. unfold item_leaves. cbn [fst snd].
  destruct x; try (intros [<-|[]]; now exists []).
  intro H. apply in_map_iff in H. destruct H as (pl' & <- & _).
  now exists (fst pl').
Qed.

Lemma leaves_paths (d : dict) (pl : list string * pyval) :
  In pl (leaves (VDict d)) ->
  exists k rest, fst pl = k :: rest /\ In k (map fst d).
Proof.
  induction d as [|kv d IH]; [intros []|].
  rewrite leaves_cons. intro H. apply in_app_or in H. destruct H as [H|H].
  - destruct (item_leaves_paths _ _ H) as [rest Hp].
    exists (fst kv), rest. split; [exact Hp | now left].
  - destruct (IH H) as (k & rest & Hp & Hk).
    exists k, rest. split; [exact Hp | now right].
Qed.

Lemma leaves_paths_nonempty (v : pyval) :
  Forall (fun pl => fst pl <> []) (leaves v).
Proof.
  destruct v; try constructor.
  apply Forall_forall. intros pl H.
  destruct (leaves_paths _ _ H) as (k & rest & -> & _). discriminate.
Qed.

(** A non-empty dictionary without empty dictionaries inside has a leaf. *)
Lemma leaves_nonempty (v : pyval) :
  no_empty_dict v = true ->
  forall d, v = VDict d -> d <> [] -> leaves v <> [].
Proof.
  induction v as [| | | | | |d0 IH] using pyval_dict_ind; try discriminate.
  intros Hne d [= <-] Hd.
  destruct d0 as [|[k x] d0]; [contradiction|].
  rewrite leaves_cons. unfold item_leaves. cbn [fst snd].
  rewrite no_empty_dict_cons, !andb_true_iff, negb_true_iff in Hne.
  destruct Hne as [[Hempty Hx] _].
  pose proof (Forall_inv IH) as IHx. cbn [snd] in IHx.
  destruct x as [| | | | | |dx]; try discriminate.
  destruct dx as [|kv dx]; [discriminate|].
  specialize (IHx Hx _ eq_refl ltac:(discriminate)).
  destruct (leaves (VDict (kv :: dx))); [contradiction | discriminate].
Qed.

Lemma set_all_item (acc : dict) (k : string) (x : pyval) :
  dict_get k acc = None ->
  no_empty_dict x = true -> is_empty_dict x = false ->
  (forall dx, x = VDict dx -> set_all [] (leaves x) = dx) ->
  set_all acc (item_leaves (k, x)) = acc ++ [(k, x)].
Proof.
  intros Hfresh Hne Hempty Hx. unfold item_leaves. cbn [fst snd].
  destruct x as [| | | | | |dx];
    try (unfold set_all; cbn [fold_left fst snd set_path];
         now apply dict_set_fresh).
  rewrite set_all_under_key.
  - unfold child_of. rewrite Hfresh, (Hx dx eq_refl).
    now apply dict_set_fresh.
  - apply (leaves_nonempty _ Hne dx eq_refl).
    destruct dx; [discriminate Hempty | discriminate].
  - apply leaves_paths_nonempty.
Qed.

(** Assigning the leaves of a tree one by one rebuilds the tree. *)
Lemma set_all_leaves (v : pyval) :
  wf_value v = true -> no_empty_dict v = true ->
  forall d, v = VDict d ->
  forall acc, NoDup (map fst acc ++ map fst d) ->
         set_all acc (leaves v) = acc ++ d.
Proof.
  induction v as [| | | | | |d0 IH] using pyval_dict_ind; try discriminate.
  intros Hwf Hne d [= <-].
  induction d0 as [|[k x] d0 IHd]; intros acc Hnd.
  - now rewrite app_nil_r.
  - apply wf_dict_cons in Hwf. destruct Hwf as (Hk & Hwx & Hwd).
    rewrite no_empty_dict_cons, !andb_true_iff, negb_true_iff in Hne.
    destruct Hne as [[Hempty Hnx] Hnd0].
    pose proof (Forall_inv IH) as IHx. cbn [snd] in IHx.
    rewrite leaves_cons, set_all_app, set_all_item; try assumption.
    + rewrite IHd; try assumption.
      * now rewrite <- app_assoc.
      * exact (Forall_inv_tail IH).
      * rewrite map_app. cbn [map fst]. rewrite <- app_assoc. exact Hnd.
    + apply dict_get_None_keys. intro Hin.
      cbn [map fst] in Hnd. apply NoDup_remove_2 in Hnd.
      apply Hnd, in_or_app. now left.
    + intros dx ->. rewrite (IHx Hwx Hnx dx eq_refl []); [reflexivity|].
      apply wf_dict_unfold in Hwx. exact (proj1 Hwx).
Qed.

(** *** Splitting a joined path *)

Lemma string_app_assoc (a b c : string) :
  ((a ++ b) ++ c)%string = (a ++ b ++ c)%string.
Proof. induction a as [|x a IH]; simpl; [reflexivity | now rewrite IH]. Qed.

Lemma prefix_char (c d : ascii) (s : string) :
  String.prefix (String c "") (String d s) = Ascii.eqb c d.
Proof.
  simpl. destruct (ascii_dec c d) as [->|Hne].
  - rewrite Ascii.eqb_refl. now destruct s.
  - symmetry. now apply Ascii.eqb_neq.
Qed.

Section SplitJoin.

Variable c : ascii.
Local Abbreviation sep := (String c "").

Lemma split_from_free (k cur s : string) :
  Py.contains_char c k = false ->
  Py.split_from sep 0 cur (k ++ s) = Py.split_from sep 0 (cur ++ k) s.
Proof.
  revert cur. induction k as [|d k IH]; intros cur Hfree.
  - now rewrite append_empty_r.
  - cbn [Py.contains_char] in Hfree. apply orb_false_iff in Hfree.
    destruct Hfree as [Hd Hk].
    change ((String d k ++ s)%string) with (String d (k ++ s)).
    cbn [Py.split_from]. rewrite prefix_char, Hd.
    rewrite (IH _ Hk). f_equal.
    now rewrite string_app_assoc.
Qed.

Lemma split_from_sep (cur s : string) :
  Py.split_from sep 0 cur (sep ++ s) = cur :: Py.split_from sep 0 "" s.
Proof.
  change ((String c "" ++ s)%string) with (String c s).
  cbn [Py.split_from]. rewrite prefix_char, Ascii.eqb_refl. reflexivity.
Qed.

(** On keys without the separator, [split] undoes [join]. *)
Lemma split_join (p : list string) :
  p <> [] ->
  Forall (fun k => Py.contains_char c k = false) p ->
  Py.split_from sep 0 "" (Py.join sep p) = p.
Proof.
  induction p as [|k p IH]; intros Hne Hfree; [contradiction|].
  pose proof (Forall_inv Hfree) as Hk.
  destruct p as [|k2 p].
  - cbn [Py.join]. rewrite <- (append_empty_r k) at 1.
    now rewrite split_from_free.
  - change (Py.join sep (k :: k2 :: p))
      with ((k ++ sep ++ Py.join sep (k2 :: p))%string).
    rewrite split_from_free by exact Hk.
    rewrite split_from_sep. cbn [append]. f_equal.
    apply IH; [discriminate | exact (Forall_inv_tail Hfree)].
Qed.

Lemma join_snoc (p : list string) (k : string) :
  p <> [] -> Py.join sep (p ++ [k]) = (Py.join sep p ++ sep ++ k)%string.
Proof.
  induction p as [|k1 p IH]; intro Hne; [contradiction|].
  destruct p as [|k2 p].
  - reflexivity.
  - change (Py.join sep ((k1 :: k2 :: p) ++ [k]))
      with ((k1 ++ sep ++ Py.join sep ((k2 :: p) ++ [k]))%string).
    rewrite IH by discriminate.
    change (Py.join sep (k1 :: k2 :: p))
      with ((k1 ++ sep ++ Py.join sep (k2 :: p))%string).
    now rewrite !string_app_assoc.
Qed.

Lemma join_two_nonempty (p : list string) (k : string) :
  p <> [] -> Py.join sep (p ++ [k]) <> "".
Proof.
  intro Hne. rewrite join_snoc by exact Hne.
  destruct (Py.join sep p); discriminate.
Qed.

(** The prefix string of [flatten_dict] for the path [pk] walked so far; it
    stands for the path unless the path is the single empty key. *)
Definition prefix_ok (pk : list string) : Prop :=
  pk = [] \/ Py.join sep pk <> "".

Lemma new_key_join (pk : list string) (k : string) :
  prefix_ok pk ->
  new_key sep (Py.join sep pk) k = Py.join sep (pk ++ [k]).
Proof.
  intros [->|Hne]; [reflexivity|].
  assert (Hpk : pk <> []) by (intros ->; now apply Hne).
  rewrite join_snoc by exact Hpk. unfold new_key.
  destruct (Py.join sep pk); [contradiction | reflexivity].
Qed.

End SplitJoin.

(** *** The flat form of a tree *)

Lemma flatten_value_dict (separator prefix : string) (d : dict) :
  flatten_value separator prefix (VDict d)
  = fold_left (flatten_item separator prefix) d [].
Proof.
  cbn [flatten_value]. generalize (@nil (string * pyval)) as result.
  induction d as [|[k x] d IH]; intro result; [reflexivity|].
  cbn [fold_left]. rewrite <- IH. reflexivity.
Qed.

Lemma dict_update_disjoint (result other : dict) :
  NoDup (map fst result ++ map fst other) ->
  dict_update result other = result ++ other.
Proof.
  unfold dict_update. revert result.
  induction other as [|[k v] other IH]; intros result Hnd; cbn [fold_left].
  - now rewrite app_nil_r.
  - assert (Hfresh : dict_get k result = None).
    { apply dict_get_None_keys. intro Hin.
      apply NoDup_remove_2 in Hnd. apply Hnd, in_or_app. now left. }
    cbn [fst snd]. rewrite (dict_set_fresh _ _ _ Hfresh), IH.
    + now rewrite <- app_assoc.
    + rewrite map_app. cbn [map fst]. rewrite <- app_assoc. exact Hnd.
Qed.

Section FlatForm.

Variable c : ascii.
Local Abbreviation sep := (String c "").

(** The flat entry of a leaf found below the path [pk]. *)
Definition flat_of (pk : list string) (pl : list string * pyval)
  : string * pyval :=
  (Py.join sep (pk ++ fst pl), snd pl).

Lemma flat_of_under (pk : list string) (k : string)
  (ps : list (list string * pyval)) :
  map (flat_of pk) (map (fun pl => (k :: fst pl, snd pl)) ps)
  = map (flat_of (pk ++ [k])) ps.
Proof.
  rewrite map_map. apply map_ext. intros [p l]. unfold flat_of.
  cbn [fst snd]. now rewrite <- app_assoc.
Qed.

(** [flatten_dict] lists the leaves, each under its joined path, as long as
    the joined paths are pairwise different and no dictionary is entered
    through an empty key at the top. *)
Lemma flatten_leaves (v : pyval) :
  forall d, v = VDict d ->
  forall pk,
    prefix_ok c pk ->
    (pk = [] -> forall dx, ~ In ("", VDict dx) d) ->
    NoDup (map fst (map (flat_of pk) (leaves v))) ->
    flatten_value sep (Py.join sep pk) v = map (flat_of pk) (leaves v).
Proof.
  induction v as [| | | | | |d0 IH] using pyval_dict_ind; try discriminate.
  intros d [= <-] pk Hpk Htop Hnd.
  rewrite flatten_value_dict.
  enough (H : forall result,
             NoDup (map fst result
                      ++ map fst (map (flat_of pk) (leaves (VDict d0)))) ->
             fold_left (flatten_item sep (Py.join sep pk)) d0 result
             = result ++ map (flat_of pk) (leaves (VDict d0)))
    by (apply (H []); exact Hnd).
  clear Hnd.
  induction d0 as [|[k x] d0 IHd]; intros result Hnd.
  - now rewrite app_nil_r.
  - pose proof (Forall_inv IH) as IHx. cbn [snd] in IHx.
    rewrite leaves_cons, !map_app, app_assoc in Hnd.
    pose proof (NoDup_app_remove_r _ _ Hnd) as Hitem.
    rewrite leaves_cons, map_app, app_assoc.
    cbn [fold_left].
    assert (Hstep : flatten_item sep (Py.join sep pk) result (k, x)
                    = result ++ map (flat_of pk) (item_leaves (k, x))).
    { unfold flatten_item, item_leaves. cbn [fst snd].
      rewrite (new_key_join c pk k Hpk).
      destruct x as [| | | | | |dx];
        try (unfold flat_of; cbn [map fst snd]; apply dict_set_fresh;
             apply dict_get_None_keys;
             unfold item_leaves, flat_of in Hitem; cbn [map fst snd] in Hitem;
             intro Hin; apply NoDup_remove_2 in Hitem;
             apply Hitem; rewrite app_nil_r; exact Hin).
      unfold item_leaves in Hitem. cbn [fst snd] in Hitem.
      rewrite flat_of_under in Hitem |- *.
      rewrite (IHx dx eq_refl (pk ++ [k])).
      - now apply dict_update_disjoint.
      - destruct pk as [|k0 pk].
        + right. cbn [app Py.join]. intros ->.
          apply (Htop eq_refl dx). now left.
        + right. now apply join_two_nonempty.
      - intro Hnil. now apply app_eq_nil in Hnil.
      - exact (NoDup_app_remove_l _ _ Hitem). }
    rewrite Hstep. apply IHd.
    + exact (Forall_inv_tail IH).
    + intros Hnil dx Hin. apply (Htop Hnil dx). now right.
    + rewrite map_app. exact Hnd.
Qed.

(** *** Paths of a well-formed tree *)

Lemma leaves_NoDup (v : pyval) :
  wf_value v = true -> NoDup (map fst (leaves v)).
Proof.
  induction v as [| | | | | |d IH] using pyval_dict_ind; try constructor.
  intro Hwf. induction d as [|[k x] d IHd]; [constructor|].
  apply wf_dict_cons in Hwf. destruct Hwf as (Hk & Hwx & Hwd).
  pose proof (Forall_inv IH) as IHx. cbn [snd] in IHx.
  rewrite leaves_cons, map_app. apply NoDup_app.
  - unfold item_leaves. cbn [fst snd].
    destruct x; try (repeat constructor; intros []).
    rewrite map_map. cbn [fst].
    rewrite <- (map_map fst (cons k)).
    apply NoDup_map_NoDup_ForallPairs; [|now apply IHx].
    intros p q _ _ [= ->]. reflexivity.
  - apply IHd; [exact (Forall_inv_tail IH) | exact Hwd].
  - intros p Hp Hq.
    apply in_map_iff in Hp. destruct Hp as (pl & <- & Hpl).
    apply in_map_iff in Hq. destruct Hq as (ql & Heq & Hql).
    destruct (item_leaves_paths _ _ Hpl) as [rest Hrest].
    destruct (leaves_paths _ _ Hql) as (k' & rest' & Hrest' & Hk').
    cbn [fst] in Hrest. rewrite Hrest, Hrest' in Heq.
    injection Heq as -> _. contradiction.
Qed.

Lemma leaves_keys_free (v : pyval) :
  keys_free c v = true ->
  Forall (fun pl => Forall (fun k => Py.contains_char c k = false) (fst pl))
    (leaves v).
Proof.
  induction v as [| | | | | |d IH] using pyval_dict_ind; try constructor.
  intro Hfree. induction d as [|[k x] d IHd]; [constructor|].
  rewrite keys_free_cons, !andb_true_iff, negb_true_iff in Hfree.
  destruct Hfree as [[Hk Hx] Hd].
  pose proof (Forall_inv IH) as IHx. cbn [snd] in IHx.
  rewrite leaves_cons. apply Forall_app. split.
  - unfold item_leaves. cbn [fst snd].
    destruct x; try (repeat constructor; exact Hk).
    apply Forall_map. cbn [fst].
    eapply Forall_impl; [|exact (IHx Hx)].
    intros pl Hpl. now constructor.
  - apply IHd; [exact (Forall_inv_tail IH) | exact Hd].
Qed.

Lemma flat_keys_NoDup (t : dict) :
  wf_dict t = true -> keys_free c (VDict t) = true ->
  NoDup (map fst (map (flat_of []) (leaves (VDict t)))).
Proof.
  intros Hwf Hfree.
  rewrite map_map.
  rewrite (map_ext _ (fun pl => Py.join sep (fst pl))) by reflexivity.
  rewrite <- (map_map fst (Py.join sep)).
  apply NoDup_map_NoDup_ForallPairs; [|now apply leaves_NoDup].
  intros p q Hp Hq Heq.
  apply in_map_iff in Hp. destruct Hp as (pl & <- & Hpl).
  apply in_map_iff in Hq. destruct Hq as (ql & <- & Hql).
  pose proof (leaves_keys_free _ Hfree) as Hall.
  pose proof (leaves_paths_nonempty (VDict t)) as Hne.
  rewrite Forall_forall in Hall, Hne.
  rewrite <- (split_join c (fst pl)), <- (split_join c (fst ql)); auto.
  now rewrite Heq.
Qed.

(** *** Unflattening the flat form *)

Lemma unflatten_flat (ps : list (list string * pyval)) (acc : dict) :
  Forall (fun pl => fst pl <> []
                    /\ Forall (fun k => Py.contains_char c k = false) (fst pl))
    ps ->
  fold_left
    (fun acc kv =>
       result <- acc ;; set_nested_value result (fst kv) (snd kv) sep)
    (map (flat_of []) ps) (Ok acc)
  = Ok (set_all acc ps).
Proof.
  revert acc. induction ps as [|[p l] ps IH]; intros acc Hall; [reflexivity|].
  pose proof (Forall_inv Hall) as [Hne Hfree]. cbn [fst] in Hne, Hfree.
  cbn [map fold_left bind flat_of fst snd app].
  rewrite set_nested_value_total.
  rewrite (split_join c p Hne Hfree).
  apply IH. exact (Forall_inv_tail Hall).
Qed.

End FlatForm.

(** *** The round trip *)

Lemma top_empty_key_ok_In (t : dict) :
  NoDup (map fst t) -> top_empty_key_ok t = true ->
  forall dx, ~ In ("", VDict dx) t.
Proof.
  intros Hnd Hok dx Hin. unfold top_empty_key_ok in Hok.
  now rewrite (In_dict_get _ _ _ Hnd Hin) in Hok.
Qed.

(** Flattening and unflattening with a one-character separator give the tree
    back when it is well formed, stores no empty dictionary, has no key
    containing the separator, and does not hold a dictionary under an
    empty-string key of its top level. *)
Theorem flatten_unflatten_roundtrip (t : dict) (c : ascii) :
  wf_dict t = true ->
  no_empty_dict (VDict t) = true ->
  keys_free c (VDict t) = true ->
  top_empty_key_ok t = true ->
  unflatten_dict (flatten_dict t (String c "") "") (String c "") = Ok t.
Proof.
  intros Hwf Hne Hfree Htop.
  pose proof (proj1 (proj1 (wf_dict_unfold t) Hwf)) as Hnd.
  assert (Hflat : flatten_value (String c "") "" (VDict t)
                  = map (flat_of c []) (leaves (VDict t))).
  { apply (flatten_leaves c (VDict t) t eq_refl []).
    - now left.
    - intros _. now apply top_empty_key_ok_In.
    - now apply flat_keys_NoDup. }
  unfold flatten_dict, unflatten_dict. rewrite Hflat, unflatten_flat.
  - now rewrite (set_all_leaves (VDict t) Hwf Hne t eq_refl []).
  - pose proof (leaves_keys_free c _ Hfree) as Hall.
    pose proof (leaves_paths_nonempty (VDict t)) as Hpaths.
    rewrite Forall_forall in *. intros pl Hpl. split; auto.
Qed.

Lemma flatten_unflatten_roundtrip_witness :
  unflatten_dict
    (flatten_dict
       [("database",
         VDict [("host", VStr "localhost");
                ("credentials", VDict [("user", VStr "admin")])]);
        ("debug", VBool true)] "." "") "."
  = Ok [("database",
         VDict [("host", VStr "localhost");
                ("credentials", VDict [("user", VStr "admin")])]);
        ("debug", VBool true)].
Proof.
  exact (flatten_unflatten_roundtrip
           [("database",
             VDict [("host", VStr "localhost");
                    ("credentials", VDict [("user", VStr "admin")])]);
            ("debug", VBool true)] "." eq_refl eq_refl eq_refl eq_refl).
Defined.

(** C6 as stated: the round trip for every tree without empty nested
    structures and without the separator in a key. *)
Definition roundtrip_as_stated : Prop :=
  forall (t : dict) (c : ascii),
    wf_dict t = true ->
    no_empty_dict (VDict t) = true ->
    keys_free c (VDict t) = true ->
    unflatten_dict (flatten_dict t (String c "") "") (String c "") = Ok t.

(** C6 at the tree [{"": {"a": 1}}]: [flatten_dict] gives [{"a": 1}], the
    empty key is lost, and [unflatten_dict] returns [{"a": 1}]. *)
Lemma empty_top_key_lost :
  flatten_dict [("", VDict [("a", VInt 1)])] "." "" = [("a", VInt 1)]
  /\ unflatten_dict (flatten_dict [("", VDict [("a", VInt 1)])] "." "") "."
     = Ok [("a", VInt 1)]
  /\ ~ roundtrip_as_stated.
Proof.
  split; [reflexivity|]. split; [reflexivity|].
  intro H.
  specialize (H [("", VDict [("a", VInt 1)])] "."%char eq_refl eq_refl eq_refl).
  discriminate H.
Qed.

(** Below the top level an empty key is kept: [{"a": {"": {"b": 1}}}]
    flattens to [{"a..b": 1}] and comes back. *)
Example empty_nested_key_kept :
  flatten_dict [("a", VDict [("", VDict [("b", VInt 1)])])] "." ""
  = [("a..b", VInt 1)]
  /\ unflatten_dict [("a..b", VInt 1)] "."
     = Ok [("a", VDict [("", VDict [("b", VInt 1)])])].
Proof. split; reflexivity. Qed.

(** ** The heap: reading, writing, representing *)

Module HeapFacts.

Import Heap.

(** *** Facts about the heap *)

Definition grows (h h' : heap) : Prop := exists new, h' = h ++ new.

Lemma grows_refl (h : heap) : grows h h.
Proof. exists []. now rewrite app_nil_r. Qed.

Lemma grows_app (h h' new : heap) : grows h h' -> grows h (h' ++ new).
Proof. intros [n ->]. exists (n ++ new). now rewrite app_assoc. Qed.

Lemma grows_length (h h' : heap) : grows h h' -> List.length h <= List.length h'.
Proof. intros [n ->]. rewrite length_app. lia. Qed.

Lemma read_lt (h : heap) (a : addr) (o : obj) :
  read h a = Some o -> a < List.length h.
Proof. intro H. apply nth_error_Some. unfold read in H. congruence. Qed.

Lemma read_app (h new : heap) (a : addr) (o : obj) :
  read h a = Some o -> read (h ++ new) a = Some o.
Proof.
  intro H. unfold read. rewrite nth_error_app1; [exact H | now apply read_lt in H].
Qed.

Lemma read_grows (h h' : heap) (a : addr) (o : obj) :
  grows h h' -> read h a = Some o -> read h' a = Some o.
Proof. intros [n ->]. apply read_app. Qed.

Lemma read_alloc (h : heap) (o : obj) :
  read (h ++ [o]) (List.length h) = Some o.
Proof.
  unfold read. rewrite nth_error_app2 by lia. now rewrite Nat.sub_diag.
Qed.


Lemma read_write_same (h : heap) (a : addr) (o : obj) :
  a < List.length h -> read (write h a o) a = Some o.
Proof.
  revert a. induction h as [|x h IH]; intros [|a] Hlt; simpl in *; try lia.
  - reflexivity.
  - apply IH. lia.
Qed.

Lemma read_write_other (h : heap) (a b : addr) (o : obj) :
  a <> b -> read (write h a o) b = read h b.
Proof.
  revert a b. induction h as [|x h IH]; intros [|a] [|b] Hne; simpl;
    try reflexivity; try contradiction.
  apply IH. congruence.
Qed.

Lemma write_app (h new : heap) (a : addr) (o : obj) :
  List.length h <= a ->
  write (h ++ new) a o = h ++ write new (a - List.length h) o.
Proof.
  revert a. induction h as [|x h IH]; intros a Hle; simpl in *.
  - now rewrite Nat.sub_0_r.
  - destruct a as [|a]; [lia|]. simpl. f_equal. apply IH. lia.
Qed.

Lemma grows_write (h h' : heap) (a : addr) (o : obj) :
  List.length h <= a -> grows h h' -> grows h (write h' a o).
Proof.
  intros Hle [n ->]. exists (write n (a - List.length h) o).
  now apply write_app.
Qed.

(** *** Facts about the representation *)


Lemma items_rel_impl (R R' : hval -> pyval -> Prop)
  (items : list (string * hval)) (d : dict) :
  Forall (fun kv => forall x, R x (snd kv) -> R' x (snd kv)) d ->
  items_rel R items d -> items_rel R' items d.
Proof.
  revert items. induction d as [|[k t] d IH]; intros [|[k' x] items] Hall;
    simpl; try tauto.
  intros (-> & Hx & Hrest).
  pose proof (Forall_inv Hall) as Ht. cbn [snd] in Ht.
  repeat split; [now apply Ht|].
  apply IH; [exact (Forall_inv_tail Hall) | exact Hrest].
Qed.

Lemma elems_rel_impl (R R' : hval -> pyval -> Prop)
  (items : list hval) (l : list pyval) :
  Forall (fun t => forall x, R x t -> R' x t) l ->
  elems_rel R items l -> elems_rel R' items l.
Proof.
  revert items. induction l as [|t l IH]; intros [|x items] Hall;
    simpl; try tauto.
  intros (Hx & Hrest).
  split; [now apply (Forall_inv Hall)|].
  apply IH; [exact (Forall_inv_tail Hall) | exact Hrest].
Qed.

(** A representation is kept by any change of heap that keeps the objects
    it visits. *)
Lemma reprs_mono (t : pyval) :
  forall (ok ok' : addr -> Prop) (h h' : heap),
    (forall a o, ok a -> read h a = Some o -> ok' a /\ read h' a = Some o) ->
    forall v, reprs ok h v t -> reprs ok' h' v t.
Proof.
  induction t as [| | | | |l IH|d IH] using pyval_full_ind;
    intros ok ok' h h' Hkeep v; try (simpl; tauto).
  - intros (a & items & -> & Hok & Hread & Hitems).
    destruct (Hkeep _ _ Hok Hread) as [Hok' Hread'].
    exists a, items. repeat split; try assumption.
    revert Hitems. apply elems_rel_impl.
    eapply Forall_impl; [|exact IH].
    intros t Ht x. now apply Ht.
  - intros (a & items & -> & Hok & Hread & Hitems).
    destruct (Hkeep _ _ Hok Hread) as [Hok' Hread'].
    exists a, items. repeat split; try assumption.
    revert Hitems. apply items_rel_impl.
    eapply Forall_impl; [|exact IH].
    intros kv Ht x. now apply Ht.
Qed.

Lemma items_rel_mono (ok ok' : addr -> Prop) (h h' : heap)
  (items : list (string * hval)) (d : dict) :
  (forall a o, ok a -> read h a = Some o -> ok' a /\ read h' a = Some o) ->
  items_rel (reprs ok h) items d -> items_rel (reprs ok' h') items d.
Proof.
  intro Hkeep. apply items_rel_impl, Forall_forall.
  intros kv _ x. now apply reprs_mono.
Qed.

Lemma items_rel_get (R : hval -> pyval -> Prop)
  (items : list (string * hval)) (d : dict) (k : string) :
  items_rel R items d ->
  match dict_get k items, dict_get k d with
  | Some x, Some t => R x t
  | None, None => True
  | _, _ => False
  end.
Proof.
  revert items. induction d as [|[k' t] d IH]; intros [|[k'' x] items];
    simpl; try tauto.
  intros (-> & Hx & Hrest).
  destruct (String.eqb k k'); [exact Hx | now apply IH].
Qed.

Lemma items_rel_set (R : hval -> pyval -> Prop)
  (items : list (string * hval)) (d : dict) (k : string)
  (x : hval) (t : pyval) :
  R x t -> items_rel R items d ->
  items_rel R (dict_set k x items) (dict_set k t d).
Proof.
  intro Hxt. revert items.
  induction d as [|[k' t'] d IH]; intros [|[k'' x'] items]; simpl; try tauto.
  intros (-> & Hx & Hrest).
  destruct (String.eqb k k'); simpl; auto.
Qed.

Lemma reprs_is_dict (ok : addr -> Prop) (h : heap) (v : hval) (t : pyval) :
  reprs ok h v t -> is_dict_at h v = is_dict t.
Proof.
  destruct t; simpl; try (intros ->; reflexivity).
  - intros (a & items & -> & _ & Hread & _). simpl. now rewrite Hread.
  - intros (a & items & -> & _ & Hread & _). simpl. now rewrite Hread.
Qed.

(** *** deepcopy *)

(** [v'] in [h'] is a copy made after [h]: it represents [t] through
    objects allocated after those of [h], and the values stored in a copied
    dictionary do not lead back to it. *)
Definition copy_of (h h' : heap) (v' : hval) (t : pyval) : Prop :=
  reprs (fun a => List.length h <= a) h' v' t
  /\ forall d, t = VDict d ->
       exists r items',
         v' = HRef r /\ read h' r = Some (ODict items')
         /\ items_rel (reprs (fun a => List.length h <= a /\ a <> r) h')
              items' d.

Lemma copy_elems_spec (l : list pyval) :
  Forall (fun t => forall ok h v, reprs ok h v t ->
            exists fuel0 new v',
              (forall fuel, fuel0 <= fuel ->
                       deepcopy fuel h v = Some (h ++ new, v'))
              /\ copy_of h (h ++ new) v' t) l ->
  forall ok h items,
    elems_rel (reprs ok h) items l ->
    exists fuel0 new items',
      (forall fuel, fuel0 <= fuel ->
               copy_elems (deepcopy fuel) h items = Some (h ++ new, items'))
      /\ elems_rel (reprs (fun a => List.length h <= a) (h ++ new)) items' l.
Proof.
  induction l as [|t l IHl]; intros IH ok h [|x items]; simpl; try tauto.
  - intros _. exists 0, [], []. split; [|exact I].
    intros fuel _. now rewrite app_nil_r.
  - intros [Hx Hrest].
    destruct (Forall_inv IH _ _ _ Hx) as (f1 & n1 & x' & Hrun1 & Hcopy1 & _).
    assert (Hrest' : elems_rel (reprs ok (h ++ n1)) items l).
    { revert Hrest. apply elems_rel_impl, Forall_forall.
      intros t' _ y. apply reprs_mono.
      intros a o Hok Hread. split; [exact Hok | now apply read_app]. }
    destruct (IHl (Forall_inv_tail IH) _ _ _ Hrest')
      as (f2 & n2 & items' & Hrun2 & Hitems2).
    exists (Nat.max f1 f2), (n1 ++ n2), (x' :: items'). split.
    + intros fuel Hfuel.
      rewrite Hrun1 by lia. rewrite Hrun2 by lia. now rewrite app_assoc.
    + rewrite app_assoc. split.
      * revert Hcopy1. apply reprs_mono.
        intros a o Hok Hread. split; [exact Hok | now apply read_app].
      * revert Hitems2. apply elems_rel_impl, Forall_forall.
        intros t' _ y. apply reprs_mono.
        intros a o Hok Hread. split; [|exact Hread].
        rewrite length_app in Hok. lia.
Qed.

Lemma copy_items_spec (d : dict) :
  Forall (fun kv => forall ok h v, reprs ok h v (snd kv) ->
            exists fuel0 new v',
              (forall fuel, fuel0 <= fuel ->
                       deepcopy fuel h v = Some (h ++ new, v'))
              /\ copy_of h (h ++ new) v' (snd kv)) d ->
  forall ok h items,
    items_rel (reprs ok h) items d ->
    exists fuel0 new items',
      (forall fuel, fuel0 <= fuel ->
               copy_items (deepcopy fuel) h items = Some (h ++ new, items'))
      /\ items_rel (reprs (fun a => List.length h <= a) (h ++ new)) items' d.
Proof.
  induction d as [|[k t] d IHd]; intros IH ok h [|[k' x] items]; simpl;
    try tauto.
  - intros _. exists 0, [], []. split; [|exact I].
    intros fuel _. now rewrite app_nil_r.
  - intros (-> & Hx & Hrest).
    destruct (Forall_inv IH _ _ _ Hx) as (f1 & n1 & x' & Hrun1 & Hcopy1 & _).
    assert (Hrest' : items_rel (reprs ok (h ++ n1)) items d).
    { revert Hrest. apply items_rel_mono.
      intros a o Hok Hread. split; [exact Hok | now apply read_app]. }
    destruct (IHd (Forall_inv_tail IH) _ _ _ Hrest')
      as (f2 & n2 & items' & Hrun2 & Hitems2).
    exists (Nat.max f1 f2), (n1 ++ n2), ((k, x') :: items'). split.
    + intros fuel Hfuel.
      rewrite Hrun1 by lia. rewrite Hrun2 by lia. now rewrite app_assoc.
    + rewrite app_assoc. repeat split.
      * revert Hcopy1. apply reprs_mono.
        intros a o Hok Hread. split; [exact Hok | now apply read_app].
      * revert Hitems2. apply items_rel_mono.
        intros a o Hok Hread. split; [|exact Hread].
        rewrite length_app in Hok. lia.
Qed.

(** With enough fuel [deepcopy] returns; the heap it started from is a
    prefix of the heap it leaves, and the copy lives after that prefix. *)
Lemma deepcopy_spec (t : pyval) :
  forall ok h v,
    reprs ok h v t ->
    exists fuel0 new v',
      (forall fuel, fuel0 <= fuel -> deepcopy fuel h v = Some (h ++ new, v'))
      /\ copy_of h (h ++ new) v' t.
Proof.
  induction t as [| | | | |l IH|d IH] using pyval_full_ind; intros ok h v Hv;
    try (exists 0, [], v; simpl in Hv; subst v;
         split; [intros [|fuel] _; cbn [deepcopy]; now rewrite app_nil_r|];
         split; [reflexivity | intros d' Hd'; discriminate Hd']).
  - destruct Hv as (a & items & -> & _ & Hread & Hitems).
    destruct (copy_elems_spec l IH _ _ _ Hitems)
      as (f & new & items' & Hrun & Hcopied).
    exists (S f), (new ++ [OList items']), (HRef (List.length (h ++ new))).
    split.
    + intros [|fuel] Hfuel; [lia|].
      cbn [deepcopy]. rewrite Hread, Hrun by lia.
      unfold alloc. now rewrite app_assoc.
    + split; [|intros d' Hd'; discriminate Hd'].
      rewrite app_assoc.
      exists (List.length (h ++ new)), items'.
      repeat split; [rewrite length_app; lia | apply read_alloc |].
      revert Hcopied. apply elems_rel_impl, Forall_forall.
      intros t' _ y. apply reprs_mono.
      intros a' o Hok Hr. split; [exact Hok | now apply read_app].
  - destruct Hv as (a & items & -> & _ & Hread & Hitems).
    destruct (copy_items_spec d IH _ _ _ Hitems)
      as (f & new & items' & Hrun & Hcopied).
    exists (S f), (new ++ [ODict items']), (HRef (List.length (h ++ new))).
    split.
    + intros [|fuel] Hfuel; [lia|].
      cbn [deepcopy]. rewrite Hread, Hrun by lia.
      unfold alloc. now rewrite app_assoc.
    + rewrite app_assoc. split.
      * exists (List.length (h ++ new)), items'.
        repeat split; [rewrite length_app; lia | apply read_alloc |].
        revert Hcopied. apply items_rel_mono.
        intros a' o Hok Hr. split; [exact Hok | now apply read_app].
      * intros d' [= <-]. exists (List.length (h ++ new)), items'.
        split; [reflexivity|]. split; [apply read_alloc|].
        revert Hcopied. apply items_rel_mono.
        intros a' o Hok Hr. repeat split; [exact Hok | | now apply read_app].
        apply read_lt in Hr. lia.
Qed.

End HeapFacts.

(** ** deep_merge on the heap *)

(** What the heap version owes to the merge of [base] with an overlay
    [tv]. *)
Definition merge_ok (tv : pyval) : Prop :=
  forall od, tv = VDict od ->
  forall okb oko h base overlay tb,
    Heap.reprs okb h (Heap.HRef base) (VDict tb) ->
    Heap.reprs oko h (Heap.HRef overlay) (VDict od) ->
    exists fuel0 new r,
      (forall fuel, fuel0 <= fuel ->
               Heap.deep_merge fuel h base overlay = Some (h ++ new, r))
      /\ Heap.reprs (fun a => List.length h <= a) (h ++ new) (Heap.HRef r)
           (VDict (deep_merge tb od)).

Lemma new_value_spec (h hc : Heap.heap) (r : Heap.addr)
  (ritems : list (string * Heap.hval)) (acc : dict)
  (key : string) (value : Heap.hval) (tv : pyval) :
  merge_ok tv ->
  Heap.items_rel
    (Heap.reprs (fun a => List.length h <= a /\ a <> r) hc) ritems acc ->
  Heap.reprs (fun a => a < List.length h) hc value tv ->
  exists fuel0 new x,
    (forall fuel, fuel0 <= fuel ->
             Heap.new_value (Heap.deep_merge fuel) (Heap.deepcopy fuel) hc
               ritems key value = Some (hc ++ new, x))
    /\ Heap.reprs (fun a => List.length hc <= a) (hc ++ new) x
         (match dict_get key acc with
          | Some cur => merge_value cur tv
          | None => tv
          end).
Proof.
  intros IH Hacc Hvalue. unfold Heap.new_value.
  pose proof (HeapFacts.items_rel_get _ _ _ key Hacc) as Hget.
  destruct (dict_get key ritems) as [xr|], (dict_get key acc) as [cur|];
    try contradiction.
  - rewrite (HeapFacts.reprs_is_dict _ _ _ _ Hget),
      (HeapFacts.reprs_is_dict _ _ _ _ Hvalue).
    destruct (is_dict cur && is_dict tv) eqn:Ekind.
    + apply andb_true_iff in Ekind. destruct Ekind as [Hc Ht].
      destruct cur as [| | | | | |rd]; try discriminate Hc.
      destruct tv as [| | | | | |vd]; try discriminate Ht.
      pose proof Hget as (rk & ? & -> & _). pose proof Hvalue as (vk & ? & -> & _).
      destruct (IH vd eq_refl _ _ _ _ _ _ Hget Hvalue)
        as (f & new & m & Hrun & Hm).
      exists f, new, (Heap.HRef m). split.
      * intros fuel Hfuel. now rewrite Hrun.
      * now rewrite merge_value_dict.
    + rewrite (merge_value_other _ _ Ekind).
      destruct (HeapFacts.deepcopy_spec tv _ _ _ Hvalue)
        as (f & new & x & Hrun & Hx & _).
      now exists f, new, x.
  - destruct (HeapFacts.deepcopy_spec tv _ _ _ Hvalue)
      as (f & new & x & Hrun & Hx & _).
    now exists f, new, x.
Qed.

Lemma merge_loop_spec (od : dict) :
  Forall (fun kv => merge_ok (snd kv)) od ->
  forall (h : Heap.heap) (r : Heap.addr),
    List.length h <= r ->
    forall hc oitems ritems acc,
      HeapFacts.grows h hc ->
      Heap.read hc r = Some (Heap.ODict ritems) ->
      Heap.items_rel
        (Heap.reprs (fun a => List.length h <= a /\ a <> r) hc) ritems acc ->
      Heap.items_rel (Heap.reprs (fun a => a < List.length h) hc) oitems od ->
      exists fuel0 hfinal ritems',
        (forall fuel, fuel0 <= fuel ->
                 Heap.merge_loop (Heap.deep_merge fuel) (Heap.deepcopy fuel) r
                   hc oitems = Some hfinal)
        /\ HeapFacts.grows h hfinal
        /\ Heap.read hfinal r = Some (Heap.ODict ritems')
        /\ Heap.items_rel
             (Heap.reprs (fun a => List.length h <= a /\ a <> r) hfinal)
             ritems' (deep_merge acc od).
Proof.
  induction od as [|[key tv] od IHod]; intros IH h r Hr hc oitems ritems acc
    Hgrows Hread Hacc Hover.
  - destruct oitems; [|contradiction].
    exists 0, hc, ritems. repeat split; auto.
  - destruct oitems as [|[key' value] rest]; [contradiction|].
    destruct Hover as (-> & Hvalue & Hrest).
    destruct (new_value_spec h hc r ritems acc key value tv
                (Forall_inv IH) Hacc Hvalue)
      as (f1 & n1 & x & Hrun1 & Hx).
    pose proof (HeapFacts.read_lt _ _ _ Hread) as Hrlt.
    pose proof (HeapFacts.grows_length _ _ Hgrows) as Hlen.
    set (h2 := Heap.write (hc ++ n1) r
                 (Heap.ODict (dict_set key x ritems))).
    assert (Hkeep : forall a o,
               a <> r -> Heap.read hc a = Some o -> Heap.read h2 a = Some o).
    { intros a o Hne Ha. unfold h2.
      rewrite HeapFacts.read_write_other by congruence. now apply HeapFacts.read_app. }
    assert (Hgrows2 : HeapFacts.grows h h2)
      by (apply HeapFacts.grows_write; [exact Hr | now apply HeapFacts.grows_app]).
    assert (Hread2 : Heap.read h2 r
                     = Some (Heap.ODict (dict_set key x ritems))).
    { apply HeapFacts.read_write_same. rewrite length_app. lia. }
    assert (Hacc2 : Heap.items_rel
                      (Heap.reprs (fun a => List.length h <= a /\ a <> r) h2)
                      (dict_set key x ritems)
                      (merge_item acc (key, tv))).
    { unfold merge_item. apply HeapFacts.items_rel_set.
      - revert Hx. apply HeapFacts.reprs_mono.
        intros a o Hok Ha. split; [lia|].
        unfold h2. rewrite HeapFacts.read_write_other by lia. exact Ha.
      - revert Hacc. apply HeapFacts.items_rel_mono.
        intros a o [Hok Hne] Ha. repeat split; auto. }
    assert (Hrest2 : Heap.items_rel
                       (Heap.reprs (fun a => a < List.length h) h2) rest od).
    { revert Hrest. apply HeapFacts.items_rel_mono.
      intros a o Hok Ha. split; [exact Hok|]. apply Hkeep; [lia | exact Ha]. }
    destruct (IHod (Forall_inv_tail IH) h r Hr h2 rest _ _
                Hgrows2 Hread2 Hacc2 Hrest2)
      as (f2 & hfinal & ritems' & Hrun2 & Hgf & Hrf & Hif).
    exists (Nat.max f1 f2), hfinal, ritems'. split; [|now repeat split].
    intros fuel Hfuel. cbn [Heap.merge_loop].
    rewrite Hread, Hrun1 by lia.
    rewrite (HeapFacts.read_app _ n1 _ _ Hread).
    apply Hrun2. lia.
Qed.

(** With enough fuel the heap version of [deep_merge] returns; the heap it
    started from is a prefix of the heap it leaves, and the dictionary it
    returns represents the merged tree through objects allocated after that
    prefix. *)
Lemma deep_merge_heap_spec (tv : pyval) : merge_ok tv.
Proof.
  induction tv as [| | | | | |od IH] using pyval_dict_ind;
    intros od' Hod'; try discriminate Hod'.
  injection Hod' as <-.
  intros okb oko h base overlay tb Hbase Hover.
  destruct (HeapFacts.deepcopy_spec _ _ _ _ Hbase)
    as (f1 & n1 & v' & Hrun1 & Hfresh & Hshape).
  destruct (Hshape tb eq_refl) as (r & ritems & -> & Hread & Hitems).
  destruct Hfresh as (r' & ? & [= <-] & Hr & _).
  destruct Hover as (o' & oitems & [= <-] & _ & Hreado & Hoitems).
  assert (Hoitems' : Heap.items_rel
                       (Heap.reprs (fun a => a < List.length h) (h ++ n1))
                       oitems od).
  { revert Hoitems. apply HeapFacts.items_rel_mono.
    intros a o _ Ha.
    split; [now apply HeapFacts.read_lt in Ha | now apply HeapFacts.read_app]. }
  destruct (merge_loop_spec od IH h r Hr (h ++ n1) oitems ritems tb
              (HeapFacts.grows_app _ _ _ (HeapFacts.grows_refl h)) Hread Hitems Hoitems')
    as (f2 & hfinal & ritems' & Hrun2 & [new ->] & Hrf & Hif).
  exists (S (Nat.max f1 f2)), new, r. split.
  - intros [|fuel] Hfuel; [lia|].
    cbn [Heap.deep_merge]. rewrite Hrun1, Hreado by lia.
    now rewrite Hrun2 by lia.
  - exists r, ritems'. repeat split; try assumption.
    revert Hif. apply HeapFacts.items_rel_mono.
    intros a o [Hok _] Ha. now split.
Qed.

(** A heap holding [{"database": {"host": "first", "port": 5432},
    "tags": [1]}] at address 1 and [{"database": {"host": "second",
    "ssl": True}, "tags": 7}] at address 4. *)
Definition sample_heap : Heap.heap :=
  [ Heap.ODict [("host", Heap.HStr "first"); ("port", Heap.HInt 5432)];
    Heap.ODict [("database", Heap.HRef 0); ("tags", Heap.HRef 2)];
    Heap.OList [Heap.HInt 1];
    Heap.ODict [("host", Heap.HStr "second"); ("ssl", Heap.HBool true)];
    Heap.ODict [("database", Heap.HRef 3); ("tags", Heap.HInt 7)] ].

Definition sample_base : dict :=
  [("database", VDict [("host", VStr "first"); ("port", VInt 5432)]);
   ("tags", VList [VInt 1])].

Definition sample_overlay : dict :=
  [("database", VDict [("host", VStr "second"); ("ssl", VBool true)]);
   ("tags", VInt 7)].

Example deep_merge_on_sample_heap :
  Heap.deep_merge 3 sample_heap 1 4
  = Some
      (sample_heap
         ++ [ Heap.ODict [("host", Heap.HStr "first"); ("port", Heap.HInt 5432)];
              Heap.OList [Heap.HInt 1];
              Heap.ODict [("database", Heap.HRef 8); ("tags", Heap.HInt 7)];
              Heap.ODict [("host", Heap.HStr "second"); ("port", Heap.HInt 5432);
                          ("ssl", Heap.HBool true)] ],
       7).
Proof. reflexivity. Qed.

(** C4: for dictionaries [base] and [overlay] (the keys of a dictionary
    being unique), the keys of [deep_merge(base, overlay)] are those of
    [base] and those of [overlay]; a key holding a nested structure in both
    holds the merge of the two; any other key of the overlay holds the
    overlay's value; a key of [base] alone keeps its value; the merge of
    well-formed dictionaries is well formed.  On the heap,
    the call returns (given enough fuel for the depth of the data), every
    object that existed before the call is unchanged, so [base] and
    [overlay] still represent the same trees, and the returned dictionary is
    made of objects allocated by the call only. *)
Theorem deep_merge_new_tree (h : Heap.heap) (base overlay : Heap.addr)
  (tb tov : dict) :
  Heap.reprs (fun _ => True) h (Heap.HRef base) (VDict tb) ->
  Heap.reprs (fun _ => True) h (Heap.HRef overlay) (VDict tov) ->
  nodup_keys (dict_keys tov) = true ->
  let merged := deep_merge tb tov in
  (forall k,
      In k (dict_keys merged) <-> In k (dict_keys tb) \/ In k (dict_keys tov))
  /\ (forall k rd vd,
        dict_get k tb = Some (VDict rd) ->
        dict_get k tov = Some (VDict vd) ->
        dict_get k merged = Some (VDict (deep_merge rd vd)))
  /\ (forall k value,
        dict_get k tov = Some value ->
        match dict_get k tb with
        | Some cur => is_dict cur && is_dict value = false
        | None => True
        end ->
        dict_get k merged = Some value)
  /\ (forall k, dict_get k tov = None -> dict_get k merged = dict_get k tb)
  /\ (wf_dict tb = true -> wf_dict tov = true -> wf_dict merged = true)
  /\ exists fuel0 new result,
       (forall fuel, fuel0 <= fuel ->
                Heap.deep_merge fuel h base overlay = Some (h ++ new, result))
       /\ Heap.reprs (fun a => List.length h <= a) (h ++ new)
            (Heap.HRef result) (VDict merged)
       /\ Heap.reprs (fun _ => True) (h ++ new) (Heap.HRef base) (VDict tb)
       /\ Heap.reprs (fun _ => True) (h ++ new) (Heap.HRef overlay) (VDict tov).
Proof.
  intros Hbase Hover Hnd merged. apply nodup_keys_NoDup in Hnd.
  destruct (deep_merge_by_key tb tov Hnd) as (Hkeys & Hboth & Hover' & Hbase').
  repeat (split; [assumption|]).
  split; [intros Hwb Hwo; now apply deep_merge_wf|].
  destruct (deep_merge_heap_spec (VDict tov) tov eq_refl _ _ h base overlay tb
              Hbase Hover) as (fuel0 & new & result & Hrun & Hres).
  exists fuel0, new, result. repeat split; try assumption.
  - revert Hbase. apply HeapFacts.reprs_mono.
    intros a o _ Ha. split; [exact I | now apply HeapFacts.read_app].
  - revert Hover. apply HeapFacts.reprs_mono.
    intros a o _ Ha. split; [exact I | now apply HeapFacts.read_app].
Qed.

Lemma deep_merge_new_tree_witness :
  dict_get "database" (deep_merge sample_base sample_overlay)
  = Some (VDict [("host", VStr "second"); ("port", VInt 5432);
                 ("ssl", VBool true)])
  /\ exists fuel0 new result,
       (forall fuel, fuel0 <= fuel ->
                Heap.deep_merge fuel sample_heap 1 4
                = Some (sample_heap ++ new, result))
       /\ Heap.reprs (fun a => 5 <= a) (sample_heap ++ new) (Heap.HRef result)
            (VDict (deep_merge sample_base sample_overlay)).
Proof.
  assert (Hbase : Heap.reprs (fun _ => True) sample_heap (Heap.HRef 1)
                    (VDict sample_base)).
  { simpl. do 2 eexists. repeat split; try reflexivity.
    - do 2 eexists. repeat split; reflexivity.
    - do 2 eexists. repeat split; reflexivity. }
  assert (Hover : Heap.reprs (fun _ => True) sample_heap (Heap.HRef 4)
                    (VDict sample_overlay)).
  { simpl. do 2 eexists. repeat split; try reflexivity.
    do 2 eexists. repeat split; reflexivity. }
  destruct (deep_merge_new_tree sample_heap 1 4 sample_base sample_overlay
              Hbase Hover eq_refl)
    as (_ & Hboth & _ & _ & _ & fuel0 & new & result & Hrun & Hres & _).
  split.
  - exact (Hboth "database" _ _ eq_refl eq_refl).
  - exists fuel0, new, result. split; [exact Hrun | exact Hres].
Defined.


(** * Further properties of the code *)

(** ** Assignment and lookup along a path *)

Lemma path_value_set_path (keys : list string) :
  keys <> [] ->
  forall (d : dict) (v : pyval),
    path_value (VDict (set_path d keys v)) keys = Some v.
Proof.
  induction keys as [|k rest IH]; intros Hne d v; [contradiction|].
  destruct rest as [|k2 rest].
  - cbn [set_path path_value]. now rewrite dict_get_set_same.
  - rewrite set_path_cons. cbn [path_value]. rewrite dict_get_set_same.
    apply IH. discriminate.
Qed.

Lemma set_path_head (d : dict) (k : string) (rest : list string) (v : pyval) :
  exists x, set_path d (k :: rest) v = dict_set k x d.
Proof.
  destruct rest as [|k2 rest].
  - now exists v.
  - rewrite set_path_cons. eexists. reflexivity.
Qed.

Lemma path_value_child_of (d : dict) (k : string) (q : list string) :
  q <> [] ->
  path_value (VDict (child_of k d)) q
  = match dict_get k d with
    | Some x => path_value x q
    | None => None
    end.
Proof.
  intro Hq. unfold child_of.
  destruct q as [|b q]; [contradiction|].
  destruct (dict_get k d) as [[]|]; reflexivity.
Qed.

Lemma set_path_step (d : dict) (k : string) (keys : list string) (v : pyval) :
  keys <> [] ->
  set_path d (k :: keys) v
  = dict_set k (VDict (set_path (child_of k d) keys v)) d.
Proof. destruct keys; [contradiction | reflexivity]. Qed.

Lemma path_value_set_path_other (pre : list string) (a b : string)
  (r1 r2 : list string) (v : pyval) :
  a <> b ->
  forall d : dict,
    path_value (VDict (set_path d (pre ++ a :: r1) v)) (pre ++ b :: r2)
    = path_value (VDict d) (pre ++ b :: r2).
Proof.
  intro Hab. induction pre as [|k pre IH]; intro d.
  - cbn [app]. destruct (set_path_head d a r1 v) as [x ->].
    cbn [path_value]. rewrite dict_get_set_other by congruence. reflexivity.
  - cbn [app]. rewrite set_path_step by now destruct pre.
    cbn [path_value].
    rewrite dict_get_set_same, IH, path_value_child_of; [reflexivity|].
    now destruct pre.
Qed.

Lemma set_path_twice (keys : list string) (v v' : pyval) :
  forall d : dict, set_path (set_path d keys v') keys v = set_path d keys v.
Proof.
  induction keys as [|k rest IH]; intro d; [reflexivity|].
  destruct rest as [|k2 rest].
  - cbn [set_path]. apply dict_set_set.
  - rewrite !set_path_cons, child_of_set, dict_set_set, IH. reflexivity.
Qed.

(** X1: a value assigned with [set_nested_value] is the value that
    [get_nested_value] then returns at the same path, whatever the tree held
    before, and [has_nested_key] finds the path. *)
Theorem set_then_get (data : dict) (key_path : string) (value default : pyval)
  (c : ascii) (sep : string) :
  exists data',
    set_nested_value data key_path value (String c sep) = Ok data'
    /\ get_nested_value data' key_path default (String c sep) = Ok value
    /\ has_nested_key data' key_path (String c sep) = Ok true.
Proof.
  eexists. split; [apply set_nested_value_total|].
  rewrite get_nested_value_path, has_nested_key_path.
  rewrite path_value_set_path by apply split_from_not_nil.
  split; reflexivity.
Qed.

(** ** Assignment in place

    [set_nested_value] assigns in the dictionary objects it walks.  On a
    heap in which the tree below the dictionary is reached along one path
    only, the call does to the heap what [set_path] does to the tree. *)

Module HeapSetFacts.

Import Heap HeapFacts.


























End HeapSetFacts.

(** A dictionary held at two places: the assignment below one of them shows
    below the other. *)
Example set_nested_value_shared :
  Heap.set_nested_value
    [Heap.ODict [("top", Heap.HRef 1)];
     Heap.ODict [("a", Heap.HRef 2); ("b", Heap.HRef 2)];
     Heap.ODict [("x", Heap.HInt 1)]]
    0 "top.a.y" (Heap.HInt 2) "."
  = Ok (Some
      [Heap.ODict [("top", Heap.HRef 1)];
       Heap.ODict [("a", Heap.HRef 2); ("b", Heap.HRef 2)];
       Heap.ODict [("x", Heap.HInt 1); ("y", Heap.HInt 2)]]).
Proof. reflexivity. Qed.



(** X3: assigning twice at the same path leaves the tree that the second
    assignment alone would leave. *)
Theorem set_twice_keeps_last (data : dict) (key_path : string)
  (value value' : pyval) (c : ascii) (sep : string) :
  (data1 <- set_nested_value data key_path value' (String c sep) ;;
   set_nested_value data1 key_path value (String c sep))
  = set_nested_value data key_path value (String c sep).
Proof.
  rewrite !set_nested_value_total. cbn [bind].
  rewrite set_nested_value_total. now rewrite set_path_twice.
Qed.

(** ** Merging, path by path *)

Lemma wf_value_dict (d : dict) : wf_value (VDict d) = wf_dict d.
Proof. reflexivity. Qed.

Lemma wf_dict_get (d : dict) (k : string) (x : pyval) :
  wf_dict d = true -> dict_get k d = Some x -> wf_value x = true.
Proof.
  intros Hwf Hget. apply wf_dict_unfold in Hwf. destruct Hwf as [_ Hall].
  rewrite Forall_forall in Hall.
  exact (Hall _ (dict_get_In _ _ _ Hget)).
Qed.

Lemma path_value_not_dict (x : pyval) (k : string) (rest : list string) :
  is_dict x = false -> path_value x (k :: rest) = None.
Proof. now destruct x. Qed.

(** The overlay has the path down to a value that is not a dictionary. *)
Lemma deep_merge_path_overlay (keys : list string) :
  forall (base overlay : dict) (v : pyval),
    wf_dict overlay = true ->
    path_value (VDict overlay) keys = Some v ->
    is_dict v = false ->
    path_value (VDict (deep_merge base overlay)) keys = Some v.
Proof.
  induction keys as [|k rest IH]; intros base overlay v Hwf Hpath Hleaf.
  - injection Hpath as <-. discriminate.
  - pose proof (proj1 (proj1 (wf_dict_unfold overlay) Hwf)) as Hnd.
    cbn [path_value] in Hpath |- *.
    rewrite (deep_merge_get _ _ _ Hnd).
    destruct (dict_get k overlay) as [x|] eqn:Hx; [|discriminate].
    destruct rest as [|k2 rest].
    + injection Hpath as ->. cbn [path_value].
      destruct (dict_get k base) as [cur|]; [|reflexivity].
      rewrite merge_value_other; [reflexivity|].
      rewrite Hleaf. apply andb_false_r.
    + destruct x as [| | | | | |xd]; try discriminate.
      destruct (dict_get k base) as [[| | | | | |rd]|]; try exact Hpath.
      rewrite merge_value_dict. apply IH; [|exact Hpath | exact Hleaf].
      exact (wf_dict_get _ _ _ Hwf Hx).
Qed.

(** Walking down [keys], a dictionary of the tree lacks the next key. *)
Fixpoint path_leaves_tree (current_data : pyval) (keys : list string) : bool :=
  match keys with
  | [] => false
  | key :: rest =>
      match current_data with
      | VDict d =>
          match dict_get key d with
          | Some x => path_leaves_tree x rest
          | None => true
          end
      | _ => false
      end
  end.

Lemma path_leaves_tree_None (keys : list string) :
  forall x, path_leaves_tree x keys = true -> path_value x keys = None.
Proof.
  induction keys as [|k rest IH]; intros x H; [discriminate|].
  destruct x as [| | | | | |d]; try discriminate.
  cbn [path_leaves_tree path_value] in *.
  destruct (dict_get k d); [now apply IH | reflexivity].
Qed.

Lemma deep_merge_path_base (keys : list string) :
  forall base overlay : dict,
    wf_dict overlay = true ->
    path_leaves_tree (VDict overlay) keys = true ->
    path_value (VDict (deep_merge base overlay)) keys
    = path_value (VDict base) keys.
Proof.
  induction keys as [|k rest IH]; intros base overlay Hwf Hout;
    [discriminate|].
  pose proof (proj1 (proj1 (wf_dict_unfold overlay) Hwf)) as Hnd.
  cbn [path_leaves_tree] in Hout. cbn [path_value].
  rewrite (deep_merge_get _ _ _ Hnd).
  destruct (dict_get k overlay) as [x|] eqn:Hx; [|reflexivity].
  destruct rest as [|k2 rest]; [discriminate|].
  destruct x as [| | | | | |xd]; try discriminate.
  pose proof (wf_dict_get _ _ _ Hwf Hx) as Hxd.
  destruct (dict_get k base) as [cur|].
  - destruct cur as [| | | | | |rd];
      try (cbn [merge_value];
           rewrite (path_leaves_tree_None _ _ Hout); reflexivity).
    rewrite merge_value_dict. now apply IH.
  - now rewrite (path_leaves_tree_None _ _ Hout).
Qed.

(** X4: in the result of [deep_merge], a path that the overlay takes to a
    value other than a dictionary leads to that value, whatever the base
    holds there. *)
Theorem deep_merge_overlay_wins (base overlay : dict) (key_path : string)
  (value default : pyval) :
  wf_dict overlay = true ->
  has_nested_key overlay key_path "." = Ok true ->
  get_nested_value overlay key_path default "." = Ok value ->
  is_dict value = false ->
  get_nested_value (deep_merge base overlay) key_path default "." = Ok value.
Proof.
  intros Hwf Hhas Hget Hleaf.
  rewrite has_nested_key_path in Hhas.
  rewrite get_nested_value_path in Hget |- *.
  destruct (path_value (VDict overlay) _) as [v|] eqn:Hpath; [|discriminate].
  injection Hget as ->.
  now rewrite (deep_merge_path_overlay _ base overlay value Hwf Hpath Hleaf).
Qed.

Lemma deep_merge_overlay_wins_witness :
  get_nested_value
    (deep_merge [("db", VDict [("host", VStr "localhost"); ("port", VInt 5432)])]
                [("db", VDict [("host", VStr "remote")])])
    "db.host" VNone "."
  = Ok (VStr "remote").
Proof.
  apply deep_merge_overlay_wins; reflexivity.
Defined.

(** X5: a path on which the overlay stops at a dictionary that lacks the
    next key is looked up in the result of [deep_merge] as it is in the
    base. *)
Theorem deep_merge_keeps_base (base overlay : dict) (key_path : string)
  (default : pyval) :
  wf_dict overlay = true ->
  path_leaves_tree (VDict overlay) (Py.split_from "." 0 "" key_path) = true ->
  get_nested_value (deep_merge base overlay) key_path default "."
  = get_nested_value base key_path default "."
  /\ has_nested_key (deep_merge base overlay) key_path "."
     = has_nested_key base key_path ".".
Proof.
  intros Hwf Hout.
  rewrite !get_nested_value_path, !has_nested_key_path.
  now rewrite (deep_merge_path_base _ base overlay Hwf Hout).
Qed.

Lemma deep_merge_keeps_base_witness :
  get_nested_value
    (deep_merge [("db", VDict [("host", VStr "localhost"); ("port", VInt 5432)])]
                [("db", VDict [("host", VStr "remote")])])
    "db.port" VNone "."
  = Ok (VInt 5432).
Proof.
  rewrite (proj1 (deep_merge_keeps_base
                    [("db", VDict [("host", VStr "localhost");
                                   ("port", VInt 5432)])]
                    [("db", VDict [("host", VStr "remote")])]
                    "db.port" VNone eq_refl eq_refl)).
  reflexivity.
Defined.

(** *** Merging the same overlay again *)

Lemma dict_set_same_value (d : dict) (k : string) (v : pyval) :
  dict_get k d = Some v -> dict_set k v d = d.
Proof.
  induction d as [|[k' x] d IH]; [discriminate|].
  cbn [dict_get dict_set]. destruct (String.eqb k k') eqn:E.
  - apply String.eqb_eq in E. subst k'. now intros [= ->].
  - intro H. now rewrite IH.
Qed.

Lemma deep_merge_absorbed (overlay base : dict) :
  Forall (fun kv => exists cur,
              dict_get (fst kv) base = Some cur
              /\ merge_value cur (snd kv) = cur) overlay ->
  deep_merge base overlay = base.
Proof.
  unfold deep_merge.
  induction overlay as [|[k v] overlay IH]; intro H; [reflexivity|].
  cbn [fold_left].
  destruct (Forall_inv H) as (cur & Hcur & Hm). cbn [fst snd] in Hcur, Hm.
  assert (Hstep : merge_item base (k, v) = base).
  { unfold merge_item. rewrite Hcur, Hm. now apply dict_set_same_value. }
  rewrite Hstep. apply IH. exact (Forall_inv_tail H).
Qed.

Lemma merge_value_again (value : pyval) :
  wf_value value = true ->
  (forall cur, merge_value (merge_value cur value) value = merge_value cur value)
  /\ merge_value value value = value.
Proof.
  induction value as [| | | | | |vd IH] using pyval_dict_ind;
    try (intros _; split; [intro cur|]; now rewrite !merge_value_other
           by apply andb_false_r).
  intro Hwf. rewrite wf_value_dict in Hwf.
  pose proof (proj1 (wf_dict_unfold vd) Hwf) as [Hnd Hall].
  assert (Hagain : forall rd,
             deep_merge (deep_merge rd vd) vd = deep_merge rd vd).
  { intro rd. apply deep_merge_absorbed.
    rewrite Forall_forall in *. intros [k v] Hin. cbn [fst snd].
    rewrite (deep_merge_get _ _ _ Hnd), (In_dict_get _ _ _ Hnd Hin).
    destruct (IH _ Hin (Hall _ Hin)) as [Hcur Hself]. cbn [snd] in *.
    eexists. split; [reflexivity|].
    destruct (dict_get k rd) as [cur|]; [apply Hcur | apply Hself]. }
  assert (Hself : deep_merge vd vd = vd).
  { rewrite <- (deep_merge_empty_base vd Hnd) at 1 3. apply Hagain. }
  split.
  - intro cur. destruct cur as [| | | | | |rd];
      try (match goal with
           | |- merge_value (merge_value ?c _) _ = _ =>
               change (merge_value c (VDict vd)) with (VDict vd)
           end;
           now rewrite merge_value_dict, Hself).
    now rewrite !merge_value_dict, Hagain.
  - now rewrite merge_value_dict, Hself.
Qed.

(** X6: merging an overlay a second time changes nothing, and a tree merged
    with itself is that tree. *)
Theorem deep_merge_again (base overlay : dict) :
  wf_dict overlay = true ->
  deep_merge (deep_merge base overlay) overlay = deep_merge base overlay
  /\ deep_merge overlay overlay = overlay.
Proof.
  intro Hwf.
  pose proof (merge_value_again (VDict overlay) Hwf) as [Hcur Hself].
  split.
  - specialize (Hcur (VDict base)). rewrite !merge_value_dict in Hcur.
    now injection Hcur.
  - rewrite merge_value_dict in Hself. now injection Hself.
Qed.

Lemma deep_merge_again_witness :
  deep_merge
    (deep_merge [("db", VDict [("port", VInt 1)]); ("debug", VBool true)]
                [("db", VDict [("host", VStr "h")]); ("debug", VDict [])])
    [("db", VDict [("host", VStr "h")]); ("debug", VDict [])]
  = deep_merge [("db", VDict [("port", VInt 1)]); ("debug", VBool true)]
               [("db", VDict [("host", VStr "h")]); ("debug", VDict [])].
Proof.
  exact (proj1 (deep_merge_again
                  [("db", VDict [("port", VInt 1)]); ("debug", VBool true)]
                  [("db", VDict [("host", VStr "h")]); ("debug", VDict [])]
                  eq_refl)).
Defined.

(** ** The entries of the flat form *)

Lemma leaves_path_value (v : pyval) :
  wf_value v = true ->
  forall p x, In (p, x) (leaves v) ->
              path_value v p = Some x /\ is_dict x = false.
Proof.
  induction v as [| | | | | |d IH] using pyval_dict_ind;
    try (intros _ p x []).
  rewrite wf_value_dict. intros Hwf p x Hin.
  induction d as [|[k y] d IHd]; [destruct Hin|].
  apply wf_dict_cons in Hwf. destruct Hwf as (Hk & Hy & Hd).
  rewrite leaves_cons in Hin. apply in_app_or in Hin.
  destruct Hin as [Hin|Hin].
  - unfold item_leaves in Hin. cbn [fst snd] in Hin.
    pose proof (Forall_inv IH) as IHy. cbn [snd] in IHy.
    destruct y as [| | | | | |dy];
      try (destruct Hin as [[= <- <-]|[]]; cbn [path_value dict_get];
           rewrite String.eqb_refl; split; reflexivity).
    apply in_map_iff in Hin. destruct Hin as ([p' x'] & [= <- <-] & Hin).
    cbn [path_value dict_get]. rewrite String.eqb_refl.
    exact (IHy Hy _ _ Hin).
  - destruct (leaves_paths _ _ Hin) as (k' & rest & Hp & Hk').
    cbn [fst] in Hp. subst p.
    destruct (IHd (Forall_inv_tail IH) Hd Hin) as [Hpath Hleaf].
    split; [|exact Hleaf].
    cbn [path_value dict_get] in Hpath |- *.
    destruct (String.eqb k' k) eqn:E; [|exact Hpath].
    apply String.eqb_eq in E. subst k'. contradiction.
Qed.

(** Every entry of the flat form holds a value other than a dictionary, and
    the tree has that value at the entry's key. *)
Lemma flat_entries_resolve (t : dict) (c : ascii) (key : string)
  (value default : pyval) :
  wf_dict t = true ->
  keys_free c (VDict t) = true ->
  top_empty_key_ok t = true ->
  In (key, value) (flatten_dict t (String c "") "") ->
  is_dict value = false
  /\ get_nested_value t key default (String c "") = Ok value
  /\ has_nested_key t key (String c "") = Ok true.
Proof.
  intros Hwf Hfree Htop Hin.
  pose proof (proj1 (proj1 (wf_dict_unfold t) Hwf)) as Hnd.
  assert (Hflat : flatten_value (String c "") "" (VDict t)
                  = map (flat_of c []) (leaves (VDict t))).
  { apply (flatten_leaves c (VDict t) t eq_refl []).
    - now left.
    - intros _. now apply top_empty_key_ok_In.
    - now apply flat_keys_NoDup. }
  unfold flatten_dict in Hin. rewrite Hflat in Hin.
  apply in_map_iff in Hin. destruct Hin as ([p x] & Heq & Hin).
  unfold flat_of in Heq. cbn [fst snd app] in Heq.
  injection Heq as <- <-.
  destruct (leaves_path_value (VDict t) Hwf _ _ Hin) as [Hpath Hleaf].
  pose proof (leaves_keys_free c _ Hfree) as Hall.
  pose proof (leaves_paths_nonempty (VDict t)) as Hpaths.
  rewrite Forall_forall in Hall, Hpaths.
  rewrite get_nested_value_path, has_nested_key_path.
  rewrite (split_join c p (Hpaths _ Hin) (Hall _ Hin)), Hpath.
  repeat split. exact Hleaf.
Qed.

Lemma join_split_from (c : ascii) (s : string) :
  forall cur : string,
    Py.join (String c "") (Py.split_from (String c "") 0 cur s)
    = (cur ++ s)%string.
Proof.
  induction s as [|d s IH]; intro cur.
  - cbn [Py.split_from Py.join]. now rewrite append_empty_r.
  - cbn [Py.split_from]. rewrite prefix_char.
    destruct (Ascii.eqb c d) eqn:E.
    + apply Ascii.eqb_eq in E. subst d.
      change (String.length (String c "") - 1) with 0.
      pose proof (split_from_not_nil (String c "") 0 "" s) as Hne.
      specialize (IH ""%string).
      destruct (Py.split_from (String c "") 0 "" s) as [|x l];
        [contradiction|].
      change (Py.join (String c "") (cur :: x :: l))
        with ((cur ++ String c "" ++ Py.join (String c "") (x :: l))%string).
      rewrite IH. reflexivity.
    + rewrite IH, string_app_assoc. reflexivity.
Qed.

Lemma item_leaves_incl (kv : string * pyval) (d : dict) :
  In kv d -> incl (item_leaves kv) (leaves (VDict d)).
Proof.
  induction d as [|kv' d IH]; [intros []|].
  intros [->|Hin] pl Hpl; rewrite leaves_cons; apply in_or_app.
  - now left.
  - right. now apply IH.
Qed.

Lemma path_value_leaves (p : list string) :
  forall (v x : pyval),
    p <> [] -> path_value v p = Some x -> is_dict x = false ->
    In (p, x) (leaves v).
Proof.
  induction p as [|k rest IH]; intros v x Hne Hpath Hleaf; [contradiction|].
  destruct v as [| | | | | |d]; try discriminate.
  cbn [path_value] in Hpath.
  destruct (dict_get k d) as [y|] eqn:Hy; [|discriminate].
  apply (item_leaves_incl (k, y) d (dict_get_In _ _ _ Hy)).
  unfold item_leaves. cbn [fst snd].
  destruct rest as [|k2 rest].
  - injection Hpath as ->. destruct x; try discriminate; now left.
  - destruct y as [| | | | | |dy]; try discriminate.
    apply in_map_iff. exists (k2 :: rest, x). split; [reflexivity|].
    apply IH; [discriminate | exact Hpath | exact Hleaf].
Qed.

(** X7: with a one-character separator that no key contains, the flat form
    of a tree has the value [value] at [key] exactly when the tree has the
    path [key] and holds [value], which is not a dictionary, there. *)
Theorem flatten_dict_entries (t : dict) (c : ascii) (key : string)
  (value default : pyval) :
  wf_dict t = true ->
  keys_free c (VDict t) = true ->
  top_empty_key_ok t = true ->
  dict_get key (flatten_dict t (String c "") "") = Some value
  <-> (has_nested_key t key (String c "") = Ok true
       /\ get_nested_value t key default (String c "") = Ok value
       /\ is_dict value = false).
Proof.
  intros Hwf Hfree Htop. split.
  - intro Hget. apply dict_get_In in Hget.
    destruct (flat_entries_resolve t c key value default Hwf Hfree Htop Hget)
      as (Hleaf & Hval & Hhas).
    now repeat split.
  - intros (Hhas & Hval & Hleaf).
    pose proof (proj1 (proj1 (wf_dict_unfold t) Hwf)) as Hnd.
    assert (Hflat : flatten_dict t (String c "") ""
                    = map (flat_of c []) (leaves (VDict t))).
    { apply (flatten_leaves c (VDict t) t eq_refl []).
      - now left.
      - intros _. now apply top_empty_key_ok_In.
      - now apply flat_keys_NoDup. }
    rewrite Hflat. apply In_dict_get; [now apply flat_keys_NoDup|].
    rewrite has_nested_key_path in Hhas.
    rewrite get_nested_value_path in Hval.
    destruct (path_value (VDict t) _) as [x|] eqn:Hpath; [|discriminate].
    injection Hval as ->.
    apply in_map_iff.
    exists (Py.split_from (String c "") 0 "" key, value). split.
    + unfold flat_of. cbn [fst snd app]. now rewrite join_split_from.
    + apply path_value_leaves; [apply split_from_not_nil | exact Hpath
                                | exact Hleaf].
Qed.

Lemma flatten_dict_entries_witness :
  dict_get "database.credentials.user"
    (flatten_dict
       [("database", VDict [("host", VStr "localhost");
                            ("credentials", VDict [("user", VStr "admin")])])]
       "." "")
  = Some (VStr "admin").
Proof.
  apply (flatten_dict_entries
           [("database", VDict [("host", VStr "localhost");
                                ("credentials", VDict [("user", VStr "admin")])])]
           "." "database.credentials.user" (VStr "admin") VNone
           eq_refl eq_refl eq_refl).
  repeat split.
Defined.

(** ** Environment names *)

Lemma env_of_value_alias (s : string) (e : Environment) :
  env_of_value s = Some e -> dict_get s env_map = Some e.
Proof.
  unfold env_of_value. intro H.
  pose proof (find_some _ _ H) as [_ Heq].
  apply String.eqb_eq in Heq. subst s. now destruct e.
Qed.

(** X8: [from_string] returns an environment exactly when the lower-cased,
    stripped string is one of the aliases of the table, and then the one the
    table gives; the lookup by enumeration value that follows a miss in the
    table never finds anything.  In particular every canonical name is read
    back as its environment. *)
Theorem from_string_aliases (env_str : string) (e : Environment) :
  (from_string env_str = Ok e
   <-> dict_get (Py.strip (Py.lower env_str)) env_map = Some e)
  /\ from_string (env_value e) = Ok e.
Proof.
  split; [|now destruct e].
  unfold from_string.
  destruct (dict_get (Py.strip (Py.lower env_str)) env_map) as [e'|] eqn:Hmap.
  - split; intros [= ->]; reflexivity.
  - destruct (env_of_value (Py.strip (Py.lower env_str))) as [e'|] eqn:Hval.
    + apply env_of_value_alias in Hval. congruence.
    + split; discriminate.
Qed.

(** ** Overrides from environment variables *)

(** Two paths part ways: at some segment, after equal segments, they carry
    different keys. *)
Fixpoint paths_part (p q : list string) : bool :=
  match p, q with
  | a :: p', b :: q' => if String.eqb a b then paths_part p' q' else true
  | _, _ => false
  end.

Lemma paths_part_split (p : list string) :
  forall q, paths_part p q = true ->
            exists pre a b r1 r2,
              p = pre ++ a :: r1 /\ q = pre ++ b :: r2 /\ a <> b.
Proof.
  induction p as [|a p IH]; intros [|b q] H; try discriminate.
  cbn [paths_part] in H. destruct (String.eqb a b) eqn:E.
  - apply String.eqb_eq in E. subst b.
    destruct (IH _ H) as (pre & a' & b' & r1 & r2 & -> & -> & Hne).
    now exists (a :: pre), a', b', r1, r2.
  - apply String.eqb_neq in E. now exists [], a, b, p, q.
Qed.

Lemma path_value_set_path_part (p q : list string) (d : dict) (v : pyval) :
  paths_part p q = true ->
  path_value (VDict (set_path d q v)) p = path_value (VDict d) p.
Proof.
  intro H. destruct (paths_part_split _ _ H)
    as (pre & a & b & r1 & r2 & -> & -> & Hne).
  apply path_value_set_path_other. congruence.
Qed.

Lemma override_item_keeps (prefix : string) (p : list string) (x : pyval)
  (post : environ_t) :
  Forall (fun kv =>
            Py.startswith (fst kv) prefix = true ->
            paths_part p
              (Py.split_from "." 0 ""
                 (EnvironmentManager.config_key_of prefix (fst kv))) = true)
    post ->
  forall acc : dict,
    path_value (VDict acc) p = Some x ->
    exists overrides,
      fold_left (EnvironmentManager.override_item prefix) post (Ok acc)
      = Ok overrides
      /\ path_value (VDict overrides) p = Some x.
Proof.
  induction post as [|kv post IH]; intros Hall acc Hacc; cbn [fold_left].
  - now exists acc.
  - pose proof (Forall_inv Hall) as Hkv.
    unfold EnvironmentManager.override_item at 2. cbn [bind].
    cbn beta in Hkv.
    destruct (Py.startswith (fst kv) prefix).
    + rewrite set_nested_value_total.
      apply IH; [exact (Forall_inv_tail Hall)|].
      now rewrite path_value_set_path_part by now apply Hkv.
    + apply IH; [exact (Forall_inv_tail Hall) | exact Hacc].
Qed.

Lemma compute_overrides_path (before after : environ_t)
  (name value prefix : string) :
  Py.startswith name prefix = true ->
  Forall (fun kv =>
            Py.startswith (fst kv) prefix = true ->
            paths_part
              (Py.split_from "." 0 ""
                 (EnvironmentManager.config_key_of prefix name))
              (Py.split_from "." 0 ""
                 (EnvironmentManager.config_key_of prefix (fst kv))) = true)
    after ->
  exists overrides,
    EnvironmentManager.compute_overrides (before ++ (name, value) :: after) prefix
    = Ok overrides
    /\ path_value (VDict overrides)
         (Py.split_from "." 0 ""
            (EnvironmentManager.config_key_of prefix name))
       = Some (EnvironmentManager._convert_env_value value).
Proof.
  intros Hname Hafter.
  unfold EnvironmentManager.compute_overrides.
  rewrite fold_left_app. cbn [fold_left].
  destruct (compute_overrides_total before prefix) as [acc Hacc].
  unfold EnvironmentManager.compute_overrides in Hacc. rewrite Hacc.
  unfold EnvironmentManager.override_item at 2. cbn [bind fst snd].
  rewrite Hname, set_nested_value_total.
  apply override_item_keeps; [exact Hafter|].
  apply path_value_set_path, split_from_not_nil.
Qed.



(** ** The environment of a manager *)

Definition no_set_environment (o : op) : bool :=
  match o with
  | OpSetEnvironment _ => false
  | _ => true
  end.

Lemma current_environment_set (environ : environ_t)
  (m : EnvironmentManager.t) (e : Environment) :
  EnvironmentManager._current_env m = Some e ->
  EnvironmentManager.current_environment environ m = (e, m).
Proof.
  intro H. unfold EnvironmentManager.current_environment. now rewrite H.
Qed.

Lemma update_env_manager (updates : dict) (self : ConfigManager.t) :
  exists self',
    ConfigManager.update self updates = Ok self'
    /\ ConfigManager.env_manager self' = ConfigManager.env_manager self.
Proof.
  unfold ConfigManager.update.
  assert (H : forall s,
             ConfigManager.env_manager s = ConfigManager.env_manager self ->
             exists self',
               fold_left
                 (fun acc kv => self0 <- acc ;;
                                ConfigManager.set self0 (fst kv) (snd kv))
                 updates (Ok s) = Ok self'
               /\ ConfigManager.env_manager self'
                  = ConfigManager.env_manager self).
  { induction updates as [|kv updates IH]; intros s Hs; cbn [fold_left].
    - now exists s.
    - apply IH. exact Hs. }
  now apply H.
Qed.

Lemma reload_env_manager (fs : file_system) (self : ConfigManager.t) :
  ConfigManager.env_manager (snd (ConfigManager.reload fs self))
  = ConfigManager.env_manager self.
Proof.
  unfold ConfigManager.reload.
  assert (H : forall files (acc : res unit * ConfigManager.t),
             ConfigManager.env_manager (snd acc)
             = ConfigManager.env_manager self ->
             ConfigManager.env_manager
               (snd (fold_left
                       (fun acc file_path =>
                          match acc with
                          | (Ok _, self) =>
                              match fs file_path with
                              | Missing => (Ok tt, self)
                              | _ =>
                                  match ConfigManager.load_file fs self file_path with
                                  | Ok self' => (Ok tt, self')
                                  | Raise e => (Raise e, self)
                                  end
                              end
                          | failed => failed
                          end) files acc))
             = ConfigManager.env_manager self).
  { induction files as [|f files IH]; intros acc Hacc; cbn [fold_left];
      [exact Hacc|].
    apply IH. destruct acc as [[u|e] s]; [|exact Hacc].
    unfold ConfigManager.load_file.
    destruct (fs f); simpl; exact Hacc. }
  apply H. reflexivity.
Qed.

Lemma run_keeps_environment (py_str : pyval -> string) (o : op)
  (self : ConfigManager.t) (e : Environment) :
  no_set_environment o = true ->
  EnvironmentManager._current_env (ConfigManager.env_manager self) = Some e ->
  EnvironmentManager._current_env
    (ConfigManager.env_manager (run py_str o self)) = Some e.
Proof.
  intros Hop He. destruct o; try discriminate Hop; cbn [run].
  - unfold ConfigManager.load_file. now destruct (fs file_path).
  - exact He.
  - destruct (compute_overrides_total environ prefix) as [computed Hcomp].
    unfold ConfigManager.apply_env_overrides,
      EnvironmentManager.get_env_overrides.
    destruct (EnvironmentManager._env_overrides_cache
                (ConfigManager.env_manager self)) as [cached|];
      [|rewrite Hcomp]; cbn [bind after id].
    + now destruct cached.
    + now destruct computed.
  - unfold ConfigManager.get,
      EnvironmentManager.get_environment_config_key.
    rewrite (current_environment_set environ _ e He).
    rewrite !get_nested_value_dot. cbn [bind].
    match goal with
    | |- context [match ?v with VNone => _ | _ => _ end] => now destruct v
    end.
  - exact He.
  - unfold ConfigManager.has,
      EnvironmentManager.get_environment_config_key.
    rewrite (current_environment_set environ _ e He).
    rewrite !has_nested_key_path. cbn [bind].
    match goal with
    | |- context [if ?b then _ else _] => now destruct b
    end.
  - unfold ConfigManager.delete. cbn [Py.split bind].
    now destruct (except_key_type _ _) as [[[]|]|].
  - destruct (update_env_manager updates self) as (self' & -> & Hm).
    cbn [after]. unfold id. now rewrite Hm.
  - unfold ConfigManager.get_resolved_config.
    rewrite (current_environment_set environ _ e He).
    destruct use_cache; [destruct (ConfigManager._resolved_cache self)|];
      exact He.
  - unfold ConfigManager.validate, ConfigManager.get_resolved_config.
    rewrite (current_environment_set environ _ e He).
    destruct (ConfigManager._resolved_cache self); exact He.
  - unfold ConfigManager.add_validation_rule.
    now destruct (ConfigValidator.add_rule _ _ _).
  - exact He.
  - unfold ConfigManager.to_dict, ConfigManager.get_resolved_config.
    rewrite (current_environment_set environ _ e He).
    destruct resolved; [destruct (ConfigManager._resolved_cache self)|];
      exact He.
  - now rewrite reload_env_manager.
  - exact He.
Qed.

(** X10: once the environment of a manager is determined (by a first read
    or by [set_environment]), every call other than [set_environment] leaves
    it as it is, whatever the environment variables hold at the time of the
    call; the next read returns it again. *)
Theorem environment_is_kept (py_str : pyval -> string) (ops : list op)
  (self : ConfigManager.t) (e : Environment) (environ : environ_t) :
  EnvironmentManager._current_env (ConfigManager.env_manager self) = Some e ->
  forallb no_set_environment ops = true ->
  fst (EnvironmentManager.current_environment environ
         (ConfigManager.env_manager (run_all py_str ops self))) = e.
Proof.
  intros He Hops.
  assert (H : EnvironmentManager._current_env
                (ConfigManager.env_manager (run_all py_str ops self)) = Some e).
  { unfold run_all. revert self He.
    induction ops as [|o ops IH]; intros self He; cbn [fold_left];
      [exact He|].
    cbn [forallb] in Hops. apply andb_true_iff in Hops.
    destruct Hops as [Ho Hops].
    apply IH; [exact Hops|]. now apply run_keeps_environment. }
  now rewrite (current_environment_set environ _ e H).
Qed.

Lemma environment_is_kept_witness :
  fst (EnvironmentManager.current_environment [("APP_ENV", "production")]
         (ConfigManager.env_manager
            (run_all sample_str
               [OpLoadDict [("debug", VBool true)];
                OpGet [("APP_ENV", "staging")] "debug" VNone;
                OpClear]
               (snd (ConfigManager.get_resolved_config [("APP_ENV", "testing")]
                       fresh_manager true)))))
  = TESTING.
Proof.
  apply environment_is_kept; reflexivity.
Defined.

(** ** Validation, key by key *)

Section ValidatorFacts.

Variable py_str : pyval -> string.

Lemma validate_key_entry (self : ConfigValidator.t) (key_path : string)
  (rules : list ValidationRule) (config_data : dict) :
  dict_get key_path (ConfigValidator.rules self) = Some rules ->
  ConfigValidator.validate_key py_str self key_path config_data
  = Ok (entry_errors py_str config_data (key_path, rules)).
Proof.
  intro Hget. unfold ConfigValidator.validate_key, entry_errors.
  rewrite Hget, get_nested_value_dot. cbn [bind].
  pose proof (filter_required_existsb rules) as Hreq.
  destruct (path_value (VDict config_data) _) as [value|].
  - destruct value;
      try (rewrite apply_rules_append; reflexivity);
      destruct (filter required rules); now rewrite Hreq.
  - destruct (filter required rules); now rewrite Hreq.
Qed.

(** X11: [validate] without raising returns, in the order of the registry,
    the errors that [validate_key] returns for each registered key path;
    for a key path without rules [validate_key] returns no error. *)
Theorem validate_by_key (self : ConfigValidator.t) (config_data : dict) :
  NoDup (map fst (ConfigValidator.rules self)) ->
  (exists per_key,
      Forall2
        (fun key_path errors =>
           ConfigValidator.validate_key py_str self key_path config_data
           = Ok errors)
        (map fst (ConfigValidator.rules self)) per_key
      /\ ConfigValidator.validate py_str self config_data false
         = Ok (List.concat per_key))
  /\ (forall key_path,
        ~ In key_path (map fst (ConfigValidator.rules self)) ->
        ConfigValidator.validate_key py_str self key_path config_data = Ok []).
Proof.
  intro Hnd. split.
  - exists (map (entry_errors py_str config_data) (ConfigValidator.rules self)).
    split.
    + assert (H : forall registry,
                 (forall kv, In kv registry ->
                             In kv (ConfigValidator.rules self)) ->
                 Forall2
                   (fun key_path errors =>
                      ConfigValidator.validate_key py_str self key_path
                        config_data = Ok errors)
                   (map fst registry)
                   (map (entry_errors py_str config_data) registry)).
      { induction registry as [|[k rs] registry IH]; intro Hsub;
          cbn [map]; constructor.
        - apply validate_key_entry, In_dict_get; [exact Hnd|].
          apply Hsub. now left.
        - apply IH. intros kv Hkv. apply Hsub. now right. }
      now apply H.
    + rewrite validate_outcome. cbn zeta. now rewrite flat_map_concat_map.
  - intros key_path Hout. unfold ConfigValidator.validate_key.
    now rewrite (proj2 (dict_get_None_keys _ _) Hout).
Qed.

End ValidatorFacts.

Lemma validate_by_key_witness :
  exists per_key,
    ConfigValidator.validate sample_str
      (ConfigValidator.mk
         [("name", [mkRule "required" is_not_empty
                      "is required and cannot be empty" "" true])] [])
      [] false
    = Ok (List.concat per_key).
Proof.
  destruct (validate_by_key sample_str
              (ConfigValidator.mk
                 [("name", [mkRule "required" is_not_empty
                              "is required and cannot be empty" "" true])] [])
              [])
    as [(per_key & _ & H) _].
  - constructor; [intros [] | constructor].
  - exists per_key. exact H.
Defined.

(** ** The registry of rules *)

(** The calls that change the registry. *)
Inductive registry_op : Type :=
| RegAdd (key_path : string) (rule : rule_arg)
| RegRemove (key_path : string) (rule_name : option string).

(** The validator after one call, whether it returned or raised. *)
Definition registry_run (o : registry_op) (self : ConfigValidator.t)
  : ConfigValidator.t :=
  match o with
  | RegAdd key_path rule =>
      match ConfigValidator.add_rule self key_path rule with
      | Ok self' => self'
      | Raise _ => self
      end
  | RegRemove key_path rule_name =>
      ConfigValidator.remove_rule self key_path rule_name
  end.

(** Key paths are registered once, each with at least one rule. *)
Definition registry_ok (self : ConfigValidator.t) : Prop :=
  NoDup (map fst (ConfigValidator.rules self))
  /\ Forall (fun entry => snd entry <> []) (ConfigValidator.rules self).

Lemma dict_set_all {V : Type} (P : string * V -> Prop)
  (d : list (string * V)) (k : string) (v : V) :
  P (k, v) -> Forall P d -> Forall P (dict_set k v d).
Proof.
  intros Hv. induction d as [|[k' x] d IH]; intro H; cbn [dict_set].
  - now repeat constructor.
  - destruct (String.eqb k k') eqn:E.
    + apply String.eqb_eq in E. subst k'.
      constructor; [exact Hv | exact (Forall_inv_tail H)].
    + constructor; [exact (Forall_inv H) | apply IH, (Forall_inv_tail H)].
Qed.

Lemma dict_del_incl {V : Type} (d : list (string * V)) (k : string) :
  incl (dict_del k d) d.
Proof.
  induction d as [|[k' x] d IH]; [apply incl_refl|].
  cbn [dict_del]. destruct (String.eqb k k').
  - apply incl_tl, incl_refl.
  - intros y [<-|Hy]; [now left | right; now apply IH].
Qed.

Lemma dict_del_NoDup_keys {V : Type} (d : list (string * V)) (k : string) :
  NoDup (map fst d) -> NoDup (map fst (dict_del k d)).
Proof.
  induction d as [|[k' x] d IH]; intro H; [exact H|].
  cbn [dict_del]. inversion H as [|? ? Hk Hd]; subst.
  destruct (String.eqb k k'); [exact Hd|].
  cbn [map fst]. constructor; [|now apply IH].
  intro Hin. apply Hk. apply in_map_iff in Hin.
  destruct Hin as (y & <- & Hy). apply in_map, (dict_del_incl _ _ _ Hy).
Qed.

Lemma registry_run_ok (o : registry_op) (self : ConfigValidator.t) :
  registry_ok self -> registry_ok (registry_run o self).
Proof.
  intros [Hnd Hall]. destruct o as [key_path rule|key_path rule_name];
    cbn [registry_run].
  - unfold ConfigValidator.add_rule.
    destruct (match rule with
              | RuleObj r => Ok r
              | RuleName n =>
                  match dict_get n (ConfigValidator.built_in_rules self) with
                  | Some r => Ok r
                  | None => Raise (ValueError ("Unknown built-in rule '" ++ n ++ "'"))
                  end
              end) as [r|e]; cbn [bind]; [|now split].
    split; cbn [ConfigValidator.rules].
    + now apply dict_set_NoDup.
    + apply dict_set_all; [|exact Hall]. cbn [snd].
      intro H. now apply app_eq_nil in H.
  - unfold ConfigValidator.remove_rule.
    destruct (dict_get key_path (ConfigValidator.rules self)) as [rs|];
      [|now split].
    assert (Hdel : registry_ok
                     (ConfigValidator.mk
                        (dict_del key_path (ConfigValidator.rules self))
                        (ConfigValidator.built_in_rules self))).
    { split; cbn [ConfigValidator.rules].
      - now apply dict_del_NoDup_keys.
      - rewrite Forall_forall in *. intros y Hy.
        apply Hall, (dict_del_incl _ _ _ Hy). }
    destruct rule_name as [n|]; [|exact Hdel].
    destruct (filter _ rs) as [|r kept] eqn:E; [exact Hdel|].
    split; cbn [ConfigValidator.rules].
    + now apply dict_set_NoDup.
    + apply dict_set_all; [discriminate | exact Hall].
Qed.

(** X12: whatever rules are added and removed on a new validator, a key
    path is registered at most once and never with an empty list of rules:
    the summary of [list_all_rules] names a key path exactly when
    [get_rules_for_key] returns rules for it. *)
Theorem registry_never_keeps_empty
  (is_valid_url is_valid_port is_valid_email : pyval -> res bool)
  (ops : list registry_op) (key_path : string) :
  let self :=
    fold_left (fun self o => registry_run o self) ops
      (ConfigValidator.init is_valid_url is_valid_port is_valid_email) in
  NoDup (map fst (ConfigValidator.list_all_rules self))
  /\ (In key_path (map fst (ConfigValidator.list_all_rules self))
      <-> ConfigValidator.get_rules_for_key self key_path <> []).
Proof.
  cbn zeta.
  assert (Hgen : forall self0,
             registry_ok self0 ->
             registry_ok (fold_left (fun self o => registry_run o self) ops
                            self0)).
  { induction ops as [|o ops IH]; intros self0 H0; cbn [fold_left];
      [exact H0|].
    apply IH. now apply registry_run_ok. }
  assert (Hok : registry_ok
                  (fold_left (fun self o => registry_run o self) ops
                     (ConfigValidator.init is_valid_url is_valid_port
                        is_valid_email)))
    by (apply Hgen; split; constructor).
  clear Hgen.
  destruct Hok as [Hnd Hall].
  set (self := fold_left _ ops _) in *.
  assert (Hkeys : map fst (ConfigValidator.list_all_rules self)
                  = map fst (ConfigValidator.rules self)).
  { unfold ConfigValidator.list_all_rules. rewrite map_map.
    now apply map_ext. }
  rewrite Hkeys. split; [exact Hnd|].
  unfold ConfigValidator.get_rules_for_key.
  destruct (dict_get key_path (ConfigValidator.rules self)) as [rs|] eqn:E.
  - split.
    + intros _ ->. rewrite Forall_forall in Hall.
      now apply (Hall _ (dict_get_In _ _ _ E)).
    + intros _. apply dict_has_keys. unfold dict_has. now rewrite E.
  - apply dict_get_None_keys in E. split; [contradiction | congruence].
Qed.

(** X13: the rules of a key path after a call: [add_rule] puts the rule
    after those already registered for the key path, [remove_rule] with a
    name drops the rules of that name and keeps the others in order,
    [remove_rule] without a name drops them all; the rules of every other
    key path stay as they are. *)
Theorem registry_lookup (self : ConfigValidator.t) (key_path other : string)
  (rule : ValidationRule) (rule_name : string) :
  NoDup (map fst (ConfigValidator.rules self)) ->
  (exists self',
      ConfigValidator.add_rule self key_path (RuleObj rule) = Ok self'
      /\ ConfigValidator.get_rules_for_key self' key_path
         = ConfigValidator.get_rules_for_key self key_path ++ [rule]
      /\ (other <> key_path ->
          ConfigValidator.get_rules_for_key self' other
          = ConfigValidator.get_rules_for_key self other))
  /\ ConfigValidator.get_rules_for_key
       (ConfigValidator.remove_rule self key_path (Some rule_name)) key_path
     = filter (fun r => negb (String.eqb (name r) rule_name))
         (ConfigValidator.get_rules_for_key self key_path)
  /\ ConfigValidator.get_rules_for_key
       (ConfigValidator.remove_rule self key_path None) key_path = []
  /\ (other <> key_path ->
      forall n,
        ConfigValidator.get_rules_for_key
          (ConfigValidator.remove_rule self key_path n) other
        = ConfigValidator.get_rules_for_key self other).
Proof.
  intro Hnd. unfold ConfigValidator.get_rules_for_key.
  split; [|split; [|split]].
  - eexists. split; [reflexivity|]. cbn [ConfigValidator.rules]. split.
    + now rewrite dict_get_set_same.
    + intro Hne. now rewrite dict_get_set_other.
  - unfold ConfigValidator.remove_rule.
    destruct (dict_get key_path (ConfigValidator.rules self)) as [rs|] eqn:E.
    + destruct (filter _ rs) as [|r kept]; cbn [ConfigValidator.rules].
      * now rewrite dict_get_del_same.
      * now rewrite dict_get_set_same.
    + now rewrite E.
  - unfold ConfigValidator.remove_rule.
    destruct (dict_get key_path (ConfigValidator.rules self)) as [rs|] eqn:E.
    + cbn [ConfigValidator.rules]. now rewrite dict_get_del_same.
    + now rewrite E.
  - intros Hne n. unfold ConfigValidator.remove_rule.
    destruct (dict_get key_path (ConfigValidator.rules self)) as [rs|];
      [|reflexivity].
    destruct n as [n|]; [destruct (filter _ rs)|];
      cbn [ConfigValidator.rules];
      rewrite ?dict_get_del_other, ?dict_get_set_other by congruence;
      reflexivity.
Qed.

Lemma registry_lookup_witness :
  ConfigValidator.get_rules_for_key
    (ConfigValidator.remove_rule
       (ConfigValidator.mk
          [("port", [mkRule "a" sample_predicate "m" "" false;
                     mkRule "b" sample_predicate "m" "" false])] [])
       "port" (Some "a")) "port"
  = [mkRule "b" sample_predicate "m" "" false].
Proof.
  refine (proj1 (proj2 (registry_lookup
                          (ConfigValidator.mk
                             [("port",
                               [mkRule "a" sample_predicate "m" "" false;
                                mkRule "b" sample_predicate "m" "" false])] [])
                          "port" "host"
                          (mkRule "c" sample_predicate "m" "" false) "a" _))).
  constructor; [intros [] | constructor].
Defined.

(** ** Access to a manager by key *)

(** The lookups of [get] and [has] under a determined environment. *)
Definition env_lookup (self : ConfigManager.t) (e : Environment)
  (key_path : string) : option pyval :=
  path_value (VDict (ConfigManager.config_data self))
    (Py.split_from "." 0 "" (env_value e ++ "." ++ key_path)).

Definition general_lookup (self : ConfigManager.t) (key_path : string)
  : option pyval :=
  path_value (VDict (ConfigManager.config_data self))
    (Py.split_from "." 0 "" key_path).

Lemma get_lookup (environ : environ_t) (self : ConfigManager.t)
  (key_path : string) (default : pyval) :
  let '(e, m) :=
    EnvironmentManager.current_environment environ
      (ConfigManager.env_manager self) in
  ConfigManager.get environ self key_path default
  = Ok (match env_lookup self e key_path with
        | Some VNone | None =>
            match general_lookup self key_path with
            | Some v => v
            | None => default
            end
        | Some v => v
        end, ConfigManager.with_env self m).
Proof.
  unfold ConfigManager.get, EnvironmentManager.get_environment_config_key,
    env_lookup, general_lookup.
  destruct (EnvironmentManager.current_environment environ _) as [e m].
  rewrite !get_nested_value_dot. cbn [bind ConfigManager.config_data
                                      ConfigManager.with_env].
  destruct (path_value _ (Py.split_from "." 0 "" (env_value e ++ "." ++ key_path)))
    as [[]|]; reflexivity.
Qed.

Lemma has_lookup (environ : environ_t) (self : ConfigManager.t)
  (key_path : string) :
  let '(e, m) :=
    EnvironmentManager.current_environment environ
      (ConfigManager.env_manager self) in
  ConfigManager.has environ self key_path
  = Ok (match env_lookup self e key_path with
        | Some _ => true
        | None =>
            match general_lookup self key_path with
            | Some _ => true
            | None => false
            end
        end, ConfigManager.with_env self m).
Proof.
  unfold ConfigManager.has, EnvironmentManager.get_environment_config_key,
    env_lookup, general_lookup.
  destruct (EnvironmentManager.current_environment environ _) as [e m].
  rewrite !has_nested_key_path. cbn [bind ConfigManager.config_data
                                     ConfigManager.with_env].
  destruct (path_value _ (Py.split_from "." 0 "" (env_value e ++ "." ++ key_path)));
    reflexivity.
Qed.

(** X14: [config[key]] raises [KeyError] exactly when [key in config] is
    false, and otherwise returns what [get(key)] returns, an explicit null
    included. *)
Theorem getitem_raises_when_absent (environ : environ_t)
  (self : ConfigManager.t) (key : string) :
  exists present self',
    ConfigManager.__contains__ environ self key = Ok (present, self')
    /\ if present
       then exists value,
           ConfigManager.get environ self key VNone = Ok (value, self')
           /\ ConfigManager.__getitem__ environ self key = Ok (value, self')
       else ConfigManager.__getitem__ environ self key = Raise KeyError.
Proof.
  unfold ConfigManager.__contains__, ConfigManager.__getitem__.
  pose proof (get_lookup environ self key VNone) as Hget.
  pose proof (has_lookup environ self key) as Hhas.
  pose proof (current_environment_memo environ (ConfigManager.env_manager self))
    as Hmemo.
  destruct (EnvironmentManager.current_environment environ _) as [e m].
  destruct Hmemo as (Hcur & _).
  pose proof (has_lookup environ (ConfigManager.with_env self m) key) as Hhas'.
  cbn [ConfigManager.env_manager ConfigManager.with_env] in Hhas'.
  rewrite (current_environment_set environ m e Hcur) in Hhas'.
  change (env_lookup (ConfigManager.with_env self m) e key)
    with (env_lookup self e key) in Hhas'.
  change (general_lookup (ConfigManager.with_env self m) key)
    with (general_lookup self key) in Hhas'.
  rewrite Hget, Hhas. cbn [bind].
  destruct (env_lookup self e key) as [v|].
  - exists true. eexists. split; [reflexivity|].
    destruct v; try (eexists; split; reflexivity).
    destruct (general_lookup self key) as [v|].
    + destruct v; try (eexists; split; reflexivity).
      eexists. split; [reflexivity|].
      cbn [ConfigManager.with_env ConfigManager.env_manager] in *.
      rewrite Hhas'. reflexivity.
    + eexists. split; [reflexivity|]. rewrite Hhas'. reflexivity.
  - destruct (general_lookup self key) as [v|].
    + exists true. eexists. split; [reflexivity|].
      destruct v; try (eexists; split; reflexivity).
      eexists. split; [reflexivity|]. rewrite Hhas'. reflexivity.
    + exists false. eexists. split; [reflexivity|].
      rewrite Hhas'. reflexivity.
Qed.

(** ** The pairs of [items] and the flat form *)

Lemma dict_update_app (result a b : dict) :
  dict_update result (a ++ b) = dict_update (dict_update result a) b.
Proof. apply fold_left_app. Qed.

Lemma dict_update_NoDup (other result : dict) :
  NoDup (map fst result) -> NoDup (map fst (dict_update result other)).
Proof.
  unfold dict_update. revert result.
  induction other as [|[k v] other IH]; intros result H; cbn [fold_left];
    [exact H|].
  apply IH. now apply dict_set_NoDup.
Qed.

Lemma dict_set_swap (d : dict) (k k' : string) (v v' : pyval) :
  k <> k' -> dict_has k d = true ->
  dict_set k v (dict_set k' v' d) = dict_set k' v' (dict_set k v d).
Proof.
  intros Hne. induction d as [|[k0 x] d IH]; [discriminate|].
  unfold dict_has. cbn [dict_get dict_set].
  destruct (String.eqb k k0) eqn:E; destruct (String.eqb k' k0) eqn:E'.
  - apply String.eqb_eq in E, E'. congruence.
  - intros _. cbn [dict_set]. now rewrite E, E'.
  - intro H. cbn [dict_set]. now rewrite E, E'.
  - intro H. cbn [dict_set]. rewrite E, E'. f_equal. now apply IH.
Qed.

Lemma dict_set_update (other d : dict) (k : string) (v : pyval) :
  dict_has k d = true -> ~ In k (map fst other) ->
  dict_set k v (dict_update d other) = dict_update (dict_set k v d) other.
Proof.
  unfold dict_update. revert d.
  induction other as [|[k' v'] other IH]; intros d Hk Hout; cbn [fold_left];
    [reflexivity|].
  cbn [map fst] in Hout. cbn [fst snd].
  rewrite IH.
  - f_equal. apply dict_set_swap; [|exact Hk]. intros ->. apply Hout. now left.
  - rewrite dict_has_set, Hk. apply orb_true_r.
  - intro H. apply Hout. now right.
Qed.

Lemma dict_update_set (a result : dict) (k : string) (v : pyval) :
  NoDup (map fst a) ->
  dict_update result (dict_set k v a) = dict_set k v (dict_update result a).
Proof.
  revert result. induction a as [|[k' x] a IH]; intros result Hnd.
  - reflexivity.
  - inversion Hnd as [|? ? Hk' Ha]; subst.
    cbn [dict_set]. destruct (String.eqb k k') eqn:E.
    + apply String.eqb_eq in E. subst k'.
      unfold dict_update. cbn [fold_left fst snd].
      change (fold_left (fun acc kv => dict_set (fst kv) (snd kv) acc) a ?r)
        with (dict_update r a).
      rewrite dict_set_update; [now rewrite dict_set_set | | exact Hk'].
      rewrite dict_has_set, String.eqb_refl. reflexivity.
    + unfold dict_update. cbn [fold_left fst snd].
      apply (IH (dict_set k' x result) Ha).
Qed.

Lemma dict_update_update (other a result : dict) :
  NoDup (map fst a) ->
  dict_update result (dict_update a other)
  = dict_update (dict_update result a) other.
Proof.
  revert a. induction other as [|[k v] other IH]; intros a Hnd;
    [reflexivity|].
  unfold dict_update at 2 4. cbn [fold_left fst snd].
  change (fold_left (fun acc kv => dict_set (fst kv) (snd kv) acc) other ?r)
    with (dict_update r other).
  rewrite IH by now apply dict_set_NoDup.
  now rewrite dict_update_set.
Qed.

Lemma iter_items_cons (prefix key : string) (value : pyval) (d : dict) :
  ConfigManager._iter_items prefix (VDict ((key, value) :: d))
  = match value with
    | VDict _ => ConfigManager._iter_items (new_key "." prefix key) value
    | _ => [(new_key "." prefix key, value)]
    end ++ ConfigManager._iter_items prefix (VDict d).
Proof. reflexivity. Qed.

(** The flat form is the dictionary built from the pairs of [_iter_items]. *)
Lemma flatten_iter_items (v : pyval) :
  forall prefix,
    flatten_value "." prefix v
    = dict_update [] (ConfigManager._iter_items prefix v).
Proof.
  induction v as [| | | | | |d IH] using pyval_dict_ind;
    try (intro; reflexivity).
  intro prefix. rewrite flatten_value_dict.
  enough (H : forall result,
             NoDup (map fst result) ->
             fold_left (flatten_item "." prefix) d result
             = dict_update result (ConfigManager._iter_items prefix (VDict d)))
    by (apply H; constructor).
  induction d as [|[k x] d IHd]; intros result Hnd; [reflexivity|].
  pose proof (Forall_inv IH) as IHx. cbn [snd] in IHx.
  rewrite iter_items_cons, dict_update_app. cbn [fold_left].
  assert (Hstep : flatten_item "." prefix result (k, x)
                  = dict_update result
                      match x with
                      | VDict _ =>
                          ConfigManager._iter_items (new_key "." prefix k) x
                      | _ => [(new_key "." prefix k, x)]
                      end).
  { unfold flatten_item. destruct x; try reflexivity.
    rewrite IHx, dict_update_update by constructor. reflexivity. }
  rewrite Hstep. apply IHd; [exact (Forall_inv_tail IH)|].
  now apply dict_update_NoDup.
Qed.

(** X15: the flat form of a tree is the dictionary built from the pairs that
    [items] yields, later pairs replacing earlier ones with the same key;
    so [keys(resolved)] lists the keys of [dict(items(resolved))], and both
    calls leave the same manager. *)
Theorem keys_of_items (environ : environ_t) (self : ConfigManager.t)
  (resolved : bool) :
  flatten_dict (fst (ConfigManager.to_dict environ self resolved)) "." ""
  = dict_update [] (fst (ConfigManager.items environ self resolved))
  /\ ConfigManager.keys environ self resolved
     = (map fst (dict_update [] (fst (ConfigManager.items environ self resolved))),
        snd (ConfigManager.items environ self resolved)).
Proof.
  unfold ConfigManager.to_dict, ConfigManager.items, ConfigManager.keys,
    flatten_dict.
  destruct resolved;
    [destruct (ConfigManager.get_resolved_config environ self true)
       as [config self']|];
    cbn [fst snd]; now rewrite flatten_iter_items.
Qed.

(** ** [get] and the resolved configuration *)

Lemma split_env_key (e : Environment) (key_path : string) :
  Py.split_from "." 0 "" (env_value e ++ "." ++ key_path)
  = env_value e :: Py.split_from "." 0 "" key_path.
Proof.
  rewrite (split_from_free "." (env_value e) "" ("." ++ key_path))
    by now destruct e.
  now rewrite split_from_sep.
Qed.

Lemma env_lookup_block (self : ConfigManager.t) (e : Environment)
  (key_path : string) :
  env_lookup self e key_path
  = match dict_get (env_value e) (ConfigManager.config_data self) with
    | Some x => path_value x (Py.split_from "." 0 "" key_path)
    | None => None
    end.
Proof. unfold env_lookup. now rewrite split_env_key. Qed.

(** The block of the environment decides the path [p] the same way for [get]
    and for the merge of [get_resolved_config]: there is no such block, or
    it is not a dictionary, or it holds at [p] a value that is neither null
    nor a dictionary, or it stops at a dictionary that lacks the next key. *)
Definition env_block_settles (raw : dict) (e : Environment) (p : list string)
  : bool :=
  match dict_get (env_value e) raw with
  | Some (VDict env_config) =>
      match path_value (VDict env_config) p with
      | Some VNone | Some (VDict _) => false
      | Some _ => true
      | None => path_leaves_tree (VDict env_config) p
      end
  | _ => true
  end.

(** X16: [get(key)] returns what a lookup of [key] in the resolved
    configuration returns, as long as the key does not start with the name
    of the environment and the block of the environment settles the path. *)
Theorem get_agrees_with_resolved (environ : environ_t)
  (self : ConfigManager.t) (key_path : string) (default : pyval) :
  wf_dict (ConfigManager.config_data self) = true ->
  hd "" (Py.split_from "." 0 "" key_path)
  <> env_value (fst (EnvironmentManager.current_environment environ
                       (ConfigManager.env_manager self))) ->
  env_block_settles (ConfigManager.config_data self)
    (fst (EnvironmentManager.current_environment environ
            (ConfigManager.env_manager self)))
    (Py.split_from "." 0 "" key_path) = true ->
  exists value self',
    ConfigManager.get environ self key_path default = Ok (value, self')
    /\ get_nested_value
         (fst (ConfigManager.get_resolved_config environ self false))
         key_path default "."
       = Ok value.
Proof.
  intro Hwf.
  pose proof (get_lookup environ self key_path default) as Hget.
  unfold ConfigManager.get_resolved_config.
  destruct (EnvironmentManager.current_environment environ _) as [e m].
  cbn [fst]. intros Hhead Hsettles.
  rewrite Hget, get_nested_value_dot.
  cbn [ConfigManager.config_data ConfigManager.with_env].
  do 2 eexists. split; [reflexivity|]. f_equal.
  rewrite env_lookup_block. unfold general_lookup.
  pose proof (resolve_cases (ConfigManager.config_data self) e) as Hres.
  unfold env_block_settles in Hsettles.
  pose proof (split_from_not_nil "." 0 "" key_path) as Hp.
  destruct (Py.split_from "." 0 "" key_path) as [|k rest] eqn:Ep;
    [contradiction|].
  cbn [hd] in Hhead.
  assert (Hdel : path_value
                   (VDict (dict_del (env_value e)
                             (ConfigManager.config_data self))) (k :: rest)
                 = path_value (VDict (ConfigManager.config_data self))
                     (k :: rest)).
  { cbn [path_value]. now rewrite dict_get_del_other. }
  destruct (dict_get (env_value e) (ConfigManager.config_data self))
    as [x|] eqn:Hblock.
  - destruct x as [| | | | | |env_config];
      try (rewrite Hres, Hdel; cbn [path_value]; reflexivity).
    rewrite Hres.
    pose proof (wf_dict_get _ _ _ Hwf Hblock) as Hwfb.
    destruct (path_value (VDict env_config) (k :: rest)) as [v|] eqn:Hv.
    + destruct v; try discriminate;
        now rewrite (deep_merge_path_overlay _ _ _ _ Hwfb Hv eq_refl).
    + now rewrite (deep_merge_path_base _ _ _ Hwfb Hsettles), Hdel.
  - now rewrite Hres.
Qed.

Lemma get_agrees_with_resolved_witness :
  exists value self',
    ConfigManager.get [("APP_ENV", "production")]
      (ConfigManager.load_dict fresh_manager
         [("database", VDict [("host", VStr "localhost"); ("port", VInt 5432)]);
          ("production", VDict [("database", VDict [("host", VStr "prod")])])])
      "database.host" VNone
    = Ok (value, self')
    /\ get_nested_value
         (fst (ConfigManager.get_resolved_config [("APP_ENV", "production")]
                 (ConfigManager.load_dict fresh_manager
                    [("database", VDict [("host", VStr "localhost");
                                         ("port", VInt 5432)]);
                     ("production",
                      VDict [("database", VDict [("host", VStr "prod")])])])
                 false))
         "database.host" VNone "."
       = Ok value.
Proof.
  apply get_agrees_with_resolved; [reflexivity | discriminate | reflexivity].
Defined.

(** ** Deleting a key *)





(** ** Reloading *)

(** The file is there and its loader returns a dictionary. *)
Definition is_parsed (fs : file_system) (file_path : string) : bool :=
  match fs file_path with
  | Parsed _ => true
  | _ => false
  end.

(** The file is gone, or it is there and loads. *)
Definition gone_or_parsed (fs : file_system) (file_path : string) : bool :=
  match fs file_path with
  | Missing | Parsed _ => true
  | _ => false
  end.

(** The merge of the data of the files, in order, onto [base]. *)
Definition merged_files (fs : file_system) (files : list string) (base : dict)
  : dict :=
  fold_left
    (fun acc file_path =>
       match fs file_path with
       | Parsed file_data => deep_merge acc file_data
       | _ => acc
       end)
    files base.

Lemma reload_loop (fs : file_system) (files : list string) :
  forallb (gone_or_parsed fs) files = true ->
  forall s : ConfigManager.t,
    ConfigManager._resolved_cache s = None ->
    fold_left
      (fun acc file_path =>
         match acc with
         | (Ok _, self) =>
             match fs file_path with
             | Missing => (Ok tt, self)
             | _ =>
                 match ConfigManager.load_file fs self file_path with
                 | Ok self' => (Ok tt, self')
                 | Raise e => (Raise e, self)
                 end
             end
         | failed => failed
         end)
      files (Ok tt, s)
    = (Ok tt,
       ConfigManager.mk
         (merged_files fs (filter (is_parsed fs) files)
            (ConfigManager.config_data s))
         (ConfigManager.env_manager s) (ConfigManager.validator s)
         (ConfigManager.loaded_files s ++ filter (is_parsed fs) files)
         None).
Proof.
  induction files as [|f files IH]; intros Hall s Hcache; cbn [fold_left filter].
  - unfold merged_files. cbn [fold_left]. rewrite app_nil_r.
    destruct s. cbn in *. now subst.
  - cbn [forallb] in Hall. apply andb_true_iff in Hall.
    destruct Hall as [Hf Hall].
    unfold gone_or_parsed in Hf.
    destruct (fs f) as [| | |file_data] eqn:Ef; try discriminate.
    + assert (Hp : is_parsed fs f = false)
        by (unfold is_parsed; now rewrite Ef).
      rewrite Hp. now apply IH.
    + assert (Hp : is_parsed fs f = true)
        by (unfold is_parsed; now rewrite Ef).
      rewrite Hp. unfold ConfigManager.load_file. rewrite Ef.
      rewrite IH by (exact Hall || reflexivity).
      unfold merged_files. cbn [fold_left ConfigManager.config_data
                                 ConfigManager.with_cache
                                 ConfigManager.with_files
                                 ConfigManager.with_data
                                 ConfigManager.env_manager
                                 ConfigManager.validator
                                 ConfigManager.loaded_files].
      now rewrite Ef, <- app_assoc.
Qed.

Lemma filter_is_parsed (fs : file_system) (files : list string) :
  forallb (gone_or_parsed fs) (filter (is_parsed fs) files) = true
  /\ filter (is_parsed fs) (filter (is_parsed fs) files)
     = filter (is_parsed fs) files.
Proof.
  induction files as [|f files [IH1 IH2]]; [now split|].
  cbn [filter]. destruct (is_parsed fs f) eqn:E; [|now split].
  cbn [forallb filter]. rewrite E, IH1, IH2. split; [|reflexivity].
  unfold is_parsed in E. unfold gone_or_parsed.
  now destruct (fs f).
Qed.

(** X18: when every file loaded so far is either gone or still loads,
    [reload] returns with the merge, in loading order, of the files that are
    still there as raw tree, with exactly those files as loaded files and
    without a cached resolution; values that came from [set], [load_dict] or
    environment variables are not kept, the environment and the rules are.
    A second [reload] on the same files changes nothing. *)
Theorem reload_rebuilds (fs : file_system) (self : ConfigManager.t) :
  forallb (gone_or_parsed fs) (ConfigManager.loaded_files self) = true ->
  let self' :=
    ConfigManager.mk
      (merged_files fs
         (filter (is_parsed fs) (ConfigManager.loaded_files self)) [])
      (ConfigManager.env_manager self) (ConfigManager.validator self)
      (filter (is_parsed fs) (ConfigManager.loaded_files self)) None in
  ConfigManager.reload fs self = (Ok tt, self')
  /\ ConfigManager.reload fs self' = (Ok tt, self').
Proof.
  intro Hall. cbn zeta. unfold ConfigManager.reload. split.
  - now rewrite (reload_loop fs _ Hall).
  - destruct (filter_is_parsed fs (ConfigManager.loaded_files self))
      as [Hall' Hsame].
    cbn [ConfigManager.loaded_files].
    rewrite (reload_loop fs _ Hall') by reflexivity.
    cbn [ConfigManager.clear ConfigManager.config_data
           ConfigManager.with_cache ConfigManager.with_files
           ConfigManager.with_data ConfigManager.env_manager
           ConfigManager.validator ConfigManager.loaded_files app].
    now rewrite Hsame.
Qed.

(** A file system with one configuration file. *)
Definition sample_fs : file_system :=
  fun file_path =>
    if String.eqb file_path "base.json"
    then Parsed [("debug", VBool true)]
    else Missing.

Lemma reload_rebuilds_witness :
  ConfigManager.reload sample_fs
    (ConfigManager.with_files
       (ConfigManager.load_dict fresh_manager [("name", VStr "app")])
       ["gone.json"; "base.json"])
  = (Ok tt,
     ConfigManager.with_files
       (ConfigManager.load_dict fresh_manager [("debug", VBool true)])
       ["base.json"]).
Proof.
  exact (proj1 (reload_rebuilds sample_fs
                  (ConfigManager.with_files
                     (ConfigManager.load_dict fresh_manager
                        [("name", VStr "app")])
                     ["gone.json"; "base.json"])
                  eq_refl)).
Defined.

(** ** Applying the overrides *)

Lemma child_of_wf (k : string) (d : dict) :
  wf_dict d = true -> wf_dict (child_of k d) = true.
Proof.
  intro Hwf. unfold child_of.
  destruct (dict_get k d) as [x|] eqn:E; [|reflexivity].
  pose proof (wf_dict_get _ _ _ Hwf E) as Hx.
  now destruct x.
Qed.

Lemma dict_set_wf (d : dict) (k : string) (v : pyval) :
  wf_dict d = true -> wf_value v = true -> wf_dict (dict_set k v d) = true.
Proof.
  intros Hwf Hv. apply wf_dict_unfold in Hwf. destruct Hwf as [Hnd Hall].
  apply wf_dict_unfold. split; [now apply dict_set_NoDup|].
  now apply dict_set_all.
Qed.

Lemma set_path_wf (keys : list string) (v : pyval) :
  wf_value v = true ->
  forall d, wf_dict d = true -> wf_dict (set_path d keys v) = true.
Proof.
  intro Hv. induction keys as [|k rest IH]; intros d Hwf; [exact Hwf|].
  destruct rest as [|k2 rest].
  - now apply dict_set_wf.
  - rewrite set_path_cons. apply dict_set_wf; [exact Hwf|].
    rewrite wf_value_dict. apply IH. now apply child_of_wf.
Qed.

(** A converted value is a boolean, a number or a string. *)
Lemma convert_env_value_scalar (value : string) :
  is_dict (EnvironmentManager._convert_env_value value) = false
  /\ wf_value (EnvironmentManager._convert_env_value value) = true
  /\ EnvironmentManager._convert_env_value value <> VNone.
Proof.
  unfold EnvironmentManager._convert_env_value.
  destruct value as [|c s]; [repeat split; discriminate|].
  destruct (Py.str_in _ EnvironmentManager.true_words);
    [repeat split; discriminate|].
  destruct (Py.str_in _ EnvironmentManager.false_words);
    [repeat split; discriminate|].
  destruct (negb _ && negb _);
    [destruct (Py.int _) | destruct (Py.float _)];
    repeat split; discriminate.
Qed.

Lemma compute_overrides_wf (environ : environ_t) (prefix : string)
  (overrides : dict) :
  EnvironmentManager.compute_overrides environ prefix = Ok overrides ->
  wf_dict overrides = true.
Proof.
  unfold EnvironmentManager.compute_overrides.
  assert (H : forall acc : dict,
             wf_dict acc = true ->
             fold_left (EnvironmentManager.override_item prefix) environ
               (Ok acc) = Ok overrides ->
             wf_dict overrides = true).
  { induction environ as [|kv environ IH]; intros acc Hacc;
      cbn [fold_left]; [now intros [= <-]|].
    unfold EnvironmentManager.override_item at 2. cbn [bind].
    destruct (Py.startswith (fst kv) prefix); [|now apply IH].
    rewrite set_nested_value_total. apply IH.
    apply set_path_wf; [apply convert_env_value_scalar | exact Hacc]. }
  now apply H.
Qed.

(** X19: on a manager without cached overrides, [apply_env_overrides] puts
    the converted value of a prefixed variable into the raw tree at the
    variable's configuration key, over whatever was loaded there, provided
    the key of every prefixed variable that comes later in the iteration
    parts ways with it at some segment. *)
Theorem env_override_applied (before after : environ_t)
  (name value prefix : string) (self : ConfigManager.t) (default : pyval) :
  EnvironmentManager._env_overrides_cache (ConfigManager.env_manager self)
  = None ->
  Py.startswith name prefix = true ->
  Forall (fun kv =>
            Py.startswith (fst kv) prefix = true ->
            paths_part
              (Py.split_from "." 0 ""
                 (EnvironmentManager.config_key_of prefix name))
              (Py.split_from "." 0 ""
                 (EnvironmentManager.config_key_of prefix (fst kv))) = true)
    after ->
  exists self',
    ConfigManager.apply_env_overrides (before ++ (name, value) :: after)
      self prefix = Ok self'
    /\ get_nested_value (ConfigManager.config_data self')
         (EnvironmentManager.config_key_of prefix name) default "."
       = Ok (EnvironmentManager._convert_env_value value)
    /\ ConfigManager._resolved_cache self' = None.
Proof.
  intros Hcache Hname Hafter.
  destruct (compute_overrides_path before after name value prefix
              Hname Hafter) as (overrides & Hrun & Hpath).
  pose proof (compute_overrides_wf _ _ _ Hrun) as Hwf.
  unfold ConfigManager.apply_env_overrides,
    EnvironmentManager.get_env_overrides.
  rewrite Hcache, Hrun. cbn [bind].
  pose proof (split_from_not_nil "." 0 ""
                (EnvironmentManager.config_key_of prefix name)) as Hne.
  destruct overrides as [|kv overrides].
  - destruct (Py.split_from "." 0 "" _); [contradiction | discriminate].
  - eexists. split; [reflexivity|].
    cbn [ConfigManager.config_data ConfigManager.with_cache
           ConfigManager.with_data ConfigManager.with_env
           ConfigManager._resolved_cache].
    split; [|reflexivity].
    rewrite get_nested_value_dot.
    rewrite (deep_merge_path_overlay _ _ _ _ Hwf Hpath
               (proj1 (convert_env_value_scalar value))).
    reflexivity.
Qed.

Lemma env_override_applied_witness :
  exists self',
    ConfigManager.apply_env_overrides
      [("CONFIG_DATABASE_HOST", "db.internal"); ("HOME", "/root")]
      (ConfigManager.load_dict fresh_manager
         [("database", VDict [("host", VStr "localhost")])])
      "CONFIG_"
    = Ok self'
    /\ get_nested_value (ConfigManager.config_data self') "database.host"
         VNone "."
       = Ok (VStr "db.internal").
Proof.
  destruct (env_override_applied []
              [("HOME", "/root")] "CONFIG_DATABASE_HOST" "db.internal"
              "CONFIG_"
              (ConfigManager.load_dict fresh_manager
                 [("database", VDict [("host", VStr "localhost")])])
              VNone eq_refl eq_refl)
    as (self' & Hrun & Hget & _).
  { repeat constructor; discriminate. }
  exists self'. split; [exact Hrun | exact Hget].
Defined.

(** ** Reading back what was set *)



(** ** Filtering the flat form by a prefix *)

Section PrefixFilter.

Variable c : ascii.
Local Abbreviation sep := (String c "").

Lemma prefix_sep_free (k : string) :
  Py.contains_char c k = false ->
  forall k' r,
    Py.contains_char c k' = false ->
    String.prefix (k ++ sep) (k' ++ String c r) = String.eqb k' k.
Proof.
  induction k as [|a k IH]; intros Hk k' r Hk'.
  - destruct k' as [|d k'].
    + cbn [append]. rewrite prefix_char. apply Ascii.eqb_refl.
    + cbn [append]. rewrite prefix_char.
      cbn [Py.contains_char] in Hk'. apply orb_false_iff in Hk'.
      now destruct Hk' as [-> _].
  - cbn [Py.contains_char] in Hk. apply orb_false_iff in Hk.
    destruct Hk as [Ha Hk].
    destruct k' as [|d k']; cbn [append String.prefix String.eqb].
    + destruct (ascii_dec a c) as [->|_]; [|reflexivity].
      now rewrite Ascii.eqb_refl in Ha.
    + cbn [Py.contains_char] in Hk'. apply orb_false_iff in Hk'.
      destruct Hk' as [_ Hk'].
      destruct (ascii_dec a d) as [->|Hne].
      * rewrite Ascii.eqb_refl. now apply IH.
      * destruct (Ascii.eqb d a) eqn:E; [|reflexivity].
        apply Ascii.eqb_eq in E. congruence.
Qed.

Lemma prefix_sep_none (k : string) :
  forall k',
    Py.contains_char c k' = false -> String.prefix (k ++ sep) k' = false.
Proof.
  induction k as [|a k IH]; intros k' Hk'.
  - destruct k' as [|d k']; [reflexivity|]. cbn [append].
    rewrite prefix_char.
    cbn [Py.contains_char] in Hk'. apply orb_false_iff in Hk'.
    now destruct Hk' as [-> _].
  - destruct k' as [|d k']; [reflexivity|].
    cbn [append String.prefix].
    cbn [Py.contains_char] in Hk'. apply orb_false_iff in Hk'.
    destruct Hk' as [_ Hk'].
    destruct (ascii_dec a d); [now apply IH | reflexivity].
Qed.

Lemma contains_char_sep (k r : string) :
  Py.contains_char c (k ++ String c r) = true.
Proof.
  induction k as [|a k IH]; cbn [append Py.contains_char].
  - now rewrite Ascii.eqb_refl.
  - rewrite IH. apply orb_true_r.
Qed.

Lemma drop_prefix_sep (k r : string) :
  Py.drop (String.length (k ++ sep)) (k ++ String c r) = r.
Proof. induction k as [|a k IH]; [reflexivity | exact IH]. Qed.

(** Whether [filter_dict_by_prefix] keeps a key. *)
Definition under_prefix (prefix key : string) : bool :=
  Py.startswith key (prefix ++ sep) || String.eqb key prefix.

(** The key under which [filter_dict_by_prefix] stores a kept entry. *)
Definition stored_key (prefix : string) (remove_prefix : bool) (key : string)
  : string :=
  if remove_prefix && Py.startswith key (prefix ++ sep)
  then Py.drop (String.length (prefix ++ sep)) key
  else key.

Lemma filter_dict_by_prefix_entries (data : dict) (prefix : string)
  (remove_prefix : bool) :
  filter_dict_by_prefix data prefix remove_prefix sep
  = dict_update []
      (map (fun kv => (stored_key prefix remove_prefix (fst kv), snd kv))
         (filter (fun kv => under_prefix prefix (fst kv)) data)).
Proof.
  unfold filter_dict_by_prefix, dict_update.
  generalize (@nil (string * pyval)) as result.
  induction data as [|[key value] data IH]; intro result; [reflexivity|].
  cbn [fold_left filter fst]. unfold under_prefix at 1.
  destruct (Py.startswith key (prefix ++ sep) || String.eqb key prefix).
  - cbn [map fold_left fst snd]. apply IH.
  - apply IH.
Qed.

Lemma under_prefix_join (prefix k : string) (p : list string) :
  Py.contains_char c prefix = false ->
  Forall (fun x => Py.contains_char c x = false) (k :: p) ->
  under_prefix prefix (Py.join sep (k :: p)) = String.eqb k prefix.
Proof.
  intros Hprefix Hall. pose proof (Forall_inv Hall) as Hk.
  unfold under_prefix, Py.startswith. destruct p as [|x p].
  - cbn [Py.join]. now rewrite prefix_sep_none.
  - change (Py.join sep (k :: x :: p))
      with ((k ++ String c (Py.join sep (x :: p)))%string).
    rewrite prefix_sep_free by assumption.
    destruct (String.eqb (k ++ String c (Py.join sep (x :: p))) prefix) eqn:E;
      [|apply orb_false_r].
    apply String.eqb_eq in E. rewrite <- E in Hprefix.
    now rewrite contains_char_sep in Hprefix.
Qed.

Lemma stored_key_join (prefix : string) (p : list string) :
  p <> [] ->
  Py.contains_char c prefix = false ->
  Forall (fun x => Py.contains_char c x = false) p ->
  stored_key prefix true (Py.join sep (prefix :: p)) = Py.join sep p.
Proof.
  intros Hne Hprefix Hall. destruct p as [|x p]; [contradiction|].
  change (Py.join sep (prefix :: x :: p))
    with ((prefix ++ String c (Py.join sep (x :: p)))%string).
  unfold stored_key, Py.startswith.
  rewrite prefix_sep_free, String.eqb_refl by assumption.
  cbn [andb]. apply drop_prefix_sep.
Qed.

End PrefixFilter.

Lemma keys_free_get (c : ascii) (d : dict) (k : string) (x : pyval) :
  keys_free c (VDict d) = true -> dict_get k d = Some x ->
  Py.contains_char c k = false /\ keys_free c x = true.
Proof.
  induction d as [|[k' y] d IH]; [discriminate|].
  rewrite keys_free_cons, !andb_true_iff, negb_true_iff.
  intros [[Hk' Hy] Hd]. cbn [dict_get].
  destruct (String.eqb k k') eqn:E.
  - apply String.eqb_eq in E. subst k'. now intros [= <-].
  - now apply IH.
Qed.

Lemma filter_map_fst {A B : Type} (f : B -> bool) (g : A -> B) (l : list A) :
  filter f (map g l) = map g (filter (fun a => f (g a)) l).
Proof.
  induction l as [|a l IH]; [reflexivity|].
  cbn [map filter]. rewrite IH. now destruct (f (g a)).
Qed.

Lemma filter_same_head (k k' : string) (l : list (list string * pyval)) :
  Forall (fun pl => exists rest, fst pl = k' :: rest) l ->
  filter (fun pl => String.eqb (hd "" (fst pl)) k) l
  = if String.eqb k' k then l else [].
Proof.
  induction l as [|pl l IH]; intro H; [now destruct (String.eqb k' k)|].
  destruct (Forall_inv H) as [rest Hpl].
  cbn [filter]. rewrite Hpl, (IH (Forall_inv_tail H)). cbn [hd].
  now destruct (String.eqb k' k).
Qed.

Lemma leaves_without_head (k : string) (d : dict) :
  ~ In k (map fst d) ->
  filter (fun pl => String.eqb (hd "" (fst pl)) k) (leaves (VDict d)) = [].
Proof.
  intro Hout.
  induction d as [|kv d IH]; [reflexivity|].
  rewrite leaves_cons, filter_app, IH by (intro H; apply Hout; now right).
  rewrite (filter_same_head k (fst kv)).
  - destruct (String.eqb_spec (fst kv) k) as [E|_]; [|reflexivity].
    exfalso. apply Hout. left. exact E.
  - apply Forall_forall. intros pl Hpl. now apply item_leaves_paths.
Qed.

Lemma leaves_with_head (k : string) (x : pyval) (d : dict) :
  NoDup (map fst d) -> dict_get k d = Some x ->
  filter (fun pl => String.eqb (hd "" (fst pl)) k) (leaves (VDict d))
  = item_leaves (k, x).
Proof.
  induction d as [|[k' y] d IH]; intros Hnd Hget; [discriminate|].
  inversion Hnd as [|? ? Hk' Hd]; subst.
  rewrite leaves_cons, filter_app.
  rewrite (filter_same_head k k')
    by (apply Forall_forall; intros pl Hpl;
        exact (item_leaves_paths (k', y) pl Hpl)).
  cbn [dict_get] in Hget.
  destruct (String.eqb k k') eqn:E.
  - apply String.eqb_eq in E. subst k'. injection Hget as ->.
    rewrite String.eqb_refl, leaves_without_head by exact Hk'.
    apply app_nil_r.
  - rewrite String.eqb_sym, E. now apply IH.
Qed.

(** X21: filtering the flat form of a tree by a top-level key that holds a
    dictionary, the prefix removed, gives the flat form of that dictionary.
    The separator is one character that no key contains, and neither the
    tree nor the dictionary holds a dictionary under an empty top-level
    key. *)
Theorem filter_flat_subtree (t sub : dict) (c : ascii) (key : string) :
  wf_dict t = true ->
  keys_free c (VDict t) = true ->
  top_empty_key_ok t = true ->
  dict_get key t = Some (VDict sub) ->
  top_empty_key_ok sub = true ->
  filter_dict_by_prefix (flatten_dict t (String c "") "") key true (String c "")
  = flatten_dict sub (String c "") "".
Proof.
  intros Hwf Hfree Htop Hget Htop'.
  pose proof (proj1 (proj1 (wf_dict_unfold t) Hwf)) as Hnd.
  pose proof (wf_dict_get _ _ _ Hwf Hget) as Hwf'.
  rewrite wf_value_dict in Hwf'.
  pose proof (proj1 (proj1 (wf_dict_unfold sub) Hwf')) as Hnd'.
  destruct (keys_free_get c t key _ Hfree Hget) as [Hkey Hfree'].
  assert (Hflat : forall d,
             wf_dict d = true -> keys_free c (VDict d) = true ->
             top_empty_key_ok d = true ->
             flatten_dict d (String c "") ""
             = map (flat_of c []) (leaves (VDict d))).
  { intros d Hd Hf Ht. apply (flatten_leaves c (VDict d) d eq_refl []).
    - now left.
    - intros _. apply top_empty_key_ok_In; [|exact Ht].
      now apply wf_dict_unfold in Hd.
    - now apply flat_keys_NoDup. }
  rewrite filter_dict_by_prefix_entries, (Hflat t), (Hflat sub)
    by assumption.
  rewrite filter_map_fst.
  pose proof (leaves_keys_free c _ Hfree) as Hall.
  pose proof (leaves_paths_nonempty (VDict t)) as Hpaths.
  rewrite Forall_forall in Hall, Hpaths.
  rewrite (filter_ext_in _
             (fun pl => String.eqb (hd "" (fst pl)) key)).
  2:{ intros [p v] Hin. specialize (Hall _ Hin). specialize (Hpaths _ Hin).
      cbn [fst snd flat_of app] in *.
      destruct p as [|k p]; [contradiction|].
      now rewrite under_prefix_join. }
  rewrite (leaves_with_head key (VDict sub) t Hnd Hget).
  unfold item_leaves. cbn [fst snd]. rewrite !map_map.
  pose proof (leaves_keys_free c _ Hfree') as Hall'.
  pose proof (leaves_paths_nonempty (VDict sub)) as Hpaths'.
  rewrite Forall_forall in Hall', Hpaths'.
  rewrite (map_ext_in _ (flat_of c [])).
  2:{ intros [p v] Hin. unfold flat_of. cbn [fst snd app].
      rewrite stored_key_join; [reflexivity | | exact Hkey |].
      - exact (Hpaths' _ Hin).
      - exact (Hall' _ Hin). }
  rewrite dict_update_disjoint; [reflexivity|].
  cbn [map app]. now apply flat_keys_NoDup.
Qed.

Lemma filter_flat_subtree_witness :
  filter_dict_by_prefix
    (flatten_dict
       [("database", VDict [("host", VStr "h");
                            ("credentials", VDict [("user", VStr "u")])]);
        ("debug", VBool true)] "." "")
    "database" true "."
  = [("host", VStr "h"); ("credentials.user", VStr "u")].
Proof.
  exact (filter_flat_subtree
           [("database", VDict [("host", VStr "h");
                                ("credentials", VDict [("user", VStr "u")])]);
            ("debug", VBool true)]
           [("host", VStr "h"); ("credentials", VDict [("user", VStr "u")])]
           "." "database" eq_refl eq_refl eq_refl eq_refl eq_refl).
Defined.

(** ** The built-in rule [required] *)

(** X22: with the built-in rule [required] as the only rule, registered for
    one key path on a new validator, validation finds no error exactly when
    the configuration has a value at the key path that is not null, not a
    blank string, and not an empty list or dictionary. *)
Theorem required_rule_passes (py_str : pyval -> string)
  (is_valid_url is_valid_port is_valid_email : pyval -> res bool)
  (key_path : string) (config_data : dict) :
  exists self,
    ConfigValidator.add_rule
      (ConfigValidator.init is_valid_url is_valid_port is_valid_email)
      key_path (RuleName "required") = Ok self
    /\ (ConfigValidator.validate py_str self config_data false = Ok []
        <-> exists value,
            has_nested_key config_data key_path "." = Ok true
            /\ get_nested_value config_data key_path VNone "." = Ok value
            /\ is_not_empty value = Ok true).
Proof.
  exists (ConfigValidator.mk
            [(key_path,
              [mkRule "required" is_not_empty "is required and cannot be empty"
                 "Ensures value is not None or empty" true])]
            (ConfigValidator._register_built_in_rules is_valid_url
               is_valid_port is_valid_email)).
  split; [reflexivity|].
  rewrite validate_outcome, has_nested_key_path, get_nested_value_dot.
  cbn [ConfigValidator.rules flat_map]. rewrite app_nil_r.
  unfold entry_errors.
  destruct (path_value (VDict config_data) _) as [value|];
    cbn [existsb required orb].
  - assert (Hrule : forall v b,
               is_not_empty v = Ok b ->
               map (rule_message py_str key_path v)
                 (filter (fun rule => negb (rule_validate rule v))
                    [mkRule "required" is_not_empty
                       "is required and cannot be empty"
                       "Ensures value is not None or empty" true])
               = if b then [] else
                   [rule_message py_str key_path v
                      (mkRule "required" is_not_empty
                         "is required and cannot be empty"
                         "Ensures value is not None or empty" true)]).
    { intros v b Hv. cbn [filter]. unfold rule_validate.
      cbn [validator_func]. rewrite Hv. now destruct b. }
    assert (Hsome : exists b, is_not_empty value = Ok b)
      by (destruct value; eexists; reflexivity).
    destruct Hsome as [b Hb].
    assert (Hgoal : (if b then @nil string else
                       [rule_message py_str key_path value
                          (mkRule "required" is_not_empty
                             "is required and cannot be empty"
                             "Ensures value is not None or empty" true)])
                    = [] <-> b = true) by (destruct b; split; congruence).
    destruct value as [| | | |s|l|d];
      try (rewrite (Hrule _ b Hb));
      try (split;
           [ intro H; injection H as H; apply Hgoal in H; subst b;
             eexists; repeat split; exact Hb
           | intros (v & _ & [= <-] & H); rewrite Hb in H;
             injection H as ->; reflexivity ]).
    split; [discriminate|].
    intros (v & _ & [= <-] & H). discriminate H.
  - split; [discriminate|]. intros (v & H & _). discriminate H.
Qed.

(** ** The top level of the resolved configuration *)

Lemma dict_del_keys {V : Type} (d : list (string * V)) (k k' : string) :
  NoDup (map fst d) ->
  In k' (map fst (dict_del k d)) <-> k' <> k /\ In k' (map fst d).
Proof.
  intro Hnd. rewrite <- !dict_has_keys. unfold dict_has.
  destruct (String.eqb_spec k' k) as [->|Hne].
  - rewrite dict_get_del_same by exact Hnd. split; [discriminate | tauto].
  - rewrite dict_get_del_other by exact Hne. tauto.
Qed.

(** X23: iterating over a manager gives the top-level keys of the raw tree
    other than the name of the environment, together with the keys of the
    block of the environment when that block is a dictionary; the blocks of
    the other environments stay in place.  [len] counts these keys. *)
Theorem resolved_top_level_keys (environ : environ_t)
  (self : ConfigManager.t) (key : string) :
  ConfigManager._resolved_cache self = None ->
  NoDup (map fst (ConfigManager.config_data self)) ->
  (In key (fst (ConfigManager.__iter__ environ self))
   <-> (key <> env_value
                 (fst (EnvironmentManager.current_environment environ
                         (ConfigManager.env_manager self)))
        /\ In key (map fst (ConfigManager.config_data self)))
       \/ exists env_config,
           dict_get
             (env_value
                (fst (EnvironmentManager.current_environment environ
                        (ConfigManager.env_manager self))))
             (ConfigManager.config_data self) = Some (VDict env_config)
           /\ In key (map fst env_config))
  /\ fst (ConfigManager.__len__ environ self)
     = List.length (fst (ConfigManager.__iter__ environ self)).
Proof.
  intros Hcache Hnd.
  pose proof (get_resolved_config_uncached environ self true Hcache) as Hres.
  unfold ConfigManager.__iter__, ConfigManager.__len__.
  destruct (ConfigManager.get_resolved_config environ self true)
    as [resolved self'].
  cbn [fst] in Hres |- *. split; [|now rewrite length_map]. subst resolved.
  destruct (EnvironmentManager.current_environment environ _) as [e m].
  cbn [fst].
  pose proof (resolve_cases (ConfigManager.config_data self) e) as Hcase.
  destruct (dict_get (env_value e) (ConfigManager.config_data self))
    as [x|] eqn:Hblock.
  - destruct x as [| | | | | |env_config]; cbn beta iota in Hcase;
      try (rewrite Hcase, dict_del_keys by exact Hnd;
           split; [intro H; now left | intros [H|(blk & Hb & _)];
                                       [exact H | discriminate Hb]]).
    rewrite Hcase, deep_merge_keys, dict_del_keys by exact Hnd.
    split.
    + intros [H|H]; [now left | right; now exists env_config].
    + intros [H|(blk & [= <-] & H)]; [now left | now right].
  - rewrite Hcase. split.
    + intro H. left. split; [|exact H]. intros ->.
      apply dict_get_None_keys in Hblock. contradiction.
    + intros [[_ H]|(blk & Hb & _)]; [exact H | discriminate Hb].
Qed.

Lemma resolved_top_level_keys_witness :
  In "debug"
    (fst (ConfigManager.__iter__ [("APP_ENV", "production")]
            (ConfigManager.load_dict fresh_manager
               [("name", VStr "app");
                ("production", VDict [("debug", VBool false)])]))).
Proof.
  apply (resolved_top_level_keys [("APP_ENV", "production")]
           (ConfigManager.load_dict fresh_manager
              [("name", VStr "app");
               ("production", VDict [("debug", VBool false)])])
           "debug" eq_refl).
  - repeat constructor; cbn; intuition discriminate.
  - right. eexists. split; [reflexivity | now left].
Defined.

(** ** Deleting by subscript *)



(** ** Several assignments in a row *)

Lemma set_all_keeps (p : list string) (ps : list (list string * pyval)) :
  Forall (fun pl => paths_part p (fst pl) = true) ps ->
  forall acc : dict,
    path_value (VDict (set_all acc ps)) p = path_value (VDict acc) p.
Proof.
  unfold set_all.
  induction ps as [|pl ps IH]; intros Hall acc; cbn [fold_left];
    [reflexivity|].
  rewrite (IH (Forall_inv_tail Hall)).
  apply path_value_set_path_part. exact (Forall_inv Hall).
Qed.

Lemma set_all_visible (p : list string) (v : pyval)
  (before after : list (list string * pyval)) (acc : dict) :
  p <> [] ->
  Forall (fun pl => paths_part p (fst pl) = true) after ->
  path_value (VDict (set_all acc (before ++ (p, v) :: after))) p = Some v.
Proof.
  intros Hne Hafter. rewrite set_all_app.
  change (set_all (set_all acc before) ((p, v) :: after))
    with (set_all (set_path (set_all acc before) p v) after).
  rewrite (set_all_keeps p after Hafter).
  now apply path_value_set_path.
Qed.

(** The assignments that [update] and [unflatten_dict] make, as paths. *)
Definition assignments (separator : string) (entries : dict)
  : list (list string * pyval) :=
  map (fun kv => (Py.split_from separator 0 "" (fst kv), snd kv)) entries.

Lemma update_assignments (updates : dict) (self : ConfigManager.t) :
  exists self',
    ConfigManager.update self updates = Ok self'
    /\ ConfigManager.config_data self'
       = set_all (ConfigManager.config_data self) (assignments "." updates)
    /\ ConfigManager.env_manager self' = ConfigManager.env_manager self
    /\ (updates <> [] -> ConfigManager._resolved_cache self' = None).
Proof.
  unfold ConfigManager.update. revert self.
  induction updates as [|[k v] updates IH]; intro self; cbn [fold_left].
  - exists self. now repeat split.
  - cbn [bind fst snd]. unfold ConfigManager.set at 2.
    rewrite set_nested_value_total. cbn [bind].
    destruct (IH (ConfigManager.with_cache
                    (ConfigManager.with_data self
                       (set_path (ConfigManager.config_data self)
                          (Py.split_from "." 0 "" k) v)) None))
      as (self' & Hrun & Hdata & Henv & Hcache).
    exists self'. split; [exact Hrun|]. split; [exact Hdata|].
    split; [exact Henv|]. intros _.
    destruct updates as [|kv updates]; [|apply Hcache; discriminate].
    cbn [fold_left] in Hrun. now injection Hrun as <-.
Qed.


Lemma assignments_visible (separator : string) (acc before after : dict)
  (key_path : string) (value : pyval) :
  Forall (fun kv =>
            paths_part (Py.split_from separator 0 "" key_path)
              (Py.split_from separator 0 "" (fst kv)) = true) after ->
  path_value
    (VDict (set_all acc
              (assignments separator (before ++ (key_path, value) :: after))))
    (Py.split_from separator 0 "" key_path) = Some value.
Proof.
  intro Hafter. unfold assignments.
  rewrite map_app. cbn [map fst snd].
  apply set_all_visible; [apply split_from_not_nil|].
  apply Forall_map. exact Hafter.
Qed.

(** X25: [update] never raises; given at least one entry it drops the
    cached resolution, and afterwards the raw tree holds the value of the
    last entry at its key path. *)
Theorem update_entry_visible (self : ConfigManager.t) (before : dict)
  (key_path : string) (value default : pyval) :
  exists self',
    ConfigManager.update self (before ++ [(key_path, value)]) = Ok self'
    /\ ConfigManager._resolved_cache self' = None
    /\ get_nested_value (ConfigManager.config_data self') key_path default "."
       = Ok value.
Proof.
  destruct (update_assignments (before ++ [(key_path, value)]) self)
    as (self' & Hrun & Hdata & _ & Hcache).
  exists self'. split; [exact Hrun|].
  split; [apply Hcache; now destruct before|].
  rewrite get_nested_value_dot, Hdata, assignments_visible; [reflexivity|].
  constructor.
Qed.


